(** * Guest registration service: submission, rate limiting, lookup, rendering

    A shallow embedding of
      - [src/lib/kv.ts]                 (the record store wrapper),
      - [src/app/api/submit/route.ts]   (schema, rate limiter, spam check, POST,
                                         and the success page that follows it),
      - [src/app/api/pdf/route.ts]      (the document renderer),
      - [src/app/success/not-found.tsx] (the registration form of
                                         [app/register/page.tsx], which posts
                                         to the submission endpoint).

    Conventions.
    - A JavaScript string is a Rocq [string]; one [ascii] stands for one code
      unit below 256 (the Latin-1 range).
    - Numbers that the handlers compare exactly (clock readings in
      milliseconds, counters, sizes) are in [Z]; JSON numbers and page
      coordinates are exact rationals [Q].
    - What the handlers take from their platform and libraries (the clock,
      the random identifier, the availability of the remote store, zod's
      e-mail grammar, the Date parser, font encodings and metrics, image
      decoders) is an
      explicit input: a field of [Platform] or of the per-request [Env]. *)

From Stdlib Require Import ZArith QArith String Ascii List Lia Bool.
From stdpp Require Import base option list gmap strings pretty.

Local Open Scope string_scope.
Local Open Scope Z_scope.

(** String append unfolds under [simpl], as the other fixpoints do. *)
#[local] Arguments String.append !s1 s2 : simpl nomatch.

(** ** JavaScript string primitives *)

Module Js.

Definition charCode (c : ascii) : Z := Z.of_N (N_of_ascii c).

Definition in_range (lo hi : Z) (c : ascii) : bool :=
  (lo <=? charCode c) && (charCode c <=? hi).

(** [\d], [A-Z], [a-z], [\w], [\s], and the characters [.] refuses. *)
Definition is_digit (c : ascii) : bool := in_range 48 57 c.
Definition is_upper (c : ascii) : bool := in_range 65 90 c.
Definition is_lower (c : ascii) : bool := in_range 97 122 c.
Definition is_alpha (c : ascii) : bool := is_upper c || is_lower c.
Definition is_word (c : ascii) : bool :=
  is_alpha c || is_digit c || (charCode c =? 95).
Definition is_space (c : ascii) : bool :=
  in_range 9 13 c || (charCode c =? 32) || (charCode c =? 160).
Definition is_line_terminator (c : ascii) : bool :=
  (charCode c =? 10) || (charCode c =? 13).
Definition is_hex (c : ascii) : bool :=
  is_digit c || in_range 65 70 c || in_range 97 102 c.

(** [String.prototype.toLowerCase] on the Latin-1 range: the ASCII capitals
    and the accented capitals 0xC0..0xDE, the multiplication sign apart. *)
Definition lower_char (c : ascii) : ascii :=
  if is_upper c || (in_range 192 222 c && negb (charCode c =? 215))
  then ascii_of_N (N_of_ascii c + 32)
  else c.

Fixpoint toLowerCase (s : string) : string :=
  match s with
  | EmptyString => EmptyString
  | String c s' => String (lower_char c) (toLowerCase s')
  end.

Fixpoint all_chars (p : ascii -> bool) (s : string) : bool :=
  match s with
  | EmptyString => true
  | String c s' => p c && all_chars p s'
  end.

Definition is_empty (s : string) : bool :=
  match s with EmptyString => true | _ => false end.

(** A whole-string match of [^[class]+$]. *)
Definition one_or_more (p : ascii -> bool) (s : string) : bool :=
  negb (is_empty s) && all_chars p s.

Definition startsWith (s p : string) : bool := String.prefix p s.

(** [s.split(sep)] for a one-character separator: never the empty list. *)
Fixpoint split (sep : ascii) (s : string) : list string :=
  match s with
  | EmptyString => [EmptyString]
  | String c s' =>
      if Ascii.eqb c sep then EmptyString :: split sep s'
      else match split sep s' with
           | [] => [String c EmptyString]
           | w :: ws => String c w :: ws
           end
  end.

(** [p] holds of some suffix of [s]: an unanchored regular expression. *)
Fixpoint somewhere (p : string -> bool) (s : string) : bool :=
  p s || match s with
         | EmptyString => false
         | String _ s' => somewhere p s'
         end.

(** The rest of [s] after the literal [w], letters compared as the [i] flag
    does (both sides lower-cased). *)
Fixpoint after_literal (w s : string) : option string :=
  match w, s with
  | EmptyString, _ => Some s
  | String a w', String b s' =>
      if Ascii.eqb (lower_char a) (lower_char b) then after_literal w' s' else None
  | String _ _, EmptyString => None
  end.

Fixpoint skip_digits (s : string) : string :=
  match s with
  | String c s' => if is_digit c then skip_digits s' else s
  | EmptyString => EmptyString
  end.

(** The length of the run of [c] that starts [s]. *)
Fixpoint run_length (c : ascii) (s : string) : nat :=
  match s with
  | String d s' => if Ascii.eqb c d then S (run_length c s') else O
  | EmptyString => O
  end.

(** [n] copies of [c]. *)
Fixpoint repeat_char (c : ascii) (n : nat) : string :=
  match n with
  | O => EmptyString
  | S n' => String c (repeat_char c n')
  end.

(** [atob]: the forgiving base64 decoder. ASCII white space is dropped; when
    the length is a multiple of four, one or two closing [=] are dropped; a
    length of 1 modulo 4 or a character outside the alphabet fails; the rest
    is read six bits at a time, the incomplete last byte discarded. *)
Definition b64_value (c : ascii) : option Z :=
  let n := charCode c in
  if is_upper c then Some (n - 65)
  else if is_lower c then Some (n - 97 + 26)
  else if is_digit c then Some (n - 48 + 52)
  else if n =? 43 then Some 62
  else if n =? 47 then Some 63
  else None.

Definition is_b64_space (c : ascii) : bool :=
  let n := charCode c in
  (n =? 9) || (n =? 10) || (n =? 12) || (n =? 13) || (n =? 32).

Definition is_pad (c : ascii) : bool := charCode c =? 61.

Fixpoint strip_b64_space (s : string) : list ascii :=
  match s with
  | EmptyString => []
  | String c s' =>
      if is_b64_space c then strip_b64_space s' else c :: strip_b64_space s'
  end.

(** Drops one or two [=] from the end of a reversed list. *)
Definition drop_padding_rev (r : list ascii) : list ascii :=
  match r with
  | a :: r1 =>
      if is_pad a then
        match r1 with
        | b :: r2 => if is_pad b then r2 else r1
        | [] => r1
        end
      else r
  | [] => r
  end.

Definition strip_padding (l : list ascii) : list ascii :=
  if (length l mod 4 =? 0)%nat then rev (drop_padding_rev (rev l)) else l.

Fixpoint sextets (l : list ascii) : option (list Z) :=
  match l with
  | [] => Some []
  | c :: l' =>
      match b64_value c, sextets l' with
      | Some v, Some vs => Some (v :: vs)
      | _, _ => None
      end
  end.

Fixpoint decode_sextets (l : list Z) : list Z :=
  match l with
  | a :: b :: c :: d :: rest =>
      let n := a * 262144 + b * 4096 + c * 64 + d in
      (n / 65536) :: ((n / 256) mod 256) :: (n mod 256) :: decode_sextets rest
  | [a; b; c] =>
      let n := a * 4096 + b * 64 + c in
      [n / 1024; (n / 4) mod 256]
  | [a; b] => [(a * 64 + b) / 16]
  | _ => []
  end.

(** The decoded bytes, [None] where [atob] throws. *)
Definition atob (s : string) : option (list Z) :=
  let l := strip_padding (strip_b64_space s) in
  if (length l mod 4 =? 1)%nat then None
  else decode_sextets <$> sextets l.

End Js.

(** ** Values that cross the JSON boundary *)

(** A JSON value as the schema sees it: containers are opaque, since every
    field of the schema is a scalar. A missing key is [None] at lookup. *)
Inductive JsValue :=
  | JNull
  | JBool (b : bool)
  | JNumber (q : Q)
  | JString (s : string)
  | JArray
  | JObject.

(** A parsed request body: an object (a finite map from keys to values) or
    a JSON value of another kind. *)
Inductive Payload :=
  | TopLevel (v : JsValue)
  | Object (o : gmap string JsValue).

(** [RegistrationData]: what the schema yields on success. *)
Record RegistrationData := {
  fullName : string;
  idOrPassport : string;
  nationality : string;
  residenceStatus : string;
  homeAddress : string;
  phone : string;
  email : string;
  checkIn : string;
  checkOut : string;
  guests : Q;
  selfie : string;
  idImage : string;
  signature : string;
  popiaConsent : bool;
  nonRefundAck : bool
}.

Record Metadata := {
  userAgent : string;
  ip : string;
  timestamp : string
}.

(** [SubmissionRecord] of the submit route. *)
Record SubmissionRecord := {
  id : string;
  createdAt : Z;
  data : RegistrationData;
  metadata : Metadata
}.

(** The values the handlers keep in the store: a submission record, a
    rate-limit record [{ count, resetTime }], and the record that the
    limiter derives from a value without these two fields,
    [{ count: NaN, resetTime: undefined }]. A store returns a value as it
    was written. *)
Inductive StoredValue :=
  | VSubmission (s : SubmissionRecord)
  | VRateLimit (count resetTime : Z)
  | VRateLimitNaN.

(** ** The platform *)

Inductive Font := Helvetica | HelveticaBold.

Class Platform := {
  (** zod's e-mail grammar *)
  zod_email : string -> bool;
  (** [new Date(s).getTime()], [None] for an invalid date *)
  Date_parse : string -> option Z;
  (** whether the encoding of a pdf-lib font has a character: a text with a
      character it has not makes [widthOfTextAtSize] and [drawText] throw *)
  encodable : Font -> ascii -> bool;
  (** pdf-lib's [font.widthOfTextAtSize(text, size)] of a text it encodes *)
  widthOfTextAtSize : Font -> string -> Q -> Q;
  (** [dayjs(ms).format(fmt)] and [dayjs(text).format(fmt)] *)
  dayjs_ms_format : Z -> string -> string;
  dayjs_text_format : string -> string -> string;
  (** pdf-lib's image embedders: the width and height of the image, [None]
      where they throw *)
  embedPng : list Z -> option (positive * positive);
  embedJpg : list Z -> option (positive * positive);
  (** [Number.prototype.toString] outside the plain-integer range *)
  number_toString_other : Q -> string
}.

(** ** [src/lib/kv.ts]: the record store *)

(** An entry of the remote store: the value and the expiry in seconds it was
    written with, if any. *)
Record KvEntry := {
  entry_value : StoredValue;
  entry_ex : option Z
}.

(** The remote store and the module-level [memory] map of the wrapper. *)
Record Store := {
  remote : gmap string KvEntry;
  memory : gmap string StoredValue
}.

(** The client of the remote store: [kv.set(key, value, opts)] and
    [kv.get(key)]. Each call reaches the store ([up = true]) or throws. *)
Definition kv_set (up : bool) (key : string) (value : StoredValue)
    (opts : option Z) (st : Store) : option Store :=
  if up
  then Some {| remote := <[key := {| entry_value := value; entry_ex := opts |}]> (remote st);
               memory := memory st |}
  else None.

Definition kv_get (up : bool) (key : string) (st : Store) : option (option StoredValue) :=
  if up then Some (entry_value <$> remote st !! key) else None.

(** [kvSet(key, value)]. The function has two parameters; [extra] is the
    third argument its callers pass ([{ ex: seconds }]), which JavaScript
    drops at the call: the body calls [kv.set(key, value)]. *)
Definition kvSet (up : bool) (key : string) (value : StoredValue)
    (extra : option Z) (st : Store) : Store :=
  match kv_set up key value None st with
  | Some st' => st'
  | None => {| remote := remote st; memory := <[key := value]> (memory st) |}
  end.

(** [kvGet(key)]: the remote value when the call succeeds and finds one (a
    stored object is truthy), the [memory] map otherwise. *)
Definition kvGet (up : bool) (key : string) (st : Store) : option StoredValue :=
  match kv_get up key st with
  | Some (Some v) => Some v
  | _ => memory st !! key
  end.

(** ** zod: parse results, string, number and literal schemas *)

(** One entry of [details]: [err.path.join('.')] and [err.message]. *)
Record ZodIssue := {
  field : string;
  message : string
}.

(** The outcome of parsing one schema: the issues it raised and the value
    it produced; no value when the parse aborted. A parse is valid when it
    has a value and no issue, dirty when it has a value and issues. *)
Record Parsed (A : Type) := {
  issues : list ZodIssue;
  value : option A
}.
Arguments issues {A} _.
Arguments value {A} _.

Definition received (v : JsValue) : string :=
  match v with
  | JNull => "null"
  | JBool _ => "boolean"
  | JNumber _ => "number"
  | JString _ => "string"
  | JArray => "array"
  | JObject => "object"
  end.

Definition invalid_type (expected : string) (v : option JsValue) : string :=
  match v with
  | None => "Required"
  | Some v => "Expected " ++ expected ++ ", received " ++ received v
  end.

Definition abort {A : Type} (f msg : string) : Parsed A :=
  {| issues := [ {| field := f; message := msg |} ]; value := None |}.

Inductive StringCheck :=
  | min_len (n : nat) (msg : string)
  | max_len (n : nat) (msg : string)
  | regex (re : string -> bool) (msg : string)
  | email_check (msg : string)
  | toLowerCase_check.

Section Schema.
Context `{Platform}.

(** What one check does to the string under validation: the message of the
    issue it raises, if any, and the string the later checks see. *)
Definition run_check (ck : StringCheck) (s : string) : option string * string :=
  match ck with
  | min_len n msg => (if (String.length s <? n)%nat then Some msg else None, s)
  | max_len n msg => (if (n <? String.length s)%nat then Some msg else None, s)
  | regex re msg => (if re s then None else Some msg, s)
  | email_check msg => (if zod_email s then None else Some msg, s)
  | toLowerCase_check => (None, Js.toLowerCase s)
  end.

(** Every check runs, in order: a failing check raises its issue and does
    not stop the later ones. *)
Fixpoint run_checks (f : string) (cks : list StringCheck) (s : string)
    : list ZodIssue * string :=
  match cks with
  | [] => ([], s)
  | ck :: rest =>
      let '(bad, s1) := run_check ck s in
      let '(more, s2) := run_checks f rest s1 in
      (match bad with
       | Some msg => {| field := f; message := msg |} :: more
       | None => more
       end, s2)
  end.

(** [z.string()] with its checks: a value that is not a string aborts with
    one issue and no check is run. *)
Definition z_string (f : string) (cks : list StringCheck) (v : option JsValue)
    : Parsed string :=
  match v with
  | Some (JString s) =>
      let '(found, s') := run_checks f cks s in
      {| issues := found; value := Some s' |}
  | _ => abort f (invalid_type "string" v)
  end.

(** [.refine(pred, msg)] with the issue reported at [f]: skipped when the
    inner parse aborted, run on the inner value otherwise (dirty or not). *)
Definition refine {A : Type} (f : string) (pred : A -> bool) (msg : string)
    (p : Parsed A) : Parsed A :=
  match value p with
  | None => p
  | Some a =>
      if pred a then p
      else {| issues := issues p ++ [ {| field := f; message := msg |} ];
              value := Some a |}
  end.

Definition is_integer (q : Q) : bool := (Zpos (Qden (Qred q)) =? 1).

Definition Qltb (a b : Q) : bool := negb (Qle_bool b a).

(** [z.number().int(m1).min(lo, m2).max(hi, m3)] *)
Definition z_number_int_range (f : string) (m1 : string) (lo : Q) (m2 : string)
    (hi : Q) (m3 : string) (v : option JsValue) : Parsed Q :=
  match v with
  | Some (JNumber q) =>
      {| issues :=
           (if is_integer q then [] else [ {| field := f; message := m1 |} ])
           ++ (if Qltb q lo then [ {| field := f; message := m2 |} ] else [])
           ++ (if Qltb hi q then [ {| field := f; message := m3 |} ] else []);
         value := Some q |}
  | _ => abort f (invalid_type "number" v)
  end.

(** [z.literal(true, { errorMap })]: anything but [true] aborts with the
    message of the error map. *)
Definition z_literal_true (f msg : string) (v : option JsValue) : Parsed bool :=
  match v with
  | Some (JBool true) => {| issues := []; value := Some true |}
  | _ => abort f msg
  end.

(** ** [RegistrationSchema] *)

Definition name_chars (c : ascii) : bool :=
  Js.is_alpha c || Js.is_space c || (Js.charCode c =? 45)
  || (Js.charCode c =? 39) || (Js.charCode c =? 46).

Definition id_chars (c : ascii) : bool :=
  Js.is_alpha c || Js.is_digit c || (Js.charCode c =? 45).

Definition nationality_chars (c : ascii) : bool := Js.is_alpha c || Js.is_space c.

Definition phone_chars (c : ascii) : bool :=
  Js.is_digit c || Js.is_space c || (Js.charCode c =? 45)
  || (Js.charCode c =? 40) || (Js.charCode c =? 41).

(** [/^[\+]?[\d\s\-\(\)]+$/] *)
Definition phone_regex (s : string) : bool :=
  match s with
  | String c rest =>
      if Js.charCode c =? 43 then Js.one_or_more phone_chars rest
      else Js.one_or_more phone_chars s
  | EmptyString => false
  end.

(** The refinement of [checkIn]: [new Date(date) > new Date()]. *)
Definition checkIn_in_future (now : Z) (date : string) : bool :=
  match Date_parse date with
  | Some t => now <? t
  | None => false
  end.

(** The refinement shared by the three image fields. The size estimate
    [(base64.length * 3) / 4 <= maxSize] is compared without the division. *)
Definition image_ok (maxSize : Z) (data : string) : bool :=
  if negb (Js.startsWith data "data:image/") then false
  else match Js.split "," data !! 1%nat with
       | None => false
       | Some base64 =>
           if Js.is_empty base64 then false
           else Z.of_nat (String.length base64) * 3 <=? 4 * maxSize
       end.

Definition MB : Z := 1024 * 1024.

(** The first cross-field refinement: [checkOut > checkIn]. *)
Definition checkOut_after_checkIn (d : RegistrationData) : bool :=
  match Date_parse (checkIn d), Date_parse (checkOut d) with
  | Some i, Some o => i <? o
  | _, _ => false
  end.

Definition ceil_div (a b : Z) : Z := - ((- a) / b).

Definition msPerDay : Z := 1000 * 60 * 60 * 24.

(** The second one: [Math.ceil(Math.abs(out - in) / msPerDay) <= 365]. *)
Definition stay_at_most_a_year (d : RegistrationData) : bool :=
  match Date_parse (checkIn d), Date_parse (checkOut d) with
  | Some i, Some o => ceil_div (Z.abs (o - i)) msPerDay <=? 365
  | _, _ => false
  end.

Definition msg_after : string := "Check-out date must be after check-in date".
Definition msg_year : string := "Stay duration cannot exceed 365 days".
Definition msg_future : string := "Check-in date must be in the future".

Definition p_fullName (o : gmap string JsValue) : Parsed string :=
  z_string "fullName"
    [ min_len 2 "Full name must be at least 2 characters";
      max_len 100 "Full name must be less than 100 characters";
      regex (Js.one_or_more name_chars) "Full name contains invalid characters" ]
    (o !! "fullName").

Definition p_idOrPassport (o : gmap string JsValue) : Parsed string :=
  z_string "idOrPassport"
    [ min_len 4 "ID/Passport must be at least 4 characters";
      max_len 20 "ID/Passport must be less than 20 characters";
      regex (Js.one_or_more id_chars) "ID/Passport contains invalid characters" ]
    (o !! "idOrPassport").

Definition p_nationality (o : gmap string JsValue) : Parsed string :=
  z_string "nationality"
    [ min_len 2 "Nationality must be at least 2 characters";
      max_len 50 "Nationality must be less than 50 characters";
      regex (Js.one_or_more nationality_chars) "Nationality contains invalid characters" ]
    (o !! "nationality").

Definition p_residenceStatus (o : gmap string JsValue) : Parsed string :=
  z_string "residenceStatus"
    [ min_len 2 "Residence status must be at least 2 characters";
      max_len 100 "Residence status must be less than 100 characters" ]
    (o !! "residenceStatus").

Definition p_homeAddress (o : gmap string JsValue) : Parsed string :=
  z_string "homeAddress"
    [ min_len 5 "Home address must be at least 5 characters";
      max_len 300 "Home address must be less than 300 characters" ]
    (o !! "homeAddress").

Definition p_phone (o : gmap string JsValue) : Parsed string :=
  z_string "phone"
    [ min_len 6 "Phone number must be at least 6 characters";
      max_len 20 "Phone number must be less than 20 characters";
      regex phone_regex "Invalid phone number format" ]
    (o !! "phone").

Definition p_email (o : gmap string JsValue) : Parsed string :=
  z_string "email"
    [ email_check "Invalid email address";
      max_len 100 "Email must be less than 100 characters";
      toLowerCase_check ]
    (o !! "email").

Definition p_checkIn (now : Z) (o : gmap string JsValue) : Parsed string :=
  refine "checkIn" (checkIn_in_future now) msg_future
    (z_string "checkIn" [ min_len 4 "Check-in date is required" ] (o !! "checkIn")).

Definition p_checkOut (o : gmap string JsValue) : Parsed string :=
  z_string "checkOut" [ min_len 4 "Check-out date is required" ] (o !! "checkOut").

Definition p_guests (o : gmap string JsValue) : Parsed Q :=
  z_number_int_range "guests" "Number of guests must be a whole number"
    1%Q "At least 1 guest is required" 20%Q "Maximum 20 guests allowed"
    (o !! "guests").

Definition msg_selfie : string := "Invalid selfie image or file too large (max 5MB)".
Definition msg_idImage : string := "Invalid ID/Passport image or file too large (max 5MB)".
Definition msg_signature : string := "Invalid signature or file too large (max 1MB)".

Definition p_selfie (o : gmap string JsValue) : Parsed string :=
  refine "selfie" (image_ok (5 * MB)) msg_selfie
    (z_string "selfie" [ min_len 10 "Selfie is required" ] (o !! "selfie")).

Definition p_idImage (o : gmap string JsValue) : Parsed string :=
  refine "idImage" (image_ok (5 * MB)) msg_idImage
    (z_string "idImage" [ min_len 10 "ID/Passport image is required" ] (o !! "idImage")).

Definition p_signature (o : gmap string JsValue) : Parsed string :=
  refine "signature" (image_ok (1 * MB)) msg_signature
    (z_string "signature" [ min_len 10 "Digital signature is required" ] (o !! "signature")).

Definition p_popiaConsent (o : gmap string JsValue) : Parsed bool :=
  z_literal_true "popiaConsent" "POPIA consent is required" (o !! "popiaConsent").

Definition p_nonRefundAck (o : gmap string JsValue) : Parsed bool :=
  z_literal_true "nonRefundAck" "Non-refund policy acknowledgment is required"
    (o !! "nonRefundAck").

(** [z.object({...})] on an object: every key of the shape is parsed, in the
    order of the shape, and all their issues are kept; the object has a
    value unless the parse of some key aborted. *)
Definition z_object (now : Z) (o : gmap string JsValue) : Parsed RegistrationData :=
  {| issues :=
       issues (p_fullName o) ++ issues (p_idOrPassport o) ++ issues (p_nationality o)
       ++ issues (p_residenceStatus o) ++ issues (p_homeAddress o) ++ issues (p_phone o)
       ++ issues (p_email o) ++ issues (p_checkIn now o) ++ issues (p_checkOut o)
       ++ issues (p_guests o) ++ issues (p_selfie o) ++ issues (p_idImage o)
       ++ issues (p_signature o) ++ issues (p_popiaConsent o) ++ issues (p_nonRefundAck o);
     value :=
       v1 ← value (p_fullName o); v2 ← value (p_idOrPassport o);
       v3 ← value (p_nationality o); v4 ← value (p_residenceStatus o);
       v5 ← value (p_homeAddress o); v6 ← value (p_phone o);
       v7 ← value (p_email o); v8 ← value (p_checkIn now o);
       v9 ← value (p_checkOut o); v10 ← value (p_guests o);
       v11 ← value (p_selfie o); v12 ← value (p_idImage o);
       v13 ← value (p_signature o); v14 ← value (p_popiaConsent o);
       v15 ← value (p_nonRefundAck o);
       Some {| fullName := v1; idOrPassport := v2; nationality := v3;
               residenceStatus := v4; homeAddress := v5; phone := v6;
               email := v7; checkIn := v8; checkOut := v9; guests := v10;
               selfie := v11; idImage := v12; signature := v13;
               popiaConsent := v14; nonRefundAck := v15 |} |}.

(** The schema with its two cross-field refinements, on a parsed body. A
    value that is not an object aborts with one issue at the empty path; an
    object given opaquely has no key of the shape. *)
Definition RegistrationSchema (now : Z) (b : Payload) : Parsed RegistrationData :=
  let on_object (o : gmap string JsValue) :=
    refine "checkOut" stay_at_most_a_year msg_year
      (refine "checkOut" checkOut_after_checkIn msg_after (z_object now o)) in
  match b with
  | Object o => on_object o
  | TopLevel JObject => on_object ∅
  | TopLevel v => abort "" (invalid_type "object" (Some v))
  end.

(** [RegistrationSchema.parse(payload)]: the data when the parse is valid,
    the issues of the [ZodError] it throws otherwise. *)
Definition parse (now : Z) (b : Payload) : RegistrationData + list ZodIssue :=
  let p := RegistrationSchema now b in
  match value p, issues p with
  | Some d, [] => inl d
  | _, found => inr found
  end.

End Schema.

(** ** [src/app/api/submit/route.ts]: the submission endpoint *)

(** What one request reads from its platform, in the order the handler asks:
    the clock and the two store calls of the rate limiter, the clock of the
    [checkIn] refinement, the random identifier, the clock readings of the
    record, and the store call that persists it. *)
Record Env := {
  now_rate : Z;
  up_rate_get : bool;
  up_rate_set : bool;
  now_validate : Z;
  randomUUID : string;
  now_created : Z;
  now_iso : string;
  up_persist : bool
}.

(** The headers the handler reads and the body; the body is [None] where
    [request.json()] throws. *)
Record Request := {
  user_agent : option string;
  x_forwarded_for : option string;
  x_real_ip : option string;
  body : option Payload
}.

Inductive Response :=
  | RateLimited
  | BadJson
  | ValidationFailed (details : list ZodIssue)
  | Rejected
  | Created (submissionId : string)
  | InternalError.

Definition status (r : Response) : Z :=
  match r with
  | RateLimited => 429
  | BadJson => 400
  | ValidationFailed _ => 400
  | Rejected => 400
  | Created _ => 201
  | InternalError => 500
  end.

Definition windowMs : Z := 15 * 60 * 1000.
Definition maxRequests : Z := 3.

Definition rate_key (identifier : string) : string := "rate_limit:" ++ identifier.
Definition guest_key (submissionId : string) : string := "guest:" ++ submissionId.

(** [checkRateLimit(identifier)]. The wrappers [kvGet] and [kvSet] never
    throw, so the [catch] is not reached. A submission record under a
    rate-limit key has neither [count] nor [resetTime]: [now > undefined]
    and [undefined >= maxRequests] are both false, the call is allowed, and
    the key is overwritten with [{ count: undefined + 1, resetTime:
    undefined }], a record whose count is [NaN]. That record is read and
    written back in the same way ([NaN >= maxRequests] is false, [NaN + 1]
    is [NaN]). The expiry of both writes, [Math.floor((undefined - now) /
    1000)], is [NaN], and [kvSet] drops it as it does every expiry. *)
Definition checkRateLimit (identifier : string) (now : Z) (up_get up_set : bool)
    (st : Store) : bool * Store :=
  let key := rate_key identifier in
  let fresh :=
    (true, kvSet up_set key (VRateLimit 1 (now + windowMs))
             (Some (windowMs / 1000)) st) in
  match kvGet up_get key st with
  | None => fresh
  | Some (VRateLimit count resetTime) =>
      if resetTime <? now then fresh
      else if maxRequests <=? count then (false, st)
      else (true, kvSet up_set key (VRateLimit (count + 1) resetTime)
                    (Some ((resetTime - now) / 1000)) st)
  | Some (VSubmission _) | Some VRateLimitNaN =>
      (true, kvSet up_set key VRateLimitNaN None st)
  end.

Definition spam_words : list string := ["test"; "fake"; "spam"; "dummy"].

Definition spam_keywords : list string :=
  ["viagra"; "casino"; "lottery"; "winner"; "congratulations"; "urgent"; "click here"].

(** [/(.)\1{10,}/] at the head of [s]: a character that is no line
    terminator, and ten more of it. *)
Definition repeated_here (s : string) : bool :=
  match s with
  | String c s' => negb (Js.is_line_terminator c) && (10 <=? Js.run_length c s')%nat
  | EmptyString => false
  end.

(** [/(test|fake|spam|dummy)\d*@/i] at the head of [s]. *)
Definition test_email_here (s : string) : bool :=
  existsb (fun w =>
    match Js.after_literal w s with
    | Some rest =>
        match Js.skip_digits rest with
        | String c _ => Js.charCode c =? 64
        | EmptyString => false
        end
    | None => false
    end) spam_words.

(** One of the keywords at the head of [s], followed by the end of the text
    or by a character that is no word character. *)
Definition keyword_here (s : string) : bool :=
  existsb (fun w =>
    match Js.after_literal w s with
    | Some (String c _) => negb (Js.is_word c)
    | Some EmptyString => true
    | None => false
    end) spam_keywords.

(** [/\b(viagra|...|click here)\b/i]: a keyword that starts where no word
    character precedes it ([prev_word] tells whether one does). *)
Fixpoint keyword_scan (prev_word : bool) (s : string) : bool :=
  (negb prev_word && keyword_here s)
  || match s with
     | String c s' => keyword_scan (Js.is_word c) s'
     | EmptyString => false
     end.

(** [detectSpamPatterns(data)]: the four patterns, tried in order on the
    lower-cased text. *)
Definition spam_text (d : RegistrationData) : string :=
  Js.toLowerCase (fullName d ++ " " ++ email d ++ " " ++ homeAddress d).

Definition detectSpamPatterns (d : RegistrationData) : bool :=
  let text := spam_text d in
  Js.somewhere repeated_here text
  || Js.somewhere test_email_here text
  || Js.all_chars Js.is_space text
  || keyword_scan false text.

(** The client address: the first entry of [x-forwarded-for] when the header
    is there and not empty, else [x-real-ip], else ["unknown"]. *)
Definition or_else (o : option string) (dflt : string) : string :=
  match o with
  | Some s => if Js.is_empty s then dflt else s
  | None => dflt
  end.

Definition client_ip (req : Request) : string :=
  match x_forwarded_for req with
  | Some f =>
      if Js.is_empty f then or_else (x_real_ip req) "unknown"
      else hd EmptyString (Js.split "," f)
  | None => or_else (x_real_ip req) "unknown"
  end.

Definition expirationSeconds : Z := 7 * 365 * 24 * 60 * 60.

Section Submit.
Context `{Platform}.

(** [POST(request)]: the response and the store it leaves. *)
Definition POST (req : Request) (env : Env) (st : Store) : Response * Store :=
  let userAgent := or_else (user_agent req) EmptyString in
  let ip := client_ip req in
  let '(rateLimitPassed, st1) :=
    checkRateLimit ip (now_rate env) (up_rate_get env) (up_rate_set env) st in
  if negb rateLimitPassed then (RateLimited, st1)
  else
    match body req with
    | None => (BadJson, st1)
    | Some payload =>
        match parse (now_validate env) payload with
        | inr found => (ValidationFailed found, st1)
        | inl validatedData =>
            if detectSpamPatterns validatedData then (Rejected, st1)
            else
              let submissionId := randomUUID env in
              let submission :=
                {| id := submissionId;
                   createdAt := now_created env;
                   data := validatedData;
                   metadata := {| userAgent := userAgent; ip := ip;
                                  timestamp := now_iso env |} |} in
              (Created submissionId,
               kvSet (up_persist env) (guest_key submissionId)
                 (VSubmission submission) (Some expirationSeconds) st1)
        end
    end.

End Submit.

(** ** Identifier shape, shared by the success page and the renderer *)

(** Exactly [n] hexadecimal digits, then the rest. *)
Fixpoint hex_run (n : nat) (s : string) : option string :=
  match n with
  | O => Some s
  | S n' =>
      match s with
      | String c s' => if Js.is_hex c then hex_run n' s' else None
      | EmptyString => None
      end
  end.

Definition dash (s : string) : option string :=
  match s with
  | String c s' => if Js.charCode c =? 45 then Some s' else None
  | EmptyString => None
  end.

(** [/^[0-9a-f]{8}-[0-9a-f]{4}-[0-9a-f]{4}-[0-9a-f]{4}-[0-9a-f]{12}$/i] *)
Definition isValidUUID (uuid : string) : bool :=
  match (s1 ← hex_run 8 uuid; s2 ← dash s1;
         s3 ← hex_run 4 s2; s4 ← dash s3;
         s5 ← hex_run 4 s4; s6 ← dash s5;
         s7 ← hex_run 4 s6; s8 ← dash s7;
         hex_run 12 s8) with
  | Some rest => Js.is_empty rest
  | None => false
  end.

(** ** The success page ([app/success/[id]/page.tsx]) *)

Inductive PageView :=
  | NotFoundView
  | SuccessView (submission : SubmissionRecord)
  | PageError.

(** [SuccessPage({ params })]: [notFound()] for a malformed identifier and
    for a missing record. A stored value without [data] makes the page throw
    while it reads the record. *)
Definition SuccessPage (ident : string) (up : bool) (st : Store) : PageView :=
  if Js.is_empty ident || negb (isValidUUID ident) then NotFoundView
  else
    match kvGet up (guest_key ident) st with
    | None => NotFoundView
    | Some (VSubmission s) => SuccessView s
    | Some (VRateLimit _ _) | Some VRateLimitNaN => PageError
    end.

(** ** [src/app/api/pdf/route.ts]: the document renderer *)

(** What the handler asks of pdf-lib, in order: a page break, a line of
    text, an image. The document is the title and this list. *)
Inductive DrawOp :=
  | AddPage
  | DrawText (text : string) (x yPos size : Q) (font : Font)
  | DrawImage (x yPos width height : Q).

(** The operations so far and the vertical position [y] of the handler. *)
Record Canvas := {
  ops : list DrawOp;
  y : Q
}.

Inductive PdfResponse :=
  | InvalidId
  | RegistrationNotFound
  | PdfDocument (title : string) (content : list DrawOp)
  | PdfFailed.

Definition pdf_status (r : PdfResponse) : Z :=
  match r with
  | InvalidId => 400
  | RegistrationNotFound => 404
  | PdfDocument _ _ => 200
  | PdfFailed => 500
  end.

(** The store call of a lookup and the clock of the footer. *)
Record RenderEnv := {
  up_read : bool;
  now_render : Z
}.

(** [PageSizes.A4] and the margin. *)
Definition pageWidth : Q := 59528 # 100.
Definition pageHeight : Q := 84189 # 100.
Definition margin : Q := 50%Q.

Definition legalText : string :=
  "This record is maintained in compliance with the Immigration Act 13 of 2002 and the Protection of Personal Information Act (POPIA). Personal information may be disclosed to authorities when lawfully required.".

(** The two consent lines. The check mark U+2713 lies outside the Latin-1
    range and stands here as the three bytes of its UTF-8 form. *)
Definition popia_line : string := "✓ POPIA Consent: Granted".
Definition nonrefund_line : string := "✓ Non-Refund Policy: Acknowledged".

Definition failed_text (label : string) : string :=
  label ++ ": [Image processing failed]".

Definition end_line : string := "--- End of Registration ---".

Section Render.
Context `{Platform}.

(** [Number.prototype.toString]: plain decimal digits for an integer below
    1e21 in magnitude. *)
Definition Number_toString (q : Q) : string :=
  let r := Qred q in
  if (Zpos (Qden r) =? 1) && (Z.abs (Qnum r) <? 10 ^ 21)
  then pretty (Qnum r)
  else number_toString_other q.

(** A text that a font encodes: every character of it is in the encoding. *)
Definition encodes (useFont : Font) (text : string) : bool :=
  Js.all_chars (encodable useFont) text.

(** pdf-lib's [currentPage.drawText(text, { x, y, size, font })] and
    [useFont.widthOfTextAtSize(text, size)]; [None] where they throw. *)
Definition page_drawText (text : string) (x yPos size : Q) (useFont : Font)
    (page : list DrawOp) : option (list DrawOp) :=
  if encodes useFont text
  then Some (page ++ [DrawText text x yPos size useFont])%list
  else None.

Definition measure (useFont : Font) (text : string) (size : Q) : option Q :=
  if encodes useFont text then Some (widthOfTextAtSize useFont text size) else None.

(** One turn of the wrapping loop of [drawText]: the line under
    construction, its vertical position, and the operations so far. *)
Definition wrap_step (useFont : Font) (size maxWidth x : Q)
    (acc : string * Q * list DrawOp) (word : string)
    : option (string * Q * list DrawOp) :=
  let '(line, currentY, out) := acc in
  let testLine := line ++ (if Js.is_empty line then "" else " ") ++ word in
  textWidth ← measure useFont testLine size;
  if Qltb maxWidth textWidth && negb (Js.is_empty line)
  then out' ← page_drawText line x currentY size useFont out;
       Some (word, (currentY - (size + 2))%Q, out')
  else Some (testLine, currentY, out).

Fixpoint wrap_loop (useFont : Font) (size maxWidth x : Q) (ws : list string)
    (acc : string * Q * list DrawOp) : option (string * Q * list DrawOp) :=
  match ws with
  | [] => Some acc
  | word :: rest =>
      acc' ← wrap_step useFont size maxWidth x acc word;
      wrap_loop useFont size maxWidth x rest acc'
  end.

(** [drawText(text, x, yPos, size, useFont, maxWidth)]: the position of the
    last line and the operations; a missing or zero [maxWidth] draws the
    text as it is. *)
Definition drawText (text : string) (x yPos size : Q) (useFont : Font)
    (maxWidth : option Q) (page : list DrawOp) : option (Q * list DrawOp) :=
  let plain := out ← page_drawText text x yPos size useFont page; Some (yPos, out) in
  match maxWidth with
  | None => plain
  | Some mw =>
      if Qeq_bool mw 0 then plain
      else
        '(line, currentY, out) ←
          wrap_loop useFont size mw x (Js.split " " text) (EmptyString, yPos, page);
        if Js.is_empty line then Some (currentY, out)
        else out' ← page_drawText line x currentY size useFont out;
             Some (currentY, out')
  end.

(** [drawText(text, x, y, size, font)] at the current [y], result unused. *)
Definition put (text : string) (x size : Q) (useFont : Font) (cv : Canvas)
    : option Canvas :=
  r ← drawText text x (y cv) size useFont None (ops cv);
  Some {| ops := r.2; y := y cv |}.

(** [y -= dy] *)
Definition down (dy : Q) (cv : Canvas) : Canvas :=
  {| ops := ops cv; y := (y cv - dy)%Q |}.

Definition checkPageSpace (requiredSpace : Q) (cv : Canvas) : Canvas :=
  if Qltb (y cv - requiredSpace)%Q margin
  then {| ops := ops cv ++ [AddPage]; y := (pageHeight - margin)%Q |}
  else cv.

Definition addField (label value : string) (cv : Canvas) : option Canvas :=
  let cv1 := checkPageSpace 30 cv in
  cv2 ← put (label ++ ":") margin 10 HelveticaBold cv1;
  r ← drawText value (margin + 120)%Q (y cv2) 10 Helvetica
        (Some (pageWidth - margin - 120 - margin)%Q) (ops cv2);
  Some (down 16 {| ops := r.2; y := y cv2 |}).

(** How the [try] of [placeImage] ends, and the canvas it leaves: it runs
    to its end or returns early, or it throws. *)
Inductive TryResult :=
  | Completed (cv : Canvas)
  | Thrown (cv : Canvas).

(** The rest of the [try] once the image is embedded. *)
Definition image_embedded (img : positive * positive) (label : string)
    (cv : Canvas) : TryResult :=
  let maxWidth := 200%Q in
  let maxHeight := 150%Q in
  let imgAspect := (inject_Z (Zpos (fst img)) / inject_Z (Zpos (snd img)))%Q in
  let imgHeight0 := (maxWidth / imgAspect)%Q in
  let '(imgWidth, imgHeight) :=
    if Qltb maxHeight imgHeight0 then ((maxHeight * imgAspect)%Q, maxHeight)
    else (maxWidth, imgHeight0) in
  let cv1 := checkPageSpace (imgHeight + 40)%Q cv in
  match put (label ++ ":") margin 10 HelveticaBold cv1 with
  | None => Thrown cv1
  | Some cv2 =>
      let cv3 := down 15 cv2 in
      let cv4 :=
        {| ops := ops cv3 ++ [DrawImage margin (y cv3 - imgHeight)%Q imgWidth imgHeight];
           y := y cv3 |} in
      Completed (down (imgHeight + 20)%Q cv4)
  end.

(** The [try] of [placeImage]: the payload, the decoding, the embedding by
    type (an early return for a type that is neither PNG nor JPEG), then
    the drawing. *)
Definition image_try (dataUrl label : string) (cv : Canvas) : TryResult :=
  match Js.split "," dataUrl !! 1%nat with
  | None => Thrown cv
  | Some base64 =>
      if Js.is_empty base64 then Thrown cv
      else
        match Js.atob base64 with
        | None => Thrown cv
        | Some bytes =>
            if Js.startsWith dataUrl "data:image/png" then
              match embedPng bytes with
              | Some img => image_embedded img label cv
              | None => Thrown cv
              end
            else if Js.startsWith dataUrl "data:image/jpeg"
                    || Js.startsWith dataUrl "data:image/jpg" then
              match embedJpg bytes with
              | Some img => image_embedded img label cv
              | None => Thrown cv
              end
            else Completed cv
        end
  end.

(** The [catch] of [placeImage]; what it throws is not caught there. *)
Definition image_failed (label : string) (cv : Canvas) : option Canvas :=
  down 20 <$> put (failed_text label) margin 10 Helvetica cv.

(** [placeImage(dataUrl, label)] *)
Definition placeImage (dataUrl label : string) (cv : Canvas) : option Canvas :=
  if Js.is_empty dataUrl then Some cv
  else
    match image_try dataUrl label cv with
    | Completed cv' => Some cv'
    | Thrown cv' => image_failed label cv'
    end.

(** [drawText(text, margin, y, size, font); y -= dy] *)
Definition line (text : string) (size : Q) (useFont : Font) (dy : Q) (cv : Canvas)
    : option Canvas :=
  down dy <$> put text margin size useFont cv.

(** The page content of [GET], from the first [addPage] to the footer. *)
Definition header (ident : string) (created : Z) (cv : Canvas) : option Canvas :=
  cv ← line "Guest Registration & Agreement" 16 HelveticaBold 20 cv;
  cv ← line "Republic of South Africa" 12 HelveticaBold 25 cv;
  cv ← line ("Submission ID: " ++ ident) 9 Helvetica 12 cv;
  cv ← line ("Generated: " ++ dayjs_ms_format created "YYYY-MM-DD HH:mm:ss")
         9 Helvetica 12 cv;
  cv ← line "Host: [Your Business Name]" 9 Helvetica 12 cv;
  cv ← line "Address: [Your Business Address]" 9 Helvetica 20 cv;
  r ← drawText legalText margin (y cv) 9 Helvetica
        (Some (pageWidth - 2 * margin)%Q) (ops cv);
  Some (down 25 {| ops := r.2; y := r.1 |}).

Definition guest_information (d : RegistrationData) (cv : Canvas) : option Canvas :=
  cv ← line "GUEST INFORMATION" 12 HelveticaBold 20 cv;
  cv ← addField "Full Name" (fullName d) cv;
  cv ← addField "ID/Passport Number" (idOrPassport d) cv;
  cv ← addField "Nationality" (nationality d) cv;
  cv ← addField "Residence Status" (residenceStatus d) cv;
  cv ← addField "Home Address" (homeAddress d) cv;
  cv ← addField "Phone Number" (phone d) cv;
  addField "Email Address" (email d) cv.

Definition accommodation_details (d : RegistrationData) (cv : Canvas)
    : option Canvas :=
  cv ← line "ACCOMMODATION DETAILS" 12 HelveticaBold 20 (down 10 cv);
  cv ← addField "Check-in" (dayjs_text_format (checkIn d) "YYYY-MM-DD HH:mm") cv;
  cv ← addField "Check-out" (dayjs_text_format (checkOut d) "YYYY-MM-DD HH:mm") cv;
  addField "Number of Guests" (Number_toString (guests d)) cv.

Definition consents (cv : Canvas) : option Canvas :=
  cv ← line "CONSENTS & ACKNOWLEDGMENTS" 12 HelveticaBold 20 (down 15 cv);
  cv ← line popia_line 10 Helvetica 14 cv;
  line nonrefund_line 10 Helvetica 25 cv.

Definition uploaded_documents (d : RegistrationData) (cv : Canvas) : option Canvas :=
  cv ← line "UPLOADED DOCUMENTS" 12 HelveticaBold 25 cv;
  cv ← placeImage (selfie d) "Selfie Photo" cv;
  cv ← placeImage (idImage d) "ID/Passport Document" cv;
  placeImage (signature d) "Digital Signature" cv.

Definition footer (now : Z) (cv : Canvas) : option Canvas :=
  cv ← line end_line 9 Helvetica 15 (down 20 (checkPageSpace 50 cv));
  put ("Document generated on " ++ dayjs_ms_format now "YYYY-MM-DD HH:mm:ss")
    margin 8 Helvetica cv.

Definition first_page : Canvas :=
  {| ops := [AddPage]; y := (pageHeight - margin)%Q |}.

(** The operations of the whole document, [None] where a call throws. *)
Definition render (ident : string) (s : SubmissionRecord) (now : Z)
    : option (list DrawOp) :=
  let d := data s in
  cv ← header ident (createdAt s) first_page;
  cv ← guest_information d cv;
  cv ← accommodation_details d cv;
  cv ← consents cv;
  cv ← uploaded_documents d cv;
  cv ← footer now cv;
  Some (ops cv).

(** [GET(request, { params })]. The identifier is tested against the same
    expression as [isValidUUID]. A stored value without [data] makes the
    handler throw at [d.fullName]; that and what pdf-lib throws end in the
    [catch], which answers the 500. *)
Definition GET (ident : string) (env : RenderEnv) (st : Store) : PdfResponse :=
  if Js.is_empty ident || negb (isValidUUID ident) then InvalidId
  else
    match kvGet (up_read env) (guest_key ident) st with
    | None => RegistrationNotFound
    | Some (VRateLimit _ _) | Some VRateLimitNaN => PdfFailed
    | Some (VSubmission s) =>
        match render ident s (now_render env) with
        | Some content =>
            PdfDocument ("Guest Registration - " ++ fullName (data s)) content
        | None => PdfFailed
        end
    end.

End Render.

(** ** The layout: what the renderer draws when the fonts refuse nothing

    The same steps with the checks of the encoding left out; the renderer
    agrees with them whenever it does not throw. *)

Section Layout.
Context `{Platform}.

Definition lay_wrap_step (useFont : Font) (size maxWidth x : Q)
    (acc : string * Q * list DrawOp) (word : string) : string * Q * list DrawOp :=
  let '(line, currentY, out) := acc in
  let testLine := line ++ (if Js.is_empty line then "" else " ") ++ word in
  let textWidth := widthOfTextAtSize useFont testLine size in
  if Qltb maxWidth textWidth && negb (Js.is_empty line)
  then (word, (currentY - (size + 2))%Q,
        (out ++ [DrawText line x currentY size useFont])%list)
  else (testLine, currentY, out).

Definition lay_text (text : string) (x yPos size : Q) (useFont : Font)
    (maxWidth : option Q) (page : list DrawOp) : Q * list DrawOp :=
  let plain := (yPos, (page ++ [DrawText text x yPos size useFont])%list) in
  match maxWidth with
  | None => plain
  | Some mw =>
      if Qeq_bool mw 0 then plain
      else
        let '(line, currentY, out) :=
          fold_left (lay_wrap_step useFont size mw x) (Js.split " " text)
            (EmptyString, yPos, page) in
        (currentY,
         if Js.is_empty line then out
         else (out ++ [DrawText line x currentY size useFont])%list)
  end.

Definition lay_put (text : string) (x size : Q) (useFont : Font) (cv : Canvas) : Canvas :=
  {| ops := (lay_text text x (y cv) size useFont None (ops cv)).2; y := y cv |}.

Definition lay_line (text : string) (size : Q) (useFont : Font) (dy : Q) (cv : Canvas)
    : Canvas :=
  down dy (lay_put text margin size useFont cv).

Definition lay_field (label value : string) (cv : Canvas) : Canvas :=
  let cv1 := checkPageSpace 30 cv in
  let cv2 := lay_put (label ++ ":") margin 10 HelveticaBold cv1 in
  let r := lay_text value (margin + 120)%Q (y cv2) 10 Helvetica
             (Some (pageWidth - margin - 120 - margin)%Q) (ops cv2) in
  down 16 {| ops := r.2; y := y cv2 |}.

Definition lay_failed (label : string) (cv : Canvas) : Canvas :=
  down 20 (lay_put (failed_text label) margin 10 Helvetica cv).

Definition lay_embedded (img : positive * positive) (label : string)
    (cv : Canvas) : Canvas :=
  let maxWidth := 200%Q in
  let maxHeight := 150%Q in
  let imgAspect := (inject_Z (Zpos (fst img)) / inject_Z (Zpos (snd img)))%Q in
  let imgHeight0 := (maxWidth / imgAspect)%Q in
  let '(imgWidth, imgHeight) :=
    if Qltb maxHeight imgHeight0 then ((maxHeight * imgAspect)%Q, maxHeight)
    else (maxWidth, imgHeight0) in
  let cv1 := checkPageSpace (imgHeight + 40)%Q cv in
  let cv3 := down 15 (lay_put (label ++ ":") margin 10 HelveticaBold cv1) in
  let cv4 :=
    {| ops := ops cv3 ++ [DrawImage margin (y cv3 - imgHeight)%Q imgWidth imgHeight];
       y := y cv3 |} in
  down (imgHeight + 20)%Q cv4.

Definition lay_image (dataUrl label : string) (cv : Canvas) : Canvas :=
  if Js.is_empty dataUrl then cv
  else
    match Js.split "," dataUrl !! 1%nat with
    | None => lay_failed label cv
    | Some base64 =>
        if Js.is_empty base64 then lay_failed label cv
        else
          match Js.atob base64 with
          | None => lay_failed label cv
          | Some bytes =>
              if Js.startsWith dataUrl "data:image/png" then
                match embedPng bytes with
                | Some img => lay_embedded img label cv
                | None => lay_failed label cv
                end
              else if Js.startsWith dataUrl "data:image/jpeg"
                      || Js.startsWith dataUrl "data:image/jpg" then
                match embedJpg bytes with
                | Some img => lay_embedded img label cv
                | None => lay_failed label cv
                end
              else cv
          end
    end.

Definition lay_header (ident : string) (created : Z) (cv : Canvas) : Canvas :=
  let cv := lay_line "Guest Registration & Agreement" 16 HelveticaBold 20 cv in
  let cv := lay_line "Republic of South Africa" 12 HelveticaBold 25 cv in
  let cv := lay_line ("Submission ID: " ++ ident) 9 Helvetica 12 cv in
  let cv := lay_line ("Generated: " ++ dayjs_ms_format created "YYYY-MM-DD HH:mm:ss")
              9 Helvetica 12 cv in
  let cv := lay_line "Host: [Your Business Name]" 9 Helvetica 12 cv in
  let cv := lay_line "Address: [Your Business Address]" 9 Helvetica 20 cv in
  let r := lay_text legalText margin (y cv) 9 Helvetica
             (Some (pageWidth - 2 * margin)%Q) (ops cv) in
  down 25 {| ops := r.2; y := r.1 |}.

Definition lay_guest_information (d : RegistrationData) (cv : Canvas) : Canvas :=
  let cv := lay_line "GUEST INFORMATION" 12 HelveticaBold 20 cv in
  let cv := lay_field "Full Name" (fullName d) cv in
  let cv := lay_field "ID/Passport Number" (idOrPassport d) cv in
  let cv := lay_field "Nationality" (nationality d) cv in
  let cv := lay_field "Residence Status" (residenceStatus d) cv in
  let cv := lay_field "Home Address" (homeAddress d) cv in
  let cv := lay_field "Phone Number" (phone d) cv in
  lay_field "Email Address" (email d) cv.

Definition lay_accommodation_details (d : RegistrationData) (cv : Canvas) : Canvas :=
  let cv := lay_line "ACCOMMODATION DETAILS" 12 HelveticaBold 20 (down 10 cv) in
  let cv := lay_field "Check-in" (dayjs_text_format (checkIn d) "YYYY-MM-DD HH:mm") cv in
  let cv := lay_field "Check-out" (dayjs_text_format (checkOut d) "YYYY-MM-DD HH:mm") cv in
  lay_field "Number of Guests" (Number_toString (guests d)) cv.

Definition lay_consents (cv : Canvas) : Canvas :=
  let cv := lay_line "CONSENTS & ACKNOWLEDGMENTS" 12 HelveticaBold 20 (down 15 cv) in
  let cv := lay_line popia_line 10 Helvetica 14 cv in
  lay_line nonrefund_line 10 Helvetica 25 cv.

Definition lay_uploaded_documents (d : RegistrationData) (cv : Canvas) : Canvas :=
  let cv := lay_line "UPLOADED DOCUMENTS" 12 HelveticaBold 25 cv in
  let cv := lay_image (selfie d) "Selfie Photo" cv in
  let cv := lay_image (idImage d) "ID/Passport Document" cv in
  lay_image (signature d) "Digital Signature" cv.

Definition lay_footer (now : Z) (cv : Canvas) : Canvas :=
  let cv := lay_line end_line 9 Helvetica 15 (down 20 (checkPageSpace 50 cv)) in
  lay_put ("Document generated on " ++ dayjs_ms_format now "YYYY-MM-DD HH:mm:ss")
    margin 8 Helvetica cv.

Definition lay_out (ident : string) (s : SubmissionRecord) (now : Z) : list DrawOp :=
  let d := data s in
  ops (lay_footer now
        (lay_uploaded_documents d
          (lay_consents
            (lay_accommodation_details d
              (lay_guest_information d
                (lay_header ident (createdAt s) first_page)))))).

(** The texts that the renderer hands to pdf-lib, each with its font:
    what must be encodable for the document to be drawn. *)
Definition field_inputs (label value : string) : list (Font * string) :=
  [ (HelveticaBold, label ++ ":"); (Helvetica, value) ].

Definition slot_inputs (label : string) : list (Font * string) :=
  [ (HelveticaBold, label ++ ":"); (Helvetica, failed_text label) ].

Definition text_inputs (ident : string) (created : Z) (d : RegistrationData)
    (now : Z) : list (Font * string) :=
  ([ (HelveticaBold, "Guest Registration & Agreement");
     (HelveticaBold, "Republic of South Africa");
     (Helvetica, ("Submission ID: " ++ ident)%string);
     (Helvetica,
      ("Generated: " ++ dayjs_ms_format created "YYYY-MM-DD HH:mm:ss")%string);
     (Helvetica, "Host: [Your Business Name]");
     (Helvetica, "Address: [Your Business Address]");
     (Helvetica, legalText);
     (HelveticaBold, "GUEST INFORMATION") ]
   ++ field_inputs "Full Name" (fullName d)
   ++ field_inputs "ID/Passport Number" (idOrPassport d)
   ++ field_inputs "Nationality" (nationality d)
   ++ field_inputs "Residence Status" (residenceStatus d)
   ++ field_inputs "Home Address" (homeAddress d)
   ++ field_inputs "Phone Number" (phone d)
   ++ field_inputs "Email Address" (email d)
   ++ [ (HelveticaBold, "ACCOMMODATION DETAILS") ]
   ++ field_inputs "Check-in" (dayjs_text_format (checkIn d) "YYYY-MM-DD HH:mm")
   ++ field_inputs "Check-out" (dayjs_text_format (checkOut d) "YYYY-MM-DD HH:mm")
   ++ field_inputs "Number of Guests" (Number_toString (guests d))
   ++ [ (HelveticaBold, "CONSENTS & ACKNOWLEDGMENTS");
        (Helvetica, popia_line);
        (Helvetica, nonrefund_line);
        (HelveticaBold, "UPLOADED DOCUMENTS") ]
   ++ slot_inputs "Selfie Photo"
   ++ slot_inputs "ID/Passport Document"
   ++ slot_inputs "Digital Signature"
   ++ [ (Helvetica, end_line);
        (Helvetica,
         ("Document generated on "
          ++ dayjs_ms_format now "YYYY-MM-DD HH:mm:ss")%string) ])%list.

(** The fonts have the space and every character of every text they are
    handed for this record. *)
Definition fonts_cover (ident : string) (created : Z) (d : RegistrationData)
    (now : Z) : Prop :=
  encodable Helvetica " " = true
  ∧ Forall (λ ft, encodes ft.1 ft.2 = true) (text_inputs ident created d now).

End Layout.


(** The lines of text of a document, in drawing order. *)
Definition texts (l : list DrawOp) : list string :=
  omap (fun op => match op with DrawText t _ _ _ _ => Some t | _ => None end) l.

(** ** A sample platform and sample inputs

    Stand-ins for the library functions, enough to run the handlers on the
    inputs below: an e-mail test that accepts [local@domain.tld] over the
    usual characters, a Date parser that knows the three ISO timestamps used
    here (with their true epoch milliseconds), a font that has every
    character, half an em wide each, and decoders that read the PNG and JPEG signatures. *)

Module Demo.

Definition email_local (c : ascii) : bool :=
  Js.is_alpha c || Js.is_digit c || (Js.charCode c =? 46)
  || (Js.charCode c =? 95) || (Js.charCode c =? 43) || (Js.charCode c =? 45).

Definition email_domain (c : ascii) : bool :=
  Js.is_alpha c || Js.is_digit c || (Js.charCode c =? 46) || (Js.charCode c =? 45).

Definition sample_email (s : string) : bool :=
  match Js.split "@" s with
  | [l; d] =>
      Js.one_or_more email_local l && Js.one_or_more email_domain d
      && (2 <=? length (Js.split "." d))%nat
  | _ => false
  end.

Definition sample_dates : list (string * Z) :=
  [ ("2030-01-01T00:00:00.000Z", 1893456000000);
    ("2030-01-10T14:00:00.000Z", 1894284000000);
    ("2030-01-12T10:00:00.000Z", 1894442400000) ].

Definition sample_Date_parse (s : string) : option Z :=
  snd <$> find (fun e => String.eqb (fst e) s) sample_dates.

Definition sample_width (f : Font) (s : string) (size : Q) : Q :=
  (inject_Z (Z.of_nat (String.length s)) * size / 2)%Q.

Definition sample_embedPng (bytes : list Z) : option (positive * positive) :=
  match bytes with
  | 137 :: 80 :: 78 :: 71 :: _ => Some (400%positive, 300%positive)
  | _ => None
  end.

Definition sample_embedJpg (bytes : list Z) : option (positive * positive) :=
  match bytes with
  | 255 :: 216 :: _ => Some (300%positive, 400%positive)
  | _ => None
  end.

#[export] Instance platform : Platform := {|
  zod_email := sample_email;
  Date_parse := sample_Date_parse;
  encodable := fun _ _ => true;
  widthOfTextAtSize := sample_width;
  dayjs_ms_format := fun ms _ => pretty ms;
  dayjs_text_format := fun s _ => s;
  embedPng := sample_embedPng;
  embedJpg := sample_embedJpg;
  number_toString_other := fun _ => "NaN"
|}.

Definition png_url : string := "data:image/png;base64,iVBORw0KGgo=".
Definition jpg_url : string := "data:image/jpeg;base64,/9j/4AAQ".

(** A payload that satisfies the schema. *)
Definition fields : gmap string JsValue :=
  list_to_map
    [ ("fullName", JString "Jane Doe");
      ("idOrPassport", JString "A1234567");
      ("nationality", JString "South African");
      ("residenceStatus", JString "Citizen");
      ("homeAddress", JString "12 Long Street, Cape Town");
      ("phone", JString "+27 82 123 4567");
      ("email", JString "Jane.Doe@Example.com");
      ("checkIn", JString "2030-01-10T14:00:00.000Z");
      ("checkOut", JString "2030-01-12T10:00:00.000Z");
      ("guests", JNumber 2);
      ("selfie", JString png_url);
      ("idImage", JString jpg_url);
      ("signature", JString png_url);
      ("popiaConsent", JBool true);
      ("nonRefundAck", JBool true) ].

Definition request : Request :=
  {| user_agent := Some "Mozilla/5.0";
     x_forwarded_for := Some "203.0.113.7, 10.0.0.1";
     x_real_ip := None;
     body := Some (Object fields) |}.

Definition uuid : string := "3f2b8c1e-9d4a-4b6f-8a1c-0e5d7f9a2b34".

(** A request served at 2030-01-01T00:00:00Z with the remote store up. *)
Definition env : Env :=
  {| now_rate := 1893456000000;
     up_rate_get := true;
     up_rate_set := true;
     now_validate := 1893456000000;
     randomUUID := uuid;
     now_created := 1893456000000;
     now_iso := "2030-01-01T00:00:00.000Z";
     up_persist := true |}.

Definition empty_store : Store := {| remote := ∅; memory := ∅ |}.

Definition read_env : RenderEnv := {| up_read := true; now_render := 1893456000000 |}.

(** The same request with one key of the body replaced. *)
Definition request_with (k : string) (v : JsValue) : Request :=
  {| user_agent := user_agent request;
     x_forwarded_for := x_forwarded_for request;
     x_real_ip := x_real_ip request;
     body := Some (Object (<[k := v]> fields)) |}.

(** The same request when the remote store refuses the write of the record. *)
Definition env_down : Env :=
  {| now_rate := now_rate env; up_rate_get := true; up_rate_set := true;
     now_validate := now_validate env; randomUUID := uuid;
     now_created := now_created env; now_iso := now_iso env;
     up_persist := false |}.

(** The same request [ms] milliseconds later. *)
Definition env_after (ms : Z) : Env :=
  {| now_rate := now_rate env + ms; up_rate_get := true; up_rate_set := true;
     now_validate := now_validate env + ms; randomUUID := uuid;
     now_created := now_created env + ms; now_iso := now_iso env;
     up_persist := true |}.

(** Check-out nine days before check-in, every key of the right type. *)
Definition fields_out_before_in : gmap string JsValue :=
  <["checkOut" := JString "2030-01-01T00:00:00.000Z"]> fields.

(** The same, and one consent missing. *)
Definition fields_no_consent : gmap string JsValue :=
  delete "nonRefundAck" fields_out_before_in.

(** The same, and one consent refused. *)
Definition request_refused : Request :=
  {| user_agent := user_agent request;
     x_forwarded_for := x_forwarded_for request;
     x_real_ip := x_real_ip request;
     body := Some (Object (<["popiaConsent" := JBool false]> fields_out_before_in)) |}.

(** An address with eleven letters in a row, and one with eleven line feeds. *)
Definition address_letters : string := "Flat 1 " ++ Js.repeat_char "a" 11.
Definition address_line_feeds : string := "Flat 1" ++ Js.repeat_char "010" 11 ++ "Cape Town".

(** The store after the sample submission. *)
Definition stored : Store := (POST request env empty_store).2.

Definition undecodable_url : string := "data:image/png;base64,@@@@".
Definition gif_url : string := "data:image/gif;base64,R0lGODlh".

End Demo.

(** ** Requests served one after the other *)

Section Serve.
Context `{Platform}.

Fixpoint serve (reqs : list (Request * Env)) (st : Store) : list Response * Store :=
  match reqs with
  | [] => ([], st)
  | (req, env) :: rest =>
      let '(resp, st1) := POST req env st in
      let '(resps, st2) := serve rest st1 in
      (resp :: resps, st2)
  end.

End Serve.



(** * Properties *)

(** ** The store wrapper *)

Lemma rate_key_not_guest_key (a b : string) : rate_key a ≠ guest_key b.
Proof. unfold rate_key, guest_key. simpl. discriminate. Qed.

Lemma kvGet_kvSet_eq up k v e st : kvGet up k (kvSet up k v e st) = Some v.
Proof.
  unfold kvGet, kvSet, kv_get, kv_set. destruct up; simpl.
  - by rewrite lookup_insert_eq.
  - by rewrite lookup_insert_eq.
Qed.

Lemma kvGet_kvSet_ne up up' k k' v e st :
  k ≠ k' → kvGet up k (kvSet up' k' v e st) = kvGet up k st.
Proof.
  intros Hne. unfold kvGet, kvSet, kv_get, kv_set.
  destruct up, up'; simpl; rewrite ?lookup_insert_ne; auto.
Qed.

(** Whatever third argument a caller passes, the entry is written without
    an expiry. *)
Lemma kvSet_remote_entry k v e st :
  remote (kvSet true k v e st) !! k = Some {| entry_value := v; entry_ex := None |}.
Proof. unfold kvSet, kv_set. simpl. by rewrite lookup_insert_eq. Qed.

Lemma kvSet_memory_entry k v e st :
  memory (kvSet false k v e st) !! k = Some v
  ∧ remote (kvSet false k v e st) = remote st.
Proof. unfold kvSet, kv_set. simpl. by rewrite lookup_insert_eq. Qed.

Lemma status_429 (r : Response) : status r = 429 ↔ r = RateLimited.
Proof. destruct r; simpl; split; intros; try discriminate; try reflexivity. Qed.

(** ** The rate limiter *)



Section SubmitFacts.
Context `{Platform}.

(** The response is the rate-limit one exactly when the limiter said no,
    and nothing after the limiter touches the counter. *)
Lemma POST_limited req env st :
  (POST req env st).1 = RateLimited
  ↔ (checkRateLimit (client_ip req) (now_rate env) (up_rate_get env)
       (up_rate_set env) st).1 = false.
Proof.
  unfold POST.
  destruct (checkRateLimit _ _ _ _ st) as [ok st1]. simpl.
  destruct ok; simpl; [|done].
  split; [|done].
  destruct (body req) as [p|]; [|done].
  destruct (parse _ p) as [d|found]; [|done].
  destruct (detectSpamPatterns d); done.
Qed.

Lemma POST_counter req env st up ident :
  kvGet up (rate_key ident) (POST req env st).2
  = kvGet up (rate_key ident)
      (checkRateLimit (client_ip req) (now_rate env) (up_rate_get env)
         (up_rate_set env) st).2.
Proof.
  unfold POST.
  destruct (checkRateLimit _ _ _ _ st) as [ok st1]. simpl.
  destruct ok; simpl; [|done].
  destruct (body req) as [p|]; [|done].
  destruct (parse _ p) as [d|found]; [|done].
  destruct (detectSpamPatterns d); [done|]. simpl.
  apply kvGet_kvSet_ne, rate_key_not_guest_key.
Qed.


End SubmitFacts.

Section RateLimit.
Context `{Platform}.


(** C1. A submission that is answered 201 leaves its record under the guest
    key with no expiry attached: in the remote store the entry carries none,
    and the in-memory map has no notion of one. The 7 years that [POST]
    passes never reach [kv.set]. *)
Theorem POST_persists_without_expiry req env st ident :
  (POST req env st).1 = Created ident →
  if up_persist env
  then ∃ s, remote (POST req env st).2 !! guest_key ident
            = Some {| entry_value := VSubmission s; entry_ex := None |}
  else ∃ s, memory (POST req env st).2 !! guest_key ident = Some (VSubmission s).
Proof.
  unfold POST.
  destruct (checkRateLimit _ _ _ _ st) as [ok st1]. simpl.
  destruct ok; simpl; [|done].
  destruct (body req) as [p|]; [|done].
  destruct (parse _ p) as [d|found]; [|done].
  destruct (detectSpamPatterns d); [done|]. simpl.
  intros [= <-].
  destruct (up_persist env); eexists.
  - apply kvSet_remote_entry.
  - apply kvSet_memory_entry.
Qed.

(** C2, as the code has it. When the write to the remote store fails while
    a validated submission that is no spam is persisted, the wrapper keeps
    the record in its in-memory map and the submission is answered 201 with
    the new identifier. *)
Theorem POST_store_failure_absorbed req env st payload d :
  (checkRateLimit (client_ip req) (now_rate env) (up_rate_get env)
     (up_rate_set env) st).1 = true →
  body req = Some payload →
  parse (now_validate env) payload = inl d →
  detectSpamPatterns d = false →
  up_persist env = false →
  (POST req env st).1 = Created (randomUUID env)
  ∧ status (POST req env st).1 = 201
  ∧ ∃ s, memory (POST req env st).2 !! guest_key (randomUUID env) = Some (VSubmission s)
         ∧ data s = d ∧ id s = randomUUID env.
Proof.
  intros Hok Hbody Hparse Hspam Hdown. unfold POST.
  destruct (checkRateLimit _ _ _ _ st) as [ok st1]. simpl in *. subst ok. simpl.
  rewrite Hbody, Hparse, Hspam, Hdown. simpl.
  split; [done|]. split; [done|].
  eexists. split; [apply lookup_insert_eq|]. done.
Qed.

(** No path of the handler, as modelled, ends in the 500: the two store
    wrappers catch what the remote store throws. *)
Lemma POST_never_500 req env st : status (POST req env st).1 ≠ 500.
Proof.
  unfold POST.
  destruct (checkRateLimit _ _ _ _ st) as [ok st1]. simpl.
  destruct ok; simpl; [|done].
  destruct (body req) as [p|]; [|done].
  destruct (parse _ p) as [d|found]; [|done].
  destruct (detectSpamPatterns d); done.
Qed.

(** C10, as the code has it. An identifier that does not have the canonical
    shape gets the not-found view from the success page, and the 400 of a
    format error from the document endpoint; neither looks the store up. *)
Theorem malformed_identifier_outcomes ident :
  isValidUUID ident = false →
  (∀ up st, SuccessPage ident up st = NotFoundView)
  ∧ (∀ env st, GET ident env st = InvalidId ∧ pdf_status (GET ident env st) = 400).
Proof.
  intros Hbad. split.
  - intros up st. unfold SuccessPage. rewrite Hbad. by rewrite orb_true_r.
  - intros env st. unfold GET. rewrite Hbad, orb_true_r. done.
Qed.

End RateLimit.

(** ** The spam heuristic, stated on the text *)

(** Eleven copies in a row of one character that is no line terminator. *)
Definition long_run (t : string) : Prop :=
  ∃ pre c post, t = pre ++ Js.repeat_char c 11 ++ post ∧ Js.is_line_terminator c = false.

(** One of [test], [fake], [spam], [dummy], then digits if any, then [@]. *)
Definition test_address (t : string) : Prop :=
  ∃ pre w ds post, In w spam_words ∧ Js.all_chars Js.is_digit ds = true
                   ∧ t = pre ++ w ++ ds ++ String "@" post.

(** Nothing but white space: empty once trimmed. *)
Definition blank (t : string) : Prop := Js.all_chars Js.is_space t = true.

(** Whether the last character of [s] is a word character, [b] for the
    empty string; and the same of the first character. *)
Fixpoint ends_word (b : bool) (s : string) : bool :=
  match s with
  | EmptyString => b
  | String c s' => ends_word (Js.is_word c) s'
  end.

Definition starts_word (s : string) : bool :=
  match s with
  | String c _ => Js.is_word c
  | EmptyString => false
  end.

(** One of the seven keywords as a whole word: no word character right
    before it or right after it. *)
Definition whole_keyword (t : string) : Prop :=
  ∃ pre w post, In w spam_keywords ∧ t = pre ++ w ++ post
                ∧ ends_word false pre = false ∧ starts_word post = false.

Definition spam_spec (t : string) : Prop :=
  long_run t ∨ test_address t ∨ blank t ∨ whole_keyword t.

(** A string that [toLowerCase] leaves as it is. *)
Definition is_lowered (s : string) : bool :=
  Js.all_chars (λ c, Ascii.eqb (Js.lower_char c) c) s.

Lemma charCode_inj c d : Js.charCode c = Js.charCode d → c = d.
Proof.
  unfold Js.charCode. intros Heq. apply N2Z.inj in Heq.
  rewrite <- (ascii_N_embedding c), <- (ascii_N_embedding d). by rewrite Heq.
Qed.

Lemma charCode_eqb c d : (Js.charCode c =? Js.charCode d) = true ↔ c = d.
Proof.
  rewrite Z.eqb_eq. split; [apply charCode_inj | by intros ->].
Qed.

Lemma lower_char_idem c : Js.lower_char (Js.lower_char c) = Js.lower_char c.
Proof. destruct c as [[] [] [] [] [] [] [] []]; reflexivity. Qed.

Lemma all_chars_app p a b :
  Js.all_chars p (a ++ b) = Js.all_chars p a && Js.all_chars p b.
Proof. induction a as [|c a IH]; simpl; [done|]. by rewrite IH, andb_assoc. Qed.

Lemma is_lowered_toLowerCase s : is_lowered (Js.toLowerCase s) = true.
Proof.
  unfold is_lowered. induction s as [|c s IH]; simpl; [done|].
  rewrite lower_char_idem, Ascii.eqb_refl. done.
Qed.

Lemma is_lowered_suffix pre suf : is_lowered (pre ++ suf) = true → is_lowered suf = true.
Proof. unfold is_lowered. rewrite all_chars_app, andb_true_iff. tauto. Qed.

Lemma somewhere_spec p t :
  Js.somewhere p t = true ↔ ∃ pre suf, t = pre ++ suf ∧ p suf = true.
Proof.
  induction t as [|c t IH]; simpl.
  - rewrite orb_false_r. split.
    + intros Hp. by exists EmptyString, EmptyString.
    + intros (pre & suf & Heq & Hp).
      destruct pre; simpl in Heq; [by subst | discriminate].
  - rewrite orb_true_iff, IH. split.
    + intros [Hp | (pre & suf & -> & Hp)].
      * by exists EmptyString, (String c t).
      * by exists (String c pre), suf.
    + intros (pre & suf & Heq & Hp). destruct pre as [|c' pre]; simpl in Heq.
      * left. by subst.
      * right. injection Heq as -> ->. eauto.
Qed.

Lemma run_length_spec c n : ∀ s,
  (n ≤ Js.run_length c s)%nat ↔ ∃ post, s = Js.repeat_char c n ++ post.
Proof.
  induction n as [|n IH]; intros s.
  - split; [intros _; by exists s | intros _; lia].
  - destruct s as [|d s]; simpl.
    + split; [lia | intros [post Hp]; discriminate].
    + destruct (Ascii.eqb c d) eqn:E.
      * apply Ascii.eqb_eq in E as <-. rewrite <- Nat.succ_le_mono, IH.
        split; intros [post Hp]; exists post; [by rewrite Hp | by injection Hp].
      * split; [lia|]. intros [post Hp]. injection Hp as <- _.
        by rewrite Ascii.eqb_refl in E.
Qed.

Lemma repeated_here_spec s :
  repeated_here s = true
  ↔ ∃ c post, s = Js.repeat_char c 11 ++ post ∧ Js.is_line_terminator c = false.
Proof.
  destruct s as [|c s].
  - split; [done | intros (c & post & Heq & _); discriminate].
  - unfold repeated_here.
    rewrite andb_true_iff, negb_true_iff, Nat.leb_le, run_length_spec. split.
    + intros [Hlt [post ->]]. by exists c, post.
    + intros (c' & post & Heq & Hlt).
      change (Js.repeat_char c' 11 ++ post)
        with (String c' (Js.repeat_char c' 10 ++ post)) in Heq.
      injection Heq as -> ->. eauto.
Qed.

Lemma skip_digits_spec rest :
  match Js.skip_digits rest with
  | String c _ => Js.charCode c =? 64
  | EmptyString => false
  end = true
  ↔ ∃ ds post, Js.all_chars Js.is_digit ds = true ∧ rest = ds ++ String "@" post.
Proof.
  induction rest as [|c r IH]; simpl.
  - split; [done|]. intros (ds & post & _ & Heq). destruct ds; discriminate.
  - destruct (Js.is_digit c) eqn:Hd.
    + rewrite IH. split.
      * intros (ds & post & Hds & ->). exists (String c ds), post. simpl.
        by rewrite Hd, Hds.
      * intros (ds & post & Hds & Heq). destruct ds as [|c' ds]; simpl in *.
        -- injection Heq as -> _. vm_compute in Hd. discriminate.
        -- injection Heq as <- ->. apply andb_true_iff in Hds as [_ Hds]. eauto.
    + split.
      * intros Hc. apply (charCode_eqb c "@"%char) in Hc as ->.
        by exists EmptyString, r.
      * intros (ds & post & Hds & Heq). destruct ds as [|c' ds]; simpl in *.
        -- by injection Heq as -> _.
        -- injection Heq as <- _. rewrite Hd in Hds. done.
Qed.

Lemma after_literal_spec w : ∀ s rest,
  is_lowered w = true → is_lowered s = true →
  (Js.after_literal w s = Some rest ↔ s = w ++ rest).
Proof.
  unfold is_lowered. induction w as [|a w IH]; intros s rest Hw Hs; simpl.
  - split; [by intros [= ->] | by intros ->].
  - simpl in Hw. apply andb_true_iff in Hw as [Ha Hw]. apply Ascii.eqb_eq in Ha.
    destruct s as [|b s]; [split; discriminate|].
    simpl in Hs. apply andb_true_iff in Hs as [Hb Hs]. apply Ascii.eqb_eq in Hb.
    rewrite Ha, Hb. destruct (Ascii.eqb a b) eqn:E.
    + apply Ascii.eqb_eq in E as <-. rewrite (IH s rest Hw Hs).
      split; [by intros -> | by intros [= ->]].
    + split; [discriminate|]. intros [= -> _]. by rewrite Ascii.eqb_refl in E.
Qed.

Lemma spam_lists_lowered w :
  In w spam_words ∨ In w spam_keywords → is_lowered w = true.
Proof.
  intros Hin.
  assert (forallb is_lowered (spam_words ++ spam_keywords)%list = true) as Hall
    by reflexivity.
  rewrite forallb_forall in Hall. apply Hall, in_or_app, Hin.
Qed.

Lemma test_email_here_spec s :
  is_lowered s = true →
  (test_email_here s = true
   ↔ ∃ w ds post, In w spam_words ∧ Js.all_chars Js.is_digit ds = true
                  ∧ s = w ++ ds ++ String "@" post).
Proof.
  intros Hs. unfold test_email_here. rewrite existsb_exists. split.
  - intros (w & Hin & Hm).
    destruct (Js.after_literal w s) as [rest|] eqn:Ha; [|done].
    apply after_literal_spec in Ha; [|apply spam_lists_lowered; auto|done].
    apply skip_digits_spec in Hm as (ds & post & Hds & ->). by exists w, ds, post.
  - intros (w & ds & post & Hin & Hds & Heq). exists w. split; [done|].
    apply after_literal_spec in Heq; [|apply spam_lists_lowered; auto|done].
    rewrite Heq. apply skip_digits_spec. eauto.
Qed.

Lemma keyword_here_spec s :
  is_lowered s = true →
  (keyword_here s = true
   ↔ ∃ w post, In w spam_keywords ∧ s = w ++ post ∧ starts_word post = false).
Proof.
  intros Hs. unfold keyword_here. rewrite existsb_exists. split.
  - intros (w & Hin & Hm).
    destruct (Js.after_literal w s) as [rest|] eqn:Ha; [|done].
    apply after_literal_spec in Ha; [|apply spam_lists_lowered; auto|done].
    exists w, rest. split; [done|]. split; [done|].
    destruct rest; simpl; [done|]. by apply negb_true_iff.
  - intros (w & post & Hin & Heq & Hpost). exists w. split; [done|].
    apply after_literal_spec in Heq; [|apply spam_lists_lowered; auto|done].
    rewrite Heq. destruct post; simpl in *; [done|]. by rewrite Hpost.
Qed.

Lemma keyword_scan_spec t : ∀ b,
  is_lowered t = true →
  (keyword_scan b t = true
   ↔ ∃ pre suf, t = pre ++ suf ∧ keyword_here suf = true ∧ ends_word b pre = false).
Proof.
  induction t as [|c t IH]; intros b Ht.
  - simpl. rewrite orb_false_r, andb_true_iff, negb_true_iff. split.
    + intros [Hb Hk]. by exists EmptyString, EmptyString.
    + intros (pre & suf & Heq & Hk & Hb).
      destruct pre; simpl in *; [by subst | discriminate].
  - assert (is_lowered t = true) as Ht'.
    { unfold is_lowered in *. simpl in Ht. by apply andb_true_iff in Ht as [_ ?]. }
    cbn [keyword_scan]. rewrite orb_true_iff, andb_true_iff, negb_true_iff, (IH _ Ht').
    split.
    + intros [[Hb Hk] | (pre & suf & -> & Hk & He)].
      * by exists EmptyString, (String c t).
      * by exists (String c pre), suf.
    + intros (pre & suf & Heq & Hk & He). destruct pre as [|c' pre]; simpl in *.
      * left. by subst.
      * right. injection Heq as -> ->. eauto.
Qed.

(** The four patterns of [detectSpamPatterns] find what [spam_spec] says. *)
Lemma detectSpamPatterns_spec d :
  detectSpamPatterns d = true ↔ spam_spec (spam_text d).
Proof.
  unfold detectSpamPatterns, spam_spec.
  pose proof (is_lowered_toLowerCase
                (fullName d ++ " " ++ email d ++ " " ++ homeAddress d)) as Hl.
  fold (spam_text d) in Hl. set (t := spam_text d) in *.
  rewrite !orb_true_iff.
  assert (Js.somewhere repeated_here t = true ↔ long_run t) as ->.
  { rewrite somewhere_spec. unfold long_run. split.
    - intros (pre & suf & -> & Hr). apply repeated_here_spec in Hr as (c & post & -> & Hc).
      by exists pre, c, post.
    - intros (pre & c & post & -> & Hc). exists pre, (Js.repeat_char c 11 ++ post).
      split; [done|]. apply repeated_here_spec. eauto. }
  assert (Js.somewhere test_email_here t = true ↔ test_address t) as ->.
  { rewrite somewhere_spec. unfold test_address. split.
    - intros (pre & suf & Heq & Hr). rewrite Heq in Hl.
      apply test_email_here_spec in Hr as (w & ds & post & Hin & Hds & ->);
        [|by eapply is_lowered_suffix].
      by exists pre, w, ds, post.
    - intros (pre & w & ds & post & Hin & Hds & Heq).
      exists pre, (w ++ ds ++ String "@" post). split; [done|].
      rewrite Heq in Hl. apply test_email_here_spec; [by eapply is_lowered_suffix|].
      by exists w, ds, post. }
  assert (keyword_scan false t = true ↔ whole_keyword t) as ->.
  { rewrite (keyword_scan_spec t false Hl). unfold whole_keyword. split.
    - intros (pre & suf & Heq & Hk & He). rewrite Heq in Hl.
      apply keyword_here_spec in Hk as (w & post & Hin & -> & Hp);
        [|by eapply is_lowered_suffix].
      by exists pre, w, post.
    - intros (pre & w & post & Hin & Heq & He & Hp).
      exists pre, (w ++ post). split; [done|]. split; [|done].
      rewrite Heq in Hl. apply keyword_here_spec; [by eapply is_lowered_suffix|].
      by exists w, post. }
  unfold blank. tauto.
Qed.

Section SpamClaim.
Context `{Platform}.

(** C8, as the code has it. A payload that passed the rate limiter and the
    schema is answered with the bare rejection (400, no detail) exactly when
    the lower-cased text [name email address] has eleven copies in a row of a
    character that is no line terminator, or a test address, or nothing but
    white space, or one of the keywords as a whole word. *)
Theorem spam_rejection req env st payload d :
  (checkRateLimit (client_ip req) (now_rate env) (up_rate_get env)
     (up_rate_set env) st).1 = true →
  body req = Some payload →
  parse (now_validate env) payload = inl d →
  ((POST req env st).1 = Rejected ↔ spam_spec (spam_text d))
  ∧ ((POST req env st).1 = Rejected → status (POST req env st).1 = 400).
Proof.
  intros Hok Hbody Hparse. rewrite <- detectSpamPatterns_spec. unfold POST.
  destruct (checkRateLimit _ _ _ _ st) as [ok st1]. simpl in *. subst ok. simpl.
  rewrite Hbody, Hparse. destruct (detectSpamPatterns d); simpl.
  - split; [done|done].
  - split; [split; discriminate | discriminate].
Qed.

End SpamClaim.

(** ** The decoder never yields more than three bytes for four characters *)

Lemma decode_sextets_length : ∀ (n : nat) (l : list Z),
  (length l ≤ n)%nat → (4 * length (Js.decode_sextets l) ≤ 3 * length l)%nat.
Proof.
  induction n as [|n IH]; intros l Hl.
  - destruct l; simpl in *; lia.
  - destruct l as [|a [|b [|c [|d rest]]]]; cbn [Js.decode_sextets length] in *; try lia.
    specialize (IH rest). lia.
Qed.

Lemma sextets_length l vs : Js.sextets l = Some vs → length vs = length l.
Proof.
  revert vs. induction l as [|c l IH]; intros vs; simpl.
  - by intros [= <-].
  - destruct (Js.b64_value c); [|done]. destruct (Js.sextets l) as [vs'|]; [|done].
    intros [= <-]. simpl. by rewrite (IH vs').
Qed.

Lemma strip_padding_length l : (length (Js.strip_padding l) ≤ length l)%nat.
Proof.
  unfold Js.strip_padding. destruct (length l mod 4 =? 0)%nat; [|done].
  rewrite length_rev. rewrite <- (length_rev l).
  unfold Js.drop_padding_rev. destruct (rev l) as [|a [|b r]]; simpl; [lia| |].
  - destruct (Js.is_pad a); simpl; lia.
  - destruct (Js.is_pad a); [destruct (Js.is_pad b)|]; simpl; lia.
Qed.

Lemma strip_b64_space_length s : (length (Js.strip_b64_space s) ≤ String.length s)%nat.
Proof.
  induction s as [|c s IH]; simpl; [done|].
  destruct (Js.is_b64_space c); simpl; lia.
Qed.

Lemma atob_length s bytes :
  Js.atob s = Some bytes → (4 * length bytes ≤ 3 * String.length s)%nat.
Proof.
  unfold Js.atob.
  destruct (length (Js.strip_padding (Js.strip_b64_space s)) mod 4 =? 1)%nat; [done|].
  destruct (Js.sextets _) as [vs|] eqn:Hs; [|done]. simpl. intros [= <-].
  pose proof (decode_sextets_length (length vs) vs (le_n _)).
  pose proof (sextets_length _ _ Hs).
  pose proof (strip_padding_length (Js.strip_b64_space s)).
  pose proof (strip_b64_space_length s). lia.
Qed.

(** ** Validation: what each parser reports reaches the caller *)

Section ValidationFacts.
Context `{Platform}.

Lemma refine_issues_incl {A : Type} f (pred : A → bool) msg (p : Parsed A) i :
  In i (issues p) → In i (issues (refine f pred msg p)).
Proof.
  unfold refine. destruct (value p) as [a|]; [|done].
  destruct (pred a); [done|]. simpl. rewrite in_app_iff. auto.
Qed.

Lemma refine_value {A : Type} f (pred : A → bool) msg (p : Parsed A) :
  value (refine f pred msg p) = value p.
Proof.
  unfold refine. destruct (value p) as [a|] eqn:E; [|done]. by destruct (pred a).
Qed.

(** A refinement that fails on a parse that did not abort is reported. *)
Lemma refine_reports {A : Type} f (pred : A → bool) msg (p : Parsed A) a :
  value p = Some a → pred a = false →
  In {| field := f; message := msg |} (issues (refine f pred msg p)).
Proof.
  intros Hv Hp. unfold refine. rewrite Hv, Hp. simpl. rewrite in_app_iff. simpl. auto.
Qed.

(** The issues of the schema on an object: those of the fifteen keys. *)
Lemma schema_keeps_object_issues now o i :
  In i (issues (z_object now o)) → In i (issues (RegistrationSchema now (Object o))).
Proof. intros Hi. simpl. by do 2 apply refine_issues_incl. Qed.

(** [parse] throws exactly the issues of the schema, when there are any. *)
Lemma parse_throws now b i :
  In i (issues (RegistrationSchema now b)) →
  parse now b = inr (issues (RegistrationSchema now b)).
Proof.
  unfold parse. destruct (issues (RegistrationSchema now b)) as [|j l]; [done|].
  by destruct (value _).
Qed.

Lemma parse_inr now b found :
  parse now b = inr found → found = issues (RegistrationSchema now b).
Proof.
  unfold parse. destruct (value _); destruct (issues _); congruence.
Qed.

Lemma parse_inl now b d :
  parse now b = inl d →
  value (RegistrationSchema now b) = Some d ∧ issues (RegistrationSchema now b) = [].
Proof.
  unfold parse. destruct (value _); destruct (issues _); try congruence.
  by intros [= ->].
Qed.

Lemma parse_rejects now b : issues (RegistrationSchema now b) ≠ [] →
  ∃ found, parse now b = inr found ∧ found = issues (RegistrationSchema now b).
Proof.
  intros Hne. destruct (issues (RegistrationSchema now b)) as [|j l] eqn:E; [done|].
  exists (j :: l). split; [|done]. rewrite <- E. apply (parse_throws now b j).
  rewrite E. by left.
Qed.

(** The parser of an image field, by its name, ceiling and messages. *)
Definition image_field (f : string) (m : Z) (m1 m2 : string) (v : option JsValue)
    : Parsed string :=
  refine f (image_ok m) m2 (z_string f [min_len 10 m1] v).

(** What the validation accepts in an image field. *)
Definition image_accepted (m : Z) (v : option JsValue) : Prop :=
  ∃ s b64, v = Some (JString s)
    ∧ (10 ≤ String.length s)%nat
    ∧ Js.startsWith s "data:image/" = true
    ∧ Js.split "," s !! 1%nat = Some b64
    ∧ b64 ≠ EmptyString
    ∧ 3 * Z.of_nat (String.length b64) ≤ 4 * m.

Lemma image_ok_spec m s :
  image_ok m s = true
  ↔ Js.startsWith s "data:image/" = true
    ∧ ∃ b64, Js.split "," s !! 1%nat = Some b64 ∧ b64 ≠ EmptyString
             ∧ 3 * Z.of_nat (String.length b64) ≤ 4 * m.
Proof.
  unfold image_ok. destruct (Js.startsWith s "data:image/"); simpl.
  - destruct (Js.split "," s !! 1%nat) as [b|].
    + destruct b as [|c b]; simpl.
      * split; [done|]. intros [_ (b64 & [= <-] & Hne & _)]. done.
      * rewrite Z.leb_le. split.
        -- intros Hle. split; [done|]. exists (String c b). split; [done|].
           split; [done|]. simpl in *. lia.
        -- intros [_ (b64 & [= <-] & _ & Hle)]. simpl in *. lia.
    + split; [done|]. by intros [_ (b64 & ? & _)].
  - split; [done|]. by intros [? _].
Qed.

Lemma image_field_spec f m m1 m2 v :
  (issues (image_field f m m1 m2 v) = [] ↔ image_accepted m v)
  ∧ (∀ i, In i (issues (image_field f m m1 m2 v)) → field i = f)
  ∧ (v = None → issues (image_field f m m1 m2 v)
                = [ {| field := f; message := "Required" |} ]).
Proof.
  unfold image_field, image_accepted, refine, z_string.
  destruct v as [[| | |s| |]|]; simpl;
    try (split; [split; [done | by intros (s0 & b0 & ? & _)] |
                 split; [by intros i [<-|[]] | done]]).
  destruct (String.length s <? 10)%nat eqn:Hlen; simpl.
  - apply Nat.ltb_lt in Hlen. split; [|split; [|done]].
    + split.
      * destruct (image_ok m s); simpl; done.
      * intros (s' & b & [= <-] & Hl & _). lia.
    + destruct (image_ok m s); simpl; intros i; [intros [<-|[]] | intros [<-|[<-|[]]]]; done.
  - apply Nat.ltb_ge in Hlen. destruct (image_ok m s) eqn:Hok; simpl.
    + split; [|split; [by intros i []|done]]. split; [|done]. intros _.
      apply image_ok_spec in Hok as [Hp (b & Hb & Hne & Hle)].
      by exists s, b.
    + split; [|split; [by intros i [<-|[]]|done]]. split; [done|].
      intros (s' & b & [= <-] & _ & Hp & Hb & Hne & Hle).
      assert (image_ok m s = true) as Hok' by (apply image_ok_spec; eauto).
      congruence.
Qed.

(** The three image fields of the schema: parser, key, ceiling in bytes. *)
Definition document_fields : list ((gmap string JsValue → Parsed string) * string * Z) :=
  [ (p_selfie, "selfie", 5 * MB);
    (p_idImage, "idImage", 5 * MB);
    (p_signature, "signature", 1 * MB) ].

Lemma document_fields_image_field p f m :
  In (p, f, m) document_fields →
  ∃ m1 m2, (∀ o, p o = image_field f m m1 m2 (o !! f))
           ∧ (∀ now o i, In i (issues (p o)) → In i (issues (z_object now o))).
Proof.
  intros [[= <- <- <-]|[[= <- <- <-]|[[= <- <- <-]|[]]]]; do 2 eexists;
    (split; [intros o; reflexivity|]);
    intros now o i Hi; unfold z_object; simpl; rewrite !in_app_iff; tauto.
Qed.

(** C6, as the code has it. Each image field is accepted exactly when it is
    a string of at least 10 characters that begins with [data:image/], has
    a piece after its first comma that is not empty, and the size estimated
    from that piece (three quarters of its length) is within the ceiling of
    the field; whether the piece decodes is not looked at, but whatever it
    decodes to is within the ceiling. Every issue of the field names the
    field, an absent field is one of them, and the issues reach the caller. *)
Theorem document_field_validation p f m o :
  In (p, f, m) document_fields →
  (issues (p o) = [] ↔ image_accepted m (o !! f))
  ∧ (issues (p o) = [] →
     ∀ s b64 bytes, o !! f = Some (JString s) → Js.split "," s !! 1%nat = Some b64 →
       Js.atob b64 = Some bytes → Z.of_nat (length bytes) ≤ m)
  ∧ (∀ i, In i (issues (p o)) → field i = f)
  ∧ (o !! f = None → issues (p o) = [ {| field := f; message := "Required" |} ])
  ∧ (∀ now i, In i (issues (p o)) →
       ∃ found, parse now (Object o) = inr found ∧ In i found).
Proof.
  intros Hin. destruct (document_fields_image_field p f m Hin) as (m1 & m2 & Hp & Hobj).
  rewrite Hp. destruct (image_field_spec f m m1 m2 (o !! f)) as (Hacc & Hfield & Habs).
  split; [done|]. split; [|split; [done|split; [done|]]].
  - intros Hnone s b64 bytes Hs Hb Hbytes. apply Hacc in Hnone.
    destruct Hnone as (s' & b' & Hs' & _ & _ & Hb' & _ & Hle).
    rewrite Hs in Hs'. injection Hs' as <-. rewrite Hb in Hb'. injection Hb' as <-.
    apply atob_length in Hbytes. lia.
  - intros now i Hi. rewrite <- Hp in Hi. apply (Hobj now) in Hi.
    apply schema_keeps_object_issues in Hi.
    exists (issues (RegistrationSchema now (Object o))). split; [|done].
    by apply (parse_throws now (Object o) i).
Qed.

End ValidationFacts.

(** ** Validation: aborted keys and the cross-field rules *)

(** No key of the object aborted: every string key holds a string, [guests]
    a number, and both consents are [true]. *)
Definition no_field_aborts `{Platform} (now : Z) (o : gmap string JsValue) : Prop :=
  is_Some (value (z_object now o)).

Section CrossField.
Context `{Platform}.

(** A parse that aborts says why. *)
Definition says_why {A : Type} (p : Parsed A) : Prop :=
  value p = None → ∃ i, In i (issues p).

Lemma z_string_says_why f cks v : says_why (z_string f cks v).
Proof.
  unfold says_why, z_string.
  destruct v as [[| | |s| |]|]; simpl; try (intros _; eexists; by left).
  by destruct (run_checks f cks s).
Qed.

Lemma refine_says_why {A : Type} f (pred : A → bool) msg (p : Parsed A) :
  says_why p → says_why (refine f pred msg p).
Proof.
  unfold says_why. rewrite refine_value. intros Hp Hv.
  destruct (Hp Hv) as [i Hi]. exists i. by apply refine_issues_incl.
Qed.

Lemma z_number_says_why f m1 lo m2 hi m3 v :
  says_why (z_number_int_range f m1 lo m2 hi m3 v).
Proof.
  unfold says_why, z_number_int_range.
  destruct v as [[| |q| | |]|]; simpl; try (intros _; eexists; by left). done.
Qed.

Lemma z_literal_says_why f msg v : says_why (z_literal_true f msg v).
Proof.
  unfold says_why, z_literal_true.
  destruct v as [[|[]| | | |]|]; simpl; try (intros _; eexists; by left). done.
Qed.

Lemma z_object_says_why now o : says_why (z_object now o).
Proof.
  unfold says_why, z_object. simpl.
  intros Hv.
  repeat match type of Hv with
  | context [value ?p ≫= _] =>
      let E := fresh "E" in
      destruct (value p) eqn:E;
      [ simpl in Hv
      | assert (says_why p) as Hp
          by (repeat first [ apply refine_says_why | apply z_string_says_why
                           | apply z_number_says_why | apply z_literal_says_why ]);
        destruct (Hp E) as [i Hi]; exists i; rewrite !in_app_iff; tauto ]
  end.
  discriminate.
Qed.

(** A value of the schema that is not valid has at least one issue. *)
Lemma schema_says_why now b : says_why (RegistrationSchema now b).
Proof.
  destruct b as [v|o].
  - destruct v; try (intros _; eexists; by left);
      simpl; do 2 apply refine_says_why; apply z_object_says_why.
  - simpl. do 2 apply refine_says_why. apply z_object_says_why.
Qed.

Lemma parse_inr_nonempty now b found : parse now b = inr found → found ≠ [].
Proof.
  intros Hp. pose proof (parse_inr _ _ _ Hp) as ->. unfold parse in Hp.
  destruct (value (RegistrationSchema now b)) as [d|] eqn:Hv.
  - destruct (issues (RegistrationSchema now b)); [discriminate | done].
  - destruct (schema_says_why now b Hv) as [i Hi]. intros Hnil.
    rewrite Hnil in Hi. destruct Hi.
Qed.

(** The value of an object that did not abort, key by key. *)
Lemma z_object_value now o d :
  value (z_object now o) = Some d →
  value (p_fullName o) = Some (fullName d)
  ∧ value (p_email o) = Some (email d)
  ∧ value (p_homeAddress o) = Some (homeAddress d)
  ∧ value (p_checkIn now o) = Some (checkIn d)
  ∧ value (p_checkOut o) = Some (checkOut d)
  ∧ value (p_selfie o) = Some (selfie d)
  ∧ value (p_idImage o) = Some (idImage d)
  ∧ value (p_signature o) = Some (signature d).
Proof.
  unfold z_object. simpl. intros Hv.
  repeat match type of Hv with
  | context [value ?p ≫= _] =>
      let E := fresh "E" in destruct (value p) eqn:E; [simpl in Hv | discriminate]
  end.
  injection Hv as <-. simpl. done.
Qed.

Lemma run_checks_same f cks : ∀ s,
  (∀ ck, In ck cks → ck ≠ toLowerCase_check) → (run_checks f cks s).2 = s.
Proof.
  induction cks as [|ck cks IH]; intros s Hno; simpl; [done|].
  assert ((run_check ck s).2 = s) as Hck.
  { destruct ck; simpl; try done. exfalso. by apply (Hno toLowerCase_check); [left|]. }
  destruct (run_check ck s) as [bad s1]. simpl in Hck. subst s1.
  specialize (IH s (λ ck' Hin, Hno ck' (or_intror Hin))).
  destruct (run_checks f cks s) as [more s2]. simpl in *. done.
Qed.

(** A string key without [toLowerCase] keeps the string it was given. *)
Lemma string_key_value f cks s :
  (∀ ck, In ck cks → ck ≠ toLowerCase_check) →
  value (z_string f cks (Some (JString s))) = Some s.
Proof.
  intros Hno. unfold z_string. pose proof (run_checks_same f cks s Hno) as Hs.
  destruct (run_checks f cks s) as [found s']. simpl in *. congruence.
Qed.

Lemma ceil_div_le a b n : 0 < b → (ceil_div a b ≤ n ↔ a ≤ n * b).
Proof.
  intros Hb. unfold ceil_div.
  pose proof (Z.div_mod (- a) b ltac:(lia)).
  pose proof (Z.mod_pos_bound (- a) b Hb). split; intros; nia.
Qed.

(** C5, as the code has it. For an object whose two dates are strings that
    parse: a check-in that is not after the clock is rejected with the issue
    on [checkIn]; a check-out that is not after the check-in, and a stay of
    more than 365 days, are rejected, with the issue on [checkOut] whenever no
    key of the object aborted (an aborted key keeps zod from running the
    cross-field rules). *)
Theorem stay_dates_validation now o ci co i t :
  o !! "checkIn" = Some (JString ci) →
  o !! "checkOut" = Some (JString co) →
  Date_parse ci = Some i →
  Date_parse co = Some t →
  (i ≤ now →
     ∃ found, parse now (Object o) = inr found
       ∧ In {| field := "checkIn"; message := msg_future |} found)
  ∧ (t ≤ i →
     ∃ found, parse now (Object o) = inr found
       ∧ (no_field_aborts now o →
          In {| field := "checkOut"; message := msg_after |} found))
  ∧ (365 * msPerDay < t - i →
     ∃ found, parse now (Object o) = inr found
       ∧ (no_field_aborts now o →
          In {| field := "checkOut"; message := msg_year |} found)).
Proof.
  intros Hci Hco Hi Ht.
  assert (∀ d, value (z_object now o) = Some d → checkIn d = ci ∧ checkOut d = co)
    as Hdates.
  { intros d Hd. apply z_object_value in Hd as (_ & _ & _ & Hin & Hout & _).
    unfold p_checkIn in Hin. rewrite refine_value, Hci in Hin.
    unfold p_checkOut in Hout. rewrite Hco in Hout.
    rewrite string_key_value in Hin by (by intros ck [<-|[]]).
    rewrite string_key_value in Hout by (by intros ck [<-|[]]).
    split; congruence. }
  assert (∀ msg (pred : RegistrationData → bool),
            (∀ d, checkIn d = ci → checkOut d = co → pred d = false) →
            (∀ d, value (z_object now o) = Some d →
               In {| field := "checkOut"; message := msg |}
                  (issues (RegistrationSchema now (Object o)))) →
            ∃ found, parse now (Object o) = inr found
              ∧ (no_field_aborts now o →
                 In {| field := "checkOut"; message := msg |} found)) as Hcross.
  { intros msg pred Hpred Hrep.
    destruct (value (z_object now o)) as [d|] eqn:Hd.
    - specialize (Hrep d eq_refl). eexists. split; [by eapply parse_throws|done].
    - destruct (z_object_says_why now o Hd) as [j Hj].
      apply schema_keeps_object_issues in Hj.
      eexists. split; [by eapply parse_throws|].
      unfold no_field_aborts. rewrite Hd. by intros [? ?]. }
  split; [|split].
  - intros Hle.
    assert (In {| field := "checkIn"; message := msg_future |} (issues (p_checkIn now o)))
      as Hin.
    { unfold p_checkIn. rewrite Hci.
      eapply refine_reports.
      - apply string_key_value. by intros ck [<-|[]].
      - unfold checkIn_in_future. rewrite Hi. apply Z.ltb_ge. lia. }
    assert (In {| field := "checkIn"; message := msg_future |} (issues (z_object now o)))
      as Hobj.
    { unfold z_object. simpl. rewrite !in_app_iff. tauto. }
    apply schema_keeps_object_issues in Hobj.
    eexists. split; [by eapply parse_throws|done].
  - intros Hle. apply (Hcross msg_after checkOut_after_checkIn).
    + intros d Hdi Hdo. unfold checkOut_after_checkIn. rewrite Hdi, Hdo, Hi, Ht.
      apply Z.ltb_ge. lia.
    + intros d Hd. destruct (Hdates d Hd) as [Hdi Hdo]. simpl.
      apply refine_issues_incl. eapply refine_reports; [done|].
      unfold checkOut_after_checkIn. rewrite Hdi, Hdo, Hi, Ht. apply Z.ltb_ge. lia.
  - intros Hlong.
    assert (∀ d, checkIn d = ci → checkOut d = co → stay_at_most_a_year d = false)
      as Hyear.
    { intros d Hdi Hdo. unfold stay_at_most_a_year. rewrite Hdi, Hdo, Hi, Ht.
      apply Z.leb_gt.
      assert (¬ ceil_div (Z.abs (t - i)) msPerDay ≤ 365); [|lia].
      rewrite ceil_div_le by done. lia. }
    apply (Hcross msg_year stay_at_most_a_year Hyear).
    intros d Hd. destruct (Hdates d Hd) as [Hdi Hdo]. simpl.
    eapply refine_reports; [by rewrite refine_value|]. by apply Hyear.
Qed.

End CrossField.

(** ** Validation failures at the endpoint *)

Lemma checkRateLimit_keeps_guests ident0 now g s up ident st :
  kvGet up (guest_key ident) (checkRateLimit ident0 now g s st).2
  = kvGet up (guest_key ident) st.
Proof.
  assert (∀ v e, kvGet up (guest_key ident) (kvSet s (rate_key ident0) v e st)
                 = kvGet up (guest_key ident) st) as Hset.
  { intros v e. apply kvGet_kvSet_ne. intros Heq. symmetry in Heq.
    by apply rate_key_not_guest_key in Heq. }
  unfold checkRateLimit.
  destruct (kvGet g (rate_key ident0) st) as [[rec|c r|]|]; simpl; auto.
  destruct (r <? now); simpl; auto.
  destruct (maxRequests <=? c); simpl; auto.
Qed.

Section FailureResponse.
Context `{Platform}.

(** Every failing check of a string key is reported, as long as the checks
    before it leave the string as it is. *)
Lemma string_checks_all_reported f : ∀ pre ck post s msg,
  (∀ c, In c pre → c ≠ toLowerCase_check) →
  (run_check ck s).1 = Some msg →
  In {| field := f; message := msg |} (run_checks f (pre ++ ck :: post) s).1.
Proof.
  induction pre as [|c pre IH]; intros ck post s msg Hpre Hck; simpl.
  - destruct (run_check ck s) as [bad s1]. simpl in Hck. subst bad.
    destruct (run_checks f post s1). simpl. by left.
  - assert ((run_check c s).2 = s) as Hc.
    { destruct c; simpl; try done. exfalso. by apply (Hpre toLowerCase_check); [left|]. }
    destruct (run_check c s) as [bad s1]. simpl in Hc. subst s1.
    specialize (IH ck post s msg (λ c' Hin, Hpre c' (or_intror Hin)) Hck).
    destruct (run_checks f (pre ++ ck :: post) s) as [more s2]. simpl in *.
    destruct bad; [by right | done].
Qed.

(** *** The rules of the schema, one by one

    What [details] must hold for an object, rule by rule as the schema has
    them: lengths, characters, ranges, the refinements of the check-in time
    and of the images, the two consents. *)

(** [details] has the entry of the field [f] with the message [msg]. *)
Definition reported (found : list ZodIssue) (f msg : string) : Prop :=
  In {| field := f; message := msg |} found.

(** A rule of [f]: when the value breaks it, [details] has its message. *)
Definition rule (found : list ZodIssue) (f : string) (broken : Prop) (msg : string)
    : Prop :=
  broken → reported found f msg.

(** A key of strings: a value that is no string, or no value, is reported
    as such; a string is held to the rules of the key. *)
Definition text_rules (found : list ZodIssue) (o : gmap string JsValue) (f : string)
    (rules : string → Prop) : Prop :=
  match o !! f with
  | Some (JString s) => rules s
  | v => reported found f (invalid_type "string" v)
  end.

(** [new Date(date) > new Date()] does not hold. *)
Definition not_in_future (now : Z) (date : string) : Prop :=
  ¬ ∃ t, Date_parse date = Some t ∧ now < t.

(** [checkOut > checkIn] does not hold. *)
Definition not_after (ci co : string) : Prop :=
  ¬ ∃ i t, Date_parse ci = Some i ∧ Date_parse co = Some t ∧ i < t.

(** The stay is not known to be of 365 days at most. *)
Definition not_within_a_year (ci co : string) : Prop :=
  ¬ ∃ i t, Date_parse ci = Some i ∧ Date_parse co = Some t
           ∧ Z.abs (t - i) ≤ 365 * msPerDay.

(** The refinement of an image field does not hold: no declaration of an
    image, no payload after the first comma, or an estimate above the
    ceiling. *)
Definition bad_image (m : Z) (s : string) : Prop :=
  ¬ (Js.startsWith s "data:image/" = true
     ∧ ∃ b64, Js.split "," s !! 1%nat = Some b64 ∧ b64 ≠ EmptyString
              ∧ 3 * Z.of_nat (String.length b64) ≤ 4 * m).

(** The keys of strings. *)
Definition text_keys : list string :=
  [ "fullName"; "idOrPassport"; "nationality"; "residenceStatus"; "homeAddress";
    "phone"; "email"; "checkIn"; "checkOut"; "selfie"; "idImage"; "signature" ].

(** Every key has a value of its type: the keys of strings a string,
    [guests] a number, and both consents are [true]. *)
Definition all_typed (o : gmap string JsValue) : Prop :=
  (∀ f, In f text_keys → ∃ s, o !! f = Some (JString s))
  ∧ (∃ q, o !! "guests" = Some (JNumber q))
  ∧ o !! "popiaConsent" = Some (JBool true)
  ∧ o !! "nonRefundAck" = Some (JBool true).

Definition violations_reported (now : Z) (o : gmap string JsValue)
    (found : list ZodIssue) : Prop :=
  text_rules found o "fullName" (λ s,
    rule found "fullName" (String.length s < 2)%nat
      "Full name must be at least 2 characters"
    ∧ rule found "fullName" (100 < String.length s)%nat
        "Full name must be less than 100 characters"
    ∧ rule found "fullName" (Js.one_or_more name_chars s = false)
        "Full name contains invalid characters")
  ∧ text_rules found o "idOrPassport" (λ s,
      rule found "idOrPassport" (String.length s < 4)%nat
        "ID/Passport must be at least 4 characters"
      ∧ rule found "idOrPassport" (20 < String.length s)%nat
          "ID/Passport must be less than 20 characters"
      ∧ rule found "idOrPassport" (Js.one_or_more id_chars s = false)
          "ID/Passport contains invalid characters")
  ∧ text_rules found o "nationality" (λ s,
      rule found "nationality" (String.length s < 2)%nat
        "Nationality must be at least 2 characters"
      ∧ rule found "nationality" (50 < String.length s)%nat
          "Nationality must be less than 50 characters"
      ∧ rule found "nationality" (Js.one_or_more nationality_chars s = false)
          "Nationality contains invalid characters")
  ∧ text_rules found o "residenceStatus" (λ s,
      rule found "residenceStatus" (String.length s < 2)%nat
        "Residence status must be at least 2 characters"
      ∧ rule found "residenceStatus" (100 < String.length s)%nat
          "Residence status must be less than 100 characters")
  ∧ text_rules found o "homeAddress" (λ s,
      rule found "homeAddress" (String.length s < 5)%nat
        "Home address must be at least 5 characters"
      ∧ rule found "homeAddress" (300 < String.length s)%nat
          "Home address must be less than 300 characters")
  ∧ text_rules found o "phone" (λ s,
      rule found "phone" (String.length s < 6)%nat
        "Phone number must be at least 6 characters"
      ∧ rule found "phone" (20 < String.length s)%nat
          "Phone number must be less than 20 characters"
      ∧ rule found "phone" (phone_regex s = false) "Invalid phone number format")
  ∧ text_rules found o "email" (λ s,
      rule found "email" (zod_email s = false) "Invalid email address"
      ∧ rule found "email" (100 < String.length s)%nat
          "Email must be less than 100 characters")
  ∧ text_rules found o "checkIn" (λ s,
      rule found "checkIn" (String.length s < 4)%nat "Check-in date is required"
      ∧ rule found "checkIn" (not_in_future now s)
          "Check-in date must be in the future")
  ∧ text_rules found o "checkOut" (λ s,
      rule found "checkOut" (String.length s < 4)%nat "Check-out date is required")
  ∧ match o !! "guests" with
    | Some (JNumber q) =>
        rule found "guests" (¬ ∃ n : Z, (q == inject_Z n)%Q)
          "Number of guests must be a whole number"
        ∧ rule found "guests" (q < 1)%Q "At least 1 guest is required"
        ∧ rule found "guests" (20 < q)%Q "Maximum 20 guests allowed"
    | v => reported found "guests" (invalid_type "number" v)
    end
  ∧ text_rules found o "selfie" (λ s,
      rule found "selfie" (String.length s < 10)%nat "Selfie is required"
      ∧ rule found "selfie" (bad_image (5 * MB) s)
          "Invalid selfie image or file too large (max 5MB)")
  ∧ text_rules found o "idImage" (λ s,
      rule found "idImage" (String.length s < 10)%nat "ID/Passport image is required"
      ∧ rule found "idImage" (bad_image (5 * MB) s)
          "Invalid ID/Passport image or file too large (max 5MB)")
  ∧ text_rules found o "signature" (λ s,
      rule found "signature" (String.length s < 10)%nat
        "Digital signature is required"
      ∧ rule found "signature" (bad_image (1 * MB) s)
          "Invalid signature or file too large (max 1MB)")
  ∧ rule found "popiaConsent" (o !! "popiaConsent" ≠ Some (JBool true))
      "POPIA consent is required"
  ∧ rule found "nonRefundAck" (o !! "nonRefundAck" ≠ Some (JBool true))
      "Non-refund policy acknowledgment is required"
  ∧ (all_typed o →
     ∀ ci co, o !! "checkIn" = Some (JString ci) → o !! "checkOut" = Some (JString co) →
       rule found "checkOut" (not_after ci co)
         "Check-out date must be after check-in date"
       ∧ rule found "checkOut" (not_within_a_year ci co)
           "Stay duration cannot exceed 365 days").


Lemma z_string_issues f cks s :
  issues (z_string f cks (Some (JString s))) = (run_checks f cks s).1.
Proof. unfold z_string. by destruct (run_checks f cks s). Qed.

Lemma is_integer_whole q : is_integer q = true → ∃ n : Z, (q == inject_Z n)%Q.
Proof.
  unfold is_integer. intros Hden. apply Z.eqb_eq in Hden.
  exists (Qnum (Qred q)). rewrite <- (Qred_correct q) at 1.
  destruct (Qred q) as [n d]. simpl in *. injection Hden as ->. reflexivity.
Qed.

Lemma checkIn_not_in_future now s : not_in_future now s → checkIn_in_future now s = false.
Proof.
  intros Hb. unfold checkIn_in_future. destruct (Date_parse s) as [t|] eqn:Et; [|done].
  apply Z.ltb_ge. destruct (Z.le_gt_cases t now) as [Hle|Hgt]; [done|].
  exfalso. apply Hb. exists t. split; [done|lia].
Qed.

Lemma bad_image_not_ok m s : bad_image m s → image_ok m s = false.
Proof.
  intros Hb. destruct (image_ok m s) eqn:Ei; [|done].
  exfalso. apply Hb. by apply image_ok_spec.
Qed.

Lemma not_after_refused d :
  not_after (checkIn d) (checkOut d) → checkOut_after_checkIn d = false.
Proof.
  intros Hb. unfold checkOut_after_checkIn.
  destruct (Date_parse (checkIn d)) as [i|] eqn:Ei; [|done].
  destruct (Date_parse (checkOut d)) as [t|] eqn:Et; [|done].
  apply Z.ltb_ge. destruct (Z.le_gt_cases t i) as [Hle|Hgt]; [done|].
  exfalso. apply Hb. exists i, t. split; [done|]. split; [done|lia].
Qed.

Lemma not_within_a_year_refused d :
  not_within_a_year (checkIn d) (checkOut d) → stay_at_most_a_year d = false.
Proof.
  intros Hb. unfold stay_at_most_a_year.
  destruct (Date_parse (checkIn d)) as [i|] eqn:Ei; [|done].
  destruct (Date_parse (checkOut d)) as [t|] eqn:Et; [|done].
  apply Z.leb_gt.
  assert (¬ ceil_div (Z.abs (t - i)) msPerDay ≤ 365) as Hno; [|lia].
  rewrite ceil_div_le by done. intros Hle. apply Hb. by exists i, t.
Qed.

(** An object whose keys all have a value of their type has a value: no
    key aborts. *)
Lemma all_typed_no_abort now o : all_typed o → no_field_aborts now o.
Proof.
  intros (Htext & [q Hq] & Hp & Hn).
  assert (∀ f cks, In f text_keys → ∃ s', value (z_string f cks (o !! f)) = Some s')
    as Hs.
  { intros f cks Hf. destruct (Htext f Hf) as [s ->]. unfold z_string.
    destruct (run_checks f cks s) as [? s']. by exists s'. }
  assert (∃ v, value (p_fullName o) = Some v) as [v1 E1]
    by (apply Hs; simpl; tauto).
  assert (∃ v, value (p_idOrPassport o) = Some v) as [v2 E2]
    by (apply Hs; simpl; tauto).
  assert (∃ v, value (p_nationality o) = Some v) as [v3 E3]
    by (apply Hs; simpl; tauto).
  assert (∃ v, value (p_residenceStatus o) = Some v) as [v4 E4]
    by (apply Hs; simpl; tauto).
  assert (∃ v, value (p_homeAddress o) = Some v) as [v5 E5]
    by (apply Hs; simpl; tauto).
  assert (∃ v, value (p_phone o) = Some v) as [v6 E6]
    by (apply Hs; simpl; tauto).
  assert (∃ v, value (p_email o) = Some v) as [v7 E7]
    by (apply Hs; simpl; tauto).
  assert (∃ v, value (p_checkIn now o) = Some v) as [v8 E8]
    by (unfold p_checkIn; rewrite refine_value; apply Hs; simpl; tauto).
  assert (∃ v, value (p_checkOut o) = Some v) as [v9 E9]
    by (apply Hs; simpl; tauto).
  assert (∃ v, value (p_selfie o) = Some v) as [v11 E11]
    by (unfold p_selfie; rewrite refine_value; apply Hs; simpl; tauto).
  assert (∃ v, value (p_idImage o) = Some v) as [v12 E12]
    by (unfold p_idImage; rewrite refine_value; apply Hs; simpl; tauto).
  assert (∃ v, value (p_signature o) = Some v) as [v13 E13]
    by (unfold p_signature; rewrite refine_value; apply Hs; simpl; tauto).
  unfold no_field_aborts, z_object. cbn [value].
  rewrite E1, E2, E3, E4, E5, E6, E7, E8, E9, E11, E12, E13.
  unfold p_guests, z_number_int_range, p_popiaConsent, p_nonRefundAck, z_literal_true.
  rewrite Hq, Hp, Hn. by eexists.
Qed.

(** A failing check of a string key, whatever its place among the checks. *)
Ltac failing_check Hb :=
  let fails :=
    (simpl; first [ apply Nat.ltb_lt in Hb; rewrite Hb; reflexivity
                  | rewrite Hb; reflexivity ]) in
  first
    [ apply (string_checks_all_reported _ []); [by intros ? [] | fails]
    | apply (string_checks_all_reported _ [_]); [by intros ? [<-|[]] | fails]
    | apply (string_checks_all_reported _ [_; _]); [by intros ? [<-|[<-|[]]] | fails] ].

(** The rules of a key of strings whose parser is [z.string()] with checks. *)
Ltac checked_key Hk open f :=
  unfold text_rules;
  let s := fresh "s" in
  let E := fresh "E" in
  destruct (_ !! f) as [[| | |s| |]|] eqn:E;
  try (apply Hk; open; rewrite E; by left);
  repeat match goal with |- _ ∧ _ => split end;
  (let Hb := fresh "Hb" in
   intros Hb; apply Hk; open; rewrite E, z_string_issues; failing_check Hb).

(** The same for a key with a refinement [pred] after its one check. *)
Ltac refined_key Hk open f broken :=
  unfold text_rules;
  let s := fresh "s" in
  let E := fresh "E" in
  destruct (_ !! f) as [[| | |s| |]|] eqn:E;
  try (apply Hk; open; unfold refine; rewrite E; by left);
  (split;
   [ let Hb := fresh "Hb" in
     intros Hb; apply Hk; open; rewrite E; apply refine_issues_incl;
     rewrite z_string_issues; failing_check Hb
   | let Hb := fresh "Hb" in
     intros Hb; apply Hk; open; rewrite E;
     eapply refine_reports;
     [ apply string_key_value; by intros ? [<-|[]] | by apply broken ] ]).

(** The issues of a key are issues of the schema. *)
Ltac kept K p now o :=
  assert (∀ i, In i (issues p) → In i (issues (RegistrationSchema now (Object o))))
    as K
    by (intros i ?; apply schema_keeps_object_issues; unfold z_object; simpl;
        rewrite !in_app_iff; tauto).

(** Every rule of the schema that an object breaks is among the issues of
    its parse. *)
Lemma schema_reports_violations now o :
  violations_reported now o (issues (RegistrationSchema now (Object o))).
Proof.
  kept K1 (p_fullName o) now o.
  kept K2 (p_idOrPassport o) now o.
  kept K3 (p_nationality o) now o.
  kept K4 (p_residenceStatus o) now o.
  kept K5 (p_homeAddress o) now o.
  kept K6 (p_phone o) now o.
  kept K7 (p_email o) now o.
  kept K8 (p_checkIn now o) now o.
  kept K9 (p_checkOut o) now o.
  kept K10 (p_guests o) now o.
  kept K11 (p_selfie o) now o.
  kept K12 (p_idImage o) now o.
  kept K13 (p_signature o) now o.
  kept K14 (p_popiaConsent o) now o.
  kept K15 (p_nonRefundAck o) now o.
  unfold violations_reported, rule, reported.
  repeat match goal with |- _ ∧ _ => split end.
  - checked_key K1 ltac:(unfold p_fullName) "fullName".
  - checked_key K2 ltac:(unfold p_idOrPassport) "idOrPassport".
  - checked_key K3 ltac:(unfold p_nationality) "nationality".
  - checked_key K4 ltac:(unfold p_residenceStatus) "residenceStatus".
  - checked_key K5 ltac:(unfold p_homeAddress) "homeAddress".
  - checked_key K6 ltac:(unfold p_phone) "phone".
  - checked_key K7 ltac:(unfold p_email) "email".
  - refined_key K8 ltac:(unfold p_checkIn) "checkIn" checkIn_not_in_future.
  - checked_key K9 ltac:(unfold p_checkOut) "checkOut".
  - destruct (o !! "guests") as [[| |q| | |]|] eqn:E;
      try (apply K10; unfold p_guests, z_number_int_range; rewrite E; by left).
    repeat match goal with |- _ ∧ _ => split end; intros Hb; apply K10;
      unfold p_guests, z_number_int_range; rewrite E; cbn [issues];
      rewrite !in_app_iff.
    + destruct (is_integer q) eqn:Ei; [|left; by left].
      exfalso. apply Hb. by apply is_integer_whole.
    + right. left. unfold Qltb. destruct (Qle_bool 1 q) eqn:El; [|by left].
      apply Qle_bool_iff in El. exfalso. by apply (Qlt_not_le _ _ Hb).
    + right. right. unfold Qltb. destruct (Qle_bool q 20) eqn:El; [|by left].
      apply Qle_bool_iff in El. exfalso. by apply (Qlt_not_le _ _ Hb).
  - refined_key K11 ltac:(unfold p_selfie) "selfie" bad_image_not_ok.
  - refined_key K12 ltac:(unfold p_idImage) "idImage" bad_image_not_ok.
  - refined_key K13 ltac:(unfold p_signature) "signature" bad_image_not_ok.
  - intros Hb. apply K14. unfold p_popiaConsent, z_literal_true.
    destruct (o !! "popiaConsent") as [[|[]| | | |]|]; try by left. by destruct Hb.
  - intros Hb. apply K15. unfold p_nonRefundAck, z_literal_true.
    destruct (o !! "nonRefundAck") as [[|[]| | | |]|]; try by left. by destruct Hb.
  - intros Htyped ci co Hci Hco.
    destruct (all_typed_no_abort now o Htyped) as [d Hd].
    assert (checkIn d = ci ∧ checkOut d = co) as [<- <-].
    { pose proof Hd as Hv. apply z_object_value in Hv as (_ & _ & _ & Hin & Hout & _).
      unfold p_checkIn in Hin. rewrite refine_value, Hci in Hin.
      unfold p_checkOut in Hout. rewrite Hco in Hout.
      rewrite string_key_value in Hin by (by intros ck [<-|[]]).
      rewrite string_key_value in Hout by (by intros ck [<-|[]]).
      split; congruence. }
    split; intros Hb; simpl.
    + apply refine_issues_incl. eapply refine_reports; [exact Hd|].
      by apply not_after_refused.
    + eapply refine_reports; [by rewrite refine_value|].
      by apply not_within_a_year_refused.
Qed.

(** C7, as the code has it. When the schema rejects the body, the answer is
    the 400 with the issues of the schema as [details], at least one, and no
    guest record is written. For an object, [details] has an entry, with the
    field and the message of the schema, for every rule that the object
    breaks: one entry for a key whose value has not the type of the key (or
    is missing), every failing check and refinement of a key that has, the
    message of each consent that is not [true], and the two cross-field
    rules when every key has a value of its type and both consents are
    [true]. For a body that is no object,
    [details] is the one entry of the type mismatch, with no field. *)
Theorem validation_failure_response req env st payload found :
  (checkRateLimit (client_ip req) (now_rate env) (up_rate_get env)
     (up_rate_set env) st).1 = true →
  body req = Some payload →
  parse (now_validate env) payload = inr found →
  (POST req env st).1 = ValidationFailed found
  ∧ status (POST req env st).1 = 400
  ∧ found ≠ []
  ∧ (∀ up ident, kvGet up (guest_key ident) (POST req env st).2
                 = kvGet up (guest_key ident) st)
  ∧ (∀ o, payload = Object o → violations_reported (now_validate env) o found)
  ∧ (∀ v, payload = TopLevel v → v ≠ JObject →
       found = [ {| field := ""; message := invalid_type "object" (Some v) |} ]).
Proof.
  intros Hok Hbody Hparse.
  pose proof (parse_inr_nonempty _ _ _ Hparse) as Hne.
  pose proof (parse_inr _ _ _ Hparse) as Hfound.
  pose proof (λ up ident, checkRateLimit_keeps_guests (client_ip req) (now_rate env)
                (up_rate_get env) (up_rate_set env) up ident st) as Hkeep.
  unfold POST.
  destruct (checkRateLimit _ _ _ _ st) as [ok st1]. simpl in *. subst ok. simpl.
  rewrite Hbody, Hparse. simpl.
  split; [done|]. split; [done|]. split; [done|]. split; [done|]. split.
  - intros o ->. rewrite Hfound. apply schema_reports_violations.
  - intros v -> Hv. rewrite Hfound. by destruct v.
Qed.

End FailureResponse.

(** ** The renderer agrees with the layout *)

Lemma split_pieces_all p sep s :
  Js.all_chars p s = true → Forall (λ w, Js.all_chars p w = true) (Js.split sep s).
Proof.
  induction s as [|c s IH]; simpl.
  - by constructor.
  - rewrite andb_true_iff. intros [Hc Hs]. specialize (IH Hs).
    destruct (Ascii.eqb c sep); [by constructor|].
    destruct (Js.split sep s) as [|w ws]; [by constructor; [simpl; rewrite Hc|]|].
    apply Forall_cons in IH as [Hw Hws]. constructor; [|done]. simpl. by rewrite Hc, Hw.
Qed.

Section Agreement.
Context `{Platform}.

Lemma page_drawText_ok t x yPos size f page :
  encodes f t = true →
  page_drawText t x yPos size f page = Some (page ++ [DrawText t x yPos size f])%list.
Proof. intros Ht. unfold page_drawText. by rewrite Ht. Qed.

Lemma wrap_loop_ok f size mw x ws : ∀ line yPos out,
  encodable f " " = true → encodes f line = true →
  Forall (λ w, encodes f w = true) ws →
  wrap_loop f size mw x ws (line, yPos, out)
  = Some (fold_left (lay_wrap_step f size mw x) ws (line, yPos, out))
  ∧ encodes f (fold_left (lay_wrap_step f size mw x) ws (line, yPos, out)).1.1 = true.
Proof.
  induction ws as [|w ws IH]; intros line yPos out Hsp Hline Hws.
  - done.
  - apply Forall_cons in Hws as [Hw Hws].
    assert (encodes f (line ++ (if Js.is_empty line then "" else " ") ++ w) = true)
      as Htest.
    { unfold encodes in *. rewrite !all_chars_app, Hline, Hw.
      destruct (Js.is_empty line); simpl; [done|]. by rewrite Hsp. }
    cbn [wrap_loop fold_left]. unfold wrap_step, lay_wrap_step, measure.
    rewrite Htest. cbn [mbind option_bind].
    destruct (Qltb mw _ && negb (Js.is_empty line)).
    + rewrite (page_drawText_ok _ _ _ _ _ _ Hline). cbn [mbind option_bind].
      by apply IH.
    + by apply IH.
Qed.

Lemma drawText_plain_ok t x yPos size f page :
  encodes f t = true →
  drawText t x yPos size f None page = Some (lay_text t x yPos size f None page).
Proof. intros Ht. unfold drawText, lay_text. by rewrite page_drawText_ok. Qed.

Lemma drawText_ok t x yPos size f mw page :
  encodable f " " = true → encodes f t = true →
  drawText t x yPos size f mw page = Some (lay_text t x yPos size f mw page).
Proof.
  intros Hsp Ht. destruct mw as [mw|]; [|by apply drawText_plain_ok].
  unfold drawText, lay_text.
  destruct (Qeq_bool mw 0); [by rewrite page_drawText_ok|].
  destruct (wrap_loop_ok f size mw x (Js.split " " t) EmptyString yPos page Hsp eq_refl)
    as [-> Hlast]; [by apply split_pieces_all|].
  cbn [mbind option_bind].
  destruct (fold_left _ _ _) as [[line currentY] out]. cbn [fst] in Hlast.
  destruct (Js.is_empty line); [done|]. by rewrite page_drawText_ok.
Qed.

Lemma put_ok t x size f cv :
  encodes f t = true → put t x size f cv = Some (lay_put t x size f cv).
Proof. intros Ht. unfold put. by rewrite drawText_plain_ok. Qed.

Lemma line_ok t size f dy cv :
  encodes f t = true → line t size f dy cv = Some (lay_line t size f dy cv).
Proof. intros Ht. unfold line. by rewrite put_ok. Qed.

Lemma addField_ok label v cv :
  encodable Helvetica " " = true →
  encodes HelveticaBold (label ++ ":") = true → encodes Helvetica v = true →
  addField label v cv = Some (lay_field label v cv).
Proof.
  intros Hsp Hl Hv. unfold addField. rewrite put_ok by done. cbn [mbind option_bind].
  by rewrite drawText_ok.
Qed.

Lemma image_embedded_ok img label cv :
  encodes HelveticaBold (label ++ ":") = true →
  image_embedded img label cv = Completed (lay_embedded img label cv).
Proof.
  intros Hl. unfold image_embedded, lay_embedded.
  destruct (Qltb _ _); by rewrite put_ok.
Qed.

Lemma image_failed_ok label cv :
  encodes Helvetica (failed_text label) = true →
  image_failed label cv = Some (lay_failed label cv).
Proof. intros Hl. unfold image_failed. by rewrite put_ok. Qed.

Lemma placeImage_ok dataUrl label cv :
  encodes HelveticaBold (label ++ ":") = true →
  encodes Helvetica (failed_text label) = true →
  placeImage dataUrl label cv = Some (lay_image dataUrl label cv).
Proof.
  intros Hl Hf. unfold placeImage, lay_image, image_try.
  destruct (Js.is_empty dataUrl); [done|].
  destruct (Js.split "," dataUrl !! 1%nat) as [b64|]; [|by apply image_failed_ok].
  destruct (Js.is_empty b64); [by apply image_failed_ok|].
  destruct (Js.atob b64) as [bytes|]; [|by apply image_failed_ok].
  destruct (Js.startsWith dataUrl "data:image/png").
  { destruct (embedPng bytes); [by rewrite image_embedded_ok | by apply image_failed_ok]. }
  destruct (Js.startsWith dataUrl "data:image/jpeg" || Js.startsWith dataUrl "data:image/jpg").
  { destruct (embedJpg bytes); [by rewrite image_embedded_ok | by apply image_failed_ok]. }
  done.
Qed.

(** When the fonts have all they are handed, nothing throws and every
    part of the document is as the layout has it. *)
Ltac cover_facts Hcover :=
  let Hsp := fresh "Hsp" in
  let Hall := fresh "Hall" in
  destruct Hcover as [Hsp Hall]; unfold text_inputs in Hall;
  cbn [app field_inputs slot_inputs] in Hall;
  repeat match goal with
  | Hf : Forall _ (_ :: _) |- _ =>
      let Hx := fresh "Hx" in apply Forall_cons in Hf as [Hx Hf]; cbn [fst snd] in Hx
  end.

Lemma line_then {B} t size f dy cv (k : Canvas → option B) :
  encodes f t = true → line t size f dy cv ≫= k = k (lay_line t size f dy cv).
Proof. intros Ht. by rewrite line_ok. Qed.

Lemma addField_then {B} label v cv (k : Canvas → option B) :
  encodable Helvetica " " = true →
  encodes HelveticaBold (label ++ ":") = true → encodes Helvetica v = true →
  addField label v cv ≫= k = k (lay_field label v cv).
Proof. intros Hsp Hl Hv. by rewrite addField_ok. Qed.

Lemma placeImage_then {B} dataUrl label cv (k : Canvas → option B) :
  encodes HelveticaBold (label ++ ":") = true →
  encodes Helvetica (failed_text label) = true →
  placeImage dataUrl label cv ≫= k = k (lay_image dataUrl label cv).
Proof. intros Hl Hf. by rewrite placeImage_ok. Qed.

Lemma drawText_then {B} t x yPos size f mw page (k : Q * list DrawOp → option B) :
  encodable f " " = true → encodes f t = true →
  drawText t x yPos size f mw page ≫= k = k (lay_text t x yPos size f mw page).
Proof. intros Hsp Ht. by rewrite drawText_ok. Qed.

Ltac agree :=
  repeat first
    [ rewrite line_then by assumption
    | rewrite addField_then by assumption
    | rewrite placeImage_then by assumption
    | rewrite drawText_then by assumption ];
  cbv beta;
  first
    [ reflexivity
    | apply line_ok; assumption
    | apply addField_ok; assumption
    | apply placeImage_ok; assumption
    | apply put_ok; assumption ].

Lemma header_ok ident created d now cv :
  fonts_cover ident created d now →
  header ident created cv = Some (lay_header ident created cv).
Proof. intros Hcover. cover_facts Hcover. unfold header. agree. Qed.

Lemma guest_information_ok ident created d now cv :
  fonts_cover ident created d now →
  guest_information d cv = Some (lay_guest_information d cv).
Proof. intros Hcover. cover_facts Hcover. unfold guest_information. agree. Qed.

Lemma accommodation_details_ok ident created d now cv :
  fonts_cover ident created d now →
  accommodation_details d cv = Some (lay_accommodation_details d cv).
Proof. intros Hcover. cover_facts Hcover. unfold accommodation_details. agree. Qed.

Lemma consents_ok ident created d now cv :
  fonts_cover ident created d now → consents cv = Some (lay_consents cv).
Proof. intros Hcover. cover_facts Hcover. unfold consents. agree. Qed.

Lemma uploaded_documents_ok ident created d now cv :
  fonts_cover ident created d now →
  uploaded_documents d cv = Some (lay_uploaded_documents d cv).
Proof. intros Hcover. cover_facts Hcover. unfold uploaded_documents. agree. Qed.

Lemma footer_ok ident created d now cv :
  fonts_cover ident created d now → footer now cv = Some (lay_footer now cv).
Proof. intros Hcover. cover_facts Hcover. unfold footer. agree. Qed.

Lemma then_Some {A B} (m : option A) (x : A) (k : A → option B) :
  m = Some x → m ≫= k = k x.
Proof. by intros ->. Qed.

Lemma render_ok ident s now :
  fonts_cover ident (createdAt s) (data s) now →
  render ident s now = Some (lay_out ident s now).
Proof.
  intros Hcover. unfold render. cbv zeta.
  rewrite (then_Some _ _ _ (header_ok _ _ _ _ _ Hcover)).
  rewrite (then_Some _ _ _ (guest_information_ok _ _ _ _ _ Hcover)).
  rewrite (then_Some _ _ _ (accommodation_details_ok _ _ _ _ _ Hcover)).
  rewrite (then_Some _ _ _ (consents_ok _ _ _ _ _ Hcover)).
  rewrite (then_Some _ _ _ (uploaded_documents_ok _ _ _ _ _ Hcover)).
  rewrite (then_Some _ _ _ (footer_ok _ _ _ _ _ Hcover)). reflexivity.
Qed.

(** Without the first character of the consent lines in the regular font,
    no document is drawn, whatever the record. *)
Lemma render_needs_consent_line ident s now :
  encodes Helvetica popia_line = false → render ident s now = None.
Proof.
  intros Hno.
  assert (∀ cv, consents cv = None) as Hcons.
  { intros cv. unfold consents, line, put, drawText, page_drawText.
    destruct (encodes HelveticaBold "CONSENTS & ACKNOWLEDGMENTS"); [|done].
    cbn [mbind option_bind fmap option_fmap option_map]. by rewrite Hno. }
  unfold render. cbv zeta.
  destruct (header _ _ _) as [cv1|]; [|done]. cbn [mbind option_bind].
  destruct (guest_information _ _) as [cv2|]; [|done]. cbn [mbind option_bind].
  destruct (accommodation_details _ _) as [cv3|]; [|done]. cbn [mbind option_bind].
  by rewrite Hcons.
Qed.

End Agreement.

(** ** The renderer: what each step adds to the page *)

(** What [placeImage] makes of a data URL. *)
Inductive SlotOutcome :=
  | SlotAbsent
  | SlotThrows
  | SlotUnsupported
  | SlotEmbedded (img : positive * positive).

Section Slots.
Context `{Platform}.

(** The image of a slot is absent (empty string); or reading it throws (no
    piece after the first comma, a piece that does not decode, a PNG or JPEG
    that does not embed); or its type is neither PNG nor JPEG; or it embeds. *)
Definition slot_outcome (dataUrl : string) : SlotOutcome :=
  if Js.is_empty dataUrl then SlotAbsent
  else
    match Js.split "," dataUrl !! 1%nat with
    | None => SlotThrows
    | Some base64 =>
        if Js.is_empty base64 then SlotThrows
        else
          match Js.atob base64 with
          | None => SlotThrows
          | Some bytes =>
              if Js.startsWith dataUrl "data:image/png" then
                match embedPng bytes with
                | Some img => SlotEmbedded img
                | None => SlotThrows
                end
              else if Js.startsWith dataUrl "data:image/jpeg"
                      || Js.startsWith dataUrl "data:image/jpg" then
                match embedJpg bytes with
                | Some img => SlotEmbedded img
                | None => SlotThrows
                end
              else SlotUnsupported
          end
    end.

(** The text a slot leaves on the page: the placeholder when reading the
    image throws, the label when it embeds, nothing otherwise. *)
Definition slot_texts (dataUrl label : string) : list string :=
  match slot_outcome dataUrl with
  | SlotThrows => [failed_text label]
  | SlotEmbedded _ => [label ++ ":"]
  | SlotAbsent | SlotUnsupported => []
  end.

(** The page before the images. *)
Definition before_images (ident : string) (s : SubmissionRecord) : Canvas :=
  lay_consents
    (lay_accommodation_details (data s)
      (lay_guest_information (data s)
        (lay_header ident (createdAt s) first_page))).

End Slots.

Lemma texts_app (a b : list DrawOp) : texts (a ++ b) = (texts a ++ texts b)%list.
Proof. unfold texts. apply omap_app. Qed.

Section RenderFacts.
Context `{Platform}.

Lemma put_texts t x size f cv :
  texts (ops (lay_put t x size f cv)) = (texts (ops cv) ++ [t])%list.
Proof. unfold lay_put, lay_text. simpl. by rewrite texts_app. Qed.

Lemma down_ops dy cv : ops (down dy cv) = ops cv.
Proof. done. Qed.

Lemma line_texts t size f dy cv :
  texts (ops (lay_line t size f dy cv)) = (texts (ops cv) ++ [t])%list.
Proof. unfold lay_line. by rewrite down_ops, put_texts. Qed.

Lemma checkPageSpace_texts r cv : texts (ops (checkPageSpace r cv)) = texts (ops cv).
Proof.
  unfold checkPageSpace. destruct (Qltb _ _); [|done]. simpl.
  rewrite texts_app. simpl. by rewrite app_nil_r.
Qed.

Lemma image_failed_texts label cv :
  texts (ops (lay_failed label cv)) = (texts (ops cv) ++ [failed_text label])%list.
Proof. unfold lay_failed. by rewrite down_ops, put_texts. Qed.

Lemma image_embedded_texts img label cv :
  texts (ops (lay_embedded img label cv)) = (texts (ops cv) ++ [(label ++ ":")%string])%list.
Proof.
  unfold lay_embedded.
  destruct (Qltb _ _); simpl; rewrite texts_app; simpl;
    by rewrite app_nil_r, texts_app, checkPageSpace_texts.
Qed.

(** A slot adds its own text after what is there, and nothing else. *)
Lemma placeImage_texts dataUrl label cv :
  texts (ops (lay_image dataUrl label cv))
  = (texts (ops cv) ++ slot_texts dataUrl label)%list.
Proof.
  unfold lay_image, slot_texts, slot_outcome.
  destruct (Js.is_empty dataUrl); [by rewrite app_nil_r|].
  destruct (Js.split "," dataUrl !! 1%nat) as [b64|]; [|apply image_failed_texts].
  destruct (Js.is_empty b64); [apply image_failed_texts|].
  destruct (Js.atob b64) as [bytes|]; [|apply image_failed_texts].
  destruct (Js.startsWith dataUrl "data:image/png").
  { destruct (embedPng bytes); [apply image_embedded_texts | apply image_failed_texts]. }
  destruct (Js.startsWith dataUrl "data:image/jpeg" || Js.startsWith dataUrl "data:image/jpg").
  { destruct (embedJpg bytes); [apply image_embedded_texts | apply image_failed_texts]. }
  by rewrite app_nil_r.
Qed.

Lemma footer_texts now cv :
  texts (ops (lay_footer now cv))
  = (texts (ops cv)
     ++ [end_line;
         ("Document generated on " ++ dayjs_ms_format now "YYYY-MM-DD HH:mm:ss")%string])%list.
Proof.
  unfold lay_footer. rewrite put_texts, line_texts, down_ops, checkPageSpace_texts.
  by rewrite <- app_assoc.
Qed.

Lemma isValidUUID_not_empty ident : isValidUUID ident = true → Js.is_empty ident = false.
Proof. by destruct ident. Qed.

(** The answer of [GET] for a well-formed identifier whose record is read,
    when the fonts have all they are handed. *)
Lemma GET_found ident renv st s :
  isValidUUID ident = true →
  kvGet (up_read renv) (guest_key ident) st = Some (VSubmission s) →
  fonts_cover ident (createdAt s) (data s) (now_render renv) →
  GET ident renv st
  = PdfDocument ("Guest Registration - " ++ fullName (data s))
      (lay_out ident s (now_render renv)).
Proof.
  intros Hid Hget Hcover. unfold GET.
  by rewrite (isValidUUID_not_empty _ Hid), Hid, Hget, (render_ok _ _ _ Hcover).
Qed.

(** And when the regular font has not the check mark of the consent lines:
    the 500, for every record. *)
Lemma GET_needs_consent_line ident renv st s :
  isValidUUID ident = true →
  kvGet (up_read renv) (guest_key ident) st = Some (VSubmission s) →
  encodes Helvetica popia_line = false →
  GET ident renv st = PdfFailed.
Proof.
  intros Hid Hget Hno. unfold GET.
  by rewrite (isValidUUID_not_empty _ Hid), Hid, Hget, (render_needs_consent_line _ _ _ Hno).
Qed.

(** With fonts that encode every text of the record, whatever its three
    images are, the document is produced and is complete: after the page
    that precedes the images come the heading of the images, what each slot
    leaves, and the two lines of the footer. A slot whose image cannot be
    read leaves the placeholder with its own label; a slot whose image is
    neither PNG nor JPEG leaves nothing at all. *)
Theorem image_slots_isolated ident renv st s :
  isValidUUID ident = true →
  kvGet (up_read renv) (guest_key ident) st = Some (VSubmission s) →
  fonts_cover ident (createdAt s) (data s) (now_render renv) →
  ∃ title content,
    GET ident renv st = PdfDocument title content
    ∧ pdf_status (GET ident renv st) = 200
    ∧ texts content
      = (texts (ops (before_images ident s))
         ++ ["UPLOADED DOCUMENTS"]
         ++ slot_texts (selfie (data s)) "Selfie Photo"
         ++ slot_texts (idImage (data s)) "ID/Passport Document"
         ++ slot_texts (signature (data s)) "Digital Signature"
         ++ [end_line;
             ("Document generated on "
              ++ dayjs_ms_format (now_render renv) "YYYY-MM-DD HH:mm:ss")%string])%list.
Proof.
  intros Hid Hget Hcover. rewrite (GET_found _ _ _ _ Hid Hget Hcover).
  do 2 eexists. split; [done|]. split; [done|].
  unfold lay_out, lay_uploaded_documents. fold (before_images ident s).
  rewrite footer_texts, !placeImage_texts, line_texts.
  by rewrite <- !app_assoc.
Qed.

End RenderFacts.

(** ** Word wrapping *)

(** The words of a text: the pieces between spaces that are not empty. *)
Definition words (s : string) : list string :=
  List.filter (λ w, negb (Js.is_empty w)) (Js.split " " s).

(** The width that [addField] gives to a value. *)
Definition value_column : Q := (pageWidth - margin - 120 - margin)%Q.

Section Wrapping.
Context `{Platform}.

(** The lines that [drawText] draws, positions left out. *)
Definition wrap_lines_step (useFont : Font) (size maxWidth : Q)
    (acc : string * list string) (word : string) : string * list string :=
  let '(line, drawn) := acc in
  let testLine := line ++ (if Js.is_empty line then "" else " ") ++ word in
  if Qltb maxWidth (widthOfTextAtSize useFont testLine size) && negb (Js.is_empty line)
  then (word, (drawn ++ [line])%list)
  else (testLine, drawn).

Definition wrap_lines (useFont : Font) (size : Q) (maxWidth : option Q)
    (text : string) : list string :=
  match maxWidth with
  | None => [text]
  | Some mw =>
      if Qeq_bool mw 0 then [text]
      else
        let '(line, drawn) :=
          fold_left (wrap_lines_step useFont size mw) (Js.split " " text)
            (EmptyString, []) in
        if Js.is_empty line then drawn else (drawn ++ [line])%list
  end.

End Wrapping.

Lemma split_not_nil sep s : Js.split sep s ≠ [].
Proof.
  destruct s as [|c s]; simpl; [done|].
  destruct (Ascii.eqb c sep); [done|]. by destruct (Js.split sep s).
Qed.

Lemma split_app_sep sep a b :
  Js.split sep (a ++ String sep b) = (Js.split sep a ++ Js.split sep b)%list.
Proof.
  induction a as [|c a IH]; simpl.
  - by rewrite Ascii.eqb_refl.
  - rewrite IH. destruct (Ascii.eqb c sep); [done|].
    pose proof (split_not_nil sep a). by destruct (Js.split sep a).
Qed.

Definition free_of (sep : ascii) (w : string) : bool :=
  Js.all_chars (λ c, negb (Ascii.eqb c sep)) w.

Lemma split_free sep w : free_of sep w = true → Js.split sep w = [w].
Proof.
  unfold free_of. induction w as [|c w IH]; simpl; [done|].
  rewrite andb_true_iff, negb_true_iff. intros [-> Hw]. by rewrite (IH Hw).
Qed.

Lemma split_pieces_free sep s : Forall (λ w, free_of sep w = true) (Js.split sep s).
Proof.
  induction s as [|c s IH]; simpl.
  - by constructor.
  - destruct (Ascii.eqb c sep) eqn:E; [by constructor|].
    destruct (Js.split sep s) as [|w ws];
      [by constructor; [unfold free_of; simpl; rewrite E|]|].
    apply Forall_cons in IH as [Hw Hws]. constructor; [|done].
    unfold free_of in *. simpl. by rewrite E, Hw.
Qed.

Lemma words_app_space a b : words (a ++ String " " b) = (words a ++ words b)%list.
Proof. unfold words. by rewrite split_app_sep, List.filter_app. Qed.

Lemma words_free w :
  free_of " " w = true → words w = if Js.is_empty w then [] else [w].
Proof. intros Hw. unfold words. rewrite (split_free _ _ Hw). by destruct w. Qed.

Lemma words_pieces s : concat (map words (Js.split " " s)) = words s.
Proof.
  unfold words at 2. pose proof (split_pieces_free " " s) as Hfree.
  induction Hfree as [|w ws Hw _ IH]; simpl; [done|].
  rewrite IH, (words_free w Hw). by destruct w.
Qed.

Section WrappingFacts.
Context `{Platform}.

Lemma test_line_words line word :
  words (line ++ (if Js.is_empty line then "" else " ") ++ word)
  = (words line ++ words word)%list.
Proof.
  destruct line as [|c line]; [done|].
  change (Js.is_empty (String c line)) with false. cbv iota.
  change (" " ++ word) with (String " " word). apply words_app_space.
Qed.

(** Across the loop the words of the drawn lines, then those of the line
    under construction, are the words met so far. *)
Lemma wrap_lines_fold useFont size mw ws : ∀ line drawn,
  let r := fold_left (wrap_lines_step useFont size mw) ws (line, drawn) in
  (concat (map words r.2) ++ words r.1
   = concat (map words drawn) ++ words line ++ concat (map words ws))%list.
Proof.
  induction ws as [|w ws IH]; intros line drawn; simpl.
  - by rewrite app_nil_r.
  - destruct (Qltb mw _ && negb (Js.is_empty line)); rewrite IH.
    + rewrite map_app, concat_app. simpl. by rewrite app_nil_r, <- !app_assoc.
    + by rewrite test_line_words, <- !app_assoc.
Qed.

(** No word is lost or added by the wrapping, and none changes place. *)
Lemma wrap_lines_words useFont size maxWidth text :
  concat (map words (wrap_lines useFont size maxWidth text)) = words text.
Proof.
  unfold wrap_lines.
  assert (concat (map words [text]) = words text) as Hone
    by (simpl; by rewrite app_nil_r).
  destruct maxWidth as [mw|]; [|done]. destruct (Qeq_bool mw 0); [done|].
  pose proof (wrap_lines_fold useFont size mw (Js.split " " text) EmptyString []) as Hf.
  simpl in Hf. rewrite words_pieces in Hf.
  destruct (fold_left _ _ _) as [line drawn]. simpl in Hf.
  destruct line as [|c line]; simpl.
  - by rewrite app_nil_r in Hf.
  - rewrite map_app, concat_app. simpl. by rewrite app_nil_r.
Qed.

(** A text without a space is drawn as one line. *)
Lemma wrap_lines_single_word useFont size maxWidth text :
  free_of " " text = true → Js.is_empty text = false →
  wrap_lines useFont size maxWidth text = [text].
Proof.
  intros Hfree Hne. unfold wrap_lines.
  destruct maxWidth as [mw|]; [|done]. destruct (Qeq_bool mw 0); [done|].
  rewrite (split_free _ _ Hfree). simpl. rewrite andb_false_r. simpl.
  by rewrite Hne.
Qed.

Lemma drawText_fold useFont size mw x ws : ∀ line yPos out drawn page,
  texts out = (texts page ++ drawn)%list →
  let r := fold_left (lay_wrap_step useFont size mw x) ws (line, yPos, out) in
  let r' := fold_left (wrap_lines_step useFont size mw) ws (line, drawn) in
  r.1.1 = r'.1 ∧ texts r.2 = (texts page ++ r'.2)%list.
Proof.
  induction ws as [|w ws IH]; intros line yPos out drawn page Hout; simpl.
  - done.
  - destruct (Qltb mw _ && negb (Js.is_empty line)).
    + apply IH. rewrite texts_app, Hout. simpl. by rewrite <- app_assoc.
    + by apply IH.
Qed.

(** [drawText] adds the lines of [wrap_lines] to the page. *)
Lemma drawText_texts text x yPos size useFont maxWidth page :
  texts (lay_text text x yPos size useFont maxWidth page).2
  = (texts page ++ wrap_lines useFont size maxWidth text)%list.
Proof.
  unfold lay_text, wrap_lines.
  assert (texts (page ++ [DrawText text x yPos size useFont])
          = (texts page ++ [text])%list) as Hplain
    by (by rewrite texts_app).
  destruct maxWidth as [mw|]; [|done]. destruct (Qeq_bool mw 0); [done|].
  pose proof (drawText_fold useFont size mw x (Js.split " " text)
                EmptyString yPos page [] page) as Hf.
  rewrite app_nil_r in Hf. specialize (Hf eq_refl). simpl in Hf.
  destruct (fold_left (lay_wrap_step _ _ _ _) _ _) as [[line currentY] out].
  destruct (fold_left (wrap_lines_step _ _ _) _ _) as [line' drawn].
  simpl in Hf. destruct Hf as [<- Hout]. simpl.
  destruct (Js.is_empty line); [done|].
  rewrite texts_app, Hout. simpl. by rewrite <- app_assoc.
Qed.

Lemma addField_texts label v cv :
  texts (ops (lay_field label v cv))
  = (texts (ops cv) ++ [(label ++ ":")%string]
     ++ wrap_lines Helvetica 10 (Some value_column) v)%list.
Proof.
  unfold lay_field. rewrite down_ops. cbn [ops].
  rewrite drawText_texts, put_texts, checkPageSpace_texts.
  by rewrite <- app_assoc.
Qed.

End WrappingFacts.

(** ** A name that stays on one line *)

(** The pieces after the first, each behind its separator. *)
Definition join_rest (sep : ascii) (ws : list string) : string :=
  fold_right (λ w acc, String sep w ++ acc) EmptyString ws.

Lemma append_assoc_s (a b c : string) : (a ++ b) ++ c = a ++ (b ++ c).
Proof. induction a as [|x a IH]; simpl; [done|]. by rewrite IH. Qed.

Lemma join_split sep s :
  match Js.split sep s with
  | [] => False
  | w :: ws => w ++ join_rest sep ws = s
  end.
Proof.
  induction s as [|c s IH]; simpl; [done|].
  destruct (Ascii.eqb c sep) eqn:E.
  - apply Ascii.eqb_eq in E as ->. destruct (Js.split sep s) as [|w ws]; [done|].
    simpl. by rewrite IH.
  - destruct (Js.split sep s) as [|w ws]; [done|]. simpl. by rewrite IH.
Qed.

Lemma prefix_app (a b : string) : String.prefix a (a ++ b) = true.
Proof.
  induction a as [|x a IH]; simpl; [by destruct b|].
  by destruct (ascii_dec x x).
Qed.

Lemma prefix_length p : ∀ s,
  String.prefix p s = true → (String.length p ≤ String.length s)%nat.
Proof.
  induction p as [|c p IH]; intros [|c' s] Hp; simpl in *; try lia; try discriminate.
  destruct (ascii_dec c c'); [|discriminate]. specialize (IH s Hp). lia.
Qed.

Section OneLine.
Context `{Platform}.

(** The text does not start with a space, and no prefix of it is wider than
    the column of [addField]. *)
Definition fits_on_one_line (text : string) : Prop :=
  match text with
  | String c _ => c ≠ " "%char
  | EmptyString => False
  end
  ∧ ∀ p, String.prefix p text = true →
         Qltb value_column (widthOfTextAtSize Helvetica p 10) = false.

Lemma wrap_lines_fold_fits ws : ∀ line drawn,
  Js.is_empty line = false →
  (∀ p, String.prefix p (line ++ join_rest " " ws) = true →
        Qltb value_column (widthOfTextAtSize Helvetica p 10) = false) →
  fold_left (wrap_lines_step Helvetica 10 value_column) ws (line, drawn)
  = (line ++ join_rest " " ws, drawn).
Proof.
  induction ws as [|w ws IH]; intros line drawn Hne Hfit; simpl.
  - clear. induction line as [|c l IHl]; simpl; [done|]. congruence.
  - rewrite Hne. change (" " ++ w) with (String " " w).
    rewrite (Hfit (line ++ String " " w)).
    + simpl. rewrite IH.
      * by rewrite append_assoc_s.
      * by destruct line.
      * intros p Hp. apply Hfit. rewrite append_assoc_s in Hp. exact Hp.
    + change (join_rest " " (w :: ws)) with (String " " w ++ join_rest " " ws).
      rewrite <- append_assoc_s. apply prefix_app.
Qed.

Lemma wrap_lines_fits text :
  fits_on_one_line text →
  wrap_lines Helvetica 10 (Some value_column) text = [text].
Proof.
  intros [Hstart Hfit]. unfold wrap_lines.
  change (Qeq_bool value_column 0) with false. cbv iota.
  pose proof (join_split " " text) as Hjoin.
  destruct text as [|c t]; [done|].
  destruct (Js.split " " (String c t)) as [|w ws] eqn:Hs; [done|].
  assert (Js.is_empty w = false) as Hw.
  { simpl in Hs. destruct (Ascii.eqb c " ") eqn:E.
    - apply Ascii.eqb_eq in E. done.
    - destruct (Js.split " " t); by injection Hs as <- _. }
  simpl. rewrite andb_false_r. simpl.
  rewrite wrap_lines_fold_fits; [|done|by rewrite Hjoin].
  rewrite Hjoin. done.
Qed.

End OneLine.

(** ** The text of a rendered document *)

Section DocumentText.
Context `{Platform}.

Definition field_texts (label v : string) : list string :=
  (label ++ ":")%string :: wrap_lines Helvetica 10 (Some value_column) v.

(** What follows the name on the pages. *)
Definition texts_after_name (d : RegistrationData) (now : Z) : list string :=
  (field_texts "ID/Passport Number" (idOrPassport d)
   ++ field_texts "Nationality" (nationality d)
   ++ field_texts "Residence Status" (residenceStatus d)
   ++ field_texts "Home Address" (homeAddress d)
   ++ field_texts "Phone Number" (phone d)
   ++ field_texts "Email Address" (email d)
   ++ ["ACCOMMODATION DETAILS"]
   ++ field_texts "Check-in" (dayjs_text_format (checkIn d) "YYYY-MM-DD HH:mm")
   ++ field_texts "Check-out" (dayjs_text_format (checkOut d) "YYYY-MM-DD HH:mm")
   ++ field_texts "Number of Guests" (Number_toString (guests d))
   ++ ["CONSENTS & ACKNOWLEDGMENTS"; popia_line; nonrefund_line]
   ++ ["UPLOADED DOCUMENTS"]
   ++ slot_texts (selfie d) "Selfie Photo"
   ++ slot_texts (idImage d) "ID/Passport Document"
   ++ slot_texts (signature d) "Digital Signature"
   ++ [end_line;
       ("Document generated on " ++ dayjs_ms_format now "YYYY-MM-DD HH:mm:ss")%string])%list.

Lemma addField_field_texts label v cv :
  texts (ops (lay_field label v cv)) = (texts (ops cv) ++ field_texts label v)%list.
Proof. apply addField_texts. Qed.

(** The lines of a document: the header, the heading of the guest section,
    the name, and the rest. *)
Lemma render_texts ident s now :
  texts (lay_out ident s now)
  = ((texts (ops (lay_header ident (createdAt s) first_page)) ++ ["GUEST INFORMATION"])
     ++ ["Full Name:"]
     ++ wrap_lines Helvetica 10 (Some value_column) (fullName (data s))
     ++ texts_after_name (data s) now)%list.
Proof.
  unfold lay_out, lay_uploaded_documents, lay_consents, lay_accommodation_details,
    lay_guest_information, texts_after_name.
  rewrite footer_texts, !placeImage_texts.
  repeat first [ rewrite line_texts | rewrite down_ops | rewrite put_texts
               | rewrite addField_field_texts ].
  unfold field_texts at 1. rewrite <- !app_assoc. reflexivity.
Qed.

Lemma consent_lines_drawn d now :
  In popia_line (texts_after_name d now) ∧ In nonrefund_line (texts_after_name d now).
Proof.
  unfold texts_after_name. rewrite !in_app_iff. cbn [In]. tauto.
Qed.

End DocumentText.

(** ** From submission to document *)

Lemma checkRateLimit_remote_guest ident0 now g s ident st :
  remote (checkRateLimit ident0 now g s st).2 !! guest_key ident
  = remote st !! guest_key ident.
Proof.
  assert (∀ v e, remote (kvSet s (rate_key ident0) v e st) !! guest_key ident
                 = remote st !! guest_key ident) as Hset.
  { intros v e. unfold kvSet, kv_set. destruct s; simpl; [|done].
    apply lookup_insert_ne, rate_key_not_guest_key. }
  unfold checkRateLimit.
  destruct (kvGet g (rate_key ident0) st) as [[rec|c r|]|]; simpl; auto.
  destruct (r <? now); simpl; auto.
  destruct (maxRequests <=? c); simpl; auto.
Qed.

(** A record written under a key that the remote store did not hold is read
    back, provided the remote store answers the read whenever it took the
    write. *)
Lemma read_after_persist p r k v e st :
  remote st !! k = None → (p = true → r = true) →
  kvGet r k (kvSet p k v e st) = Some v.
Proof.
  intros Hfresh Hup. unfold kvGet, kvSet, kv_get, kv_set.
  destruct p; simpl.
  - rewrite (Hup eq_refl). simpl. by rewrite lookup_insert_eq.
  - destruct r; simpl; rewrite ?Hfresh; simpl; by rewrite lookup_insert_eq.
Qed.

Section SubmitRender.
Context `{Platform}.

Lemma refine_issues_nil {A : Type} f (pred : A → bool) msg (p : Parsed A) :
  issues (refine f pred msg p) = [] → issues p = [].
Proof.
  unfold refine. destruct (value p) as [a|]; [|done].
  destruct (pred a); [done|]. simpl. intros Hnil.
  by apply app_eq_nil in Hnil as [? _].
Qed.

(** A validated name is not empty. *)
Lemma valid_fullName now b d : parse now b = inl d → Js.is_empty (fullName d) = false.
Proof.
  intros Hp. apply parse_inl in Hp as [Hv Hi].
  assert (∃ o, value (z_object now o) = Some d ∧ issues (z_object now o) = [])
    as (o & Hvo & Hio).
  { destruct b as [v|o]; [by destruct v|exists o].
    cbn [RegistrationSchema] in Hv, Hi. rewrite !refine_value in Hv.
    split; [done | by do 2 apply refine_issues_nil in Hi]. }
  apply z_object_value in Hvo as (Hname & _).
  unfold z_object in Hio. cbn [issues] in Hio. apply app_eq_nil in Hio as [Hn _].
  unfold p_fullName, z_string in Hname, Hn.
  destruct (o !! "fullName") as [[| | |s| |]|]; try discriminate.
  destruct s as [|c s]; [cbn in Hn; discriminate|].
  cbn in Hname. by injection Hname as <-.
Qed.

(** With fonts that encode every text of the record. A payload that passes
    the rate limiter, the schema and the spam check is answered 201 with the
    identifier that the platform drew. When that identifier has the
    canonical shape and was not in the remote store, and the remote store
    answers the lookup if it took the write, the document is rendered: its
    title carries the name as submitted; on the page, after the label of the
    name come the lines into which the name was wrapped, which hold the
    words of the name in their order, and the name itself when it has no
    space or fits on one line; both consent lines are drawn. *)
Theorem submit_then_render req env renv st payload d :
  (checkRateLimit (client_ip req) (now_rate env) (up_rate_get env)
     (up_rate_set env) st).1 = true →
  body req = Some payload →
  parse (now_validate env) payload = inl d →
  detectSpamPatterns d = false →
  isValidUUID (randomUUID env) = true →
  remote st !! guest_key (randomUUID env) = None →
  (up_persist env = true → up_read renv = true) →
  fonts_cover (randomUUID env) (now_created env) d (now_render renv) →
  (POST req env st).1 = Created (randomUUID env)
  ∧ ∃ content pre,
      GET (randomUUID env) renv (POST req env st).2
      = PdfDocument ("Guest Registration - " ++ fullName d) content
      ∧ texts content
        = (pre ++ ["Full Name:"]
           ++ wrap_lines Helvetica 10 (Some value_column) (fullName d)
           ++ texts_after_name d (now_render renv))%list
      ∧ concat (map words (wrap_lines Helvetica 10 (Some value_column) (fullName d)))
        = words (fullName d)
      ∧ (free_of " " (fullName d) = true ∨ fits_on_one_line (fullName d) →
         In (fullName d) (texts content))
      ∧ In popia_line (texts content)
      ∧ In nonrefund_line (texts content).
Proof.
  intros Hok Hbody Hparse Hspam Hid Hfresh Hup Hcover.
  pose proof (valid_fullName _ _ _ Hparse) as Hname.
  pose proof (checkRateLimit_remote_guest (client_ip req) (now_rate env)
                (up_rate_get env) (up_rate_set env) (randomUUID env) st) as Hrem.
  rewrite Hfresh in Hrem.
  unfold POST.
  destruct (checkRateLimit _ _ _ _ st) as [ok st1]. simpl in Hok, Hrem. subst ok.
  cbn [negb]. cbv iota. rewrite Hbody, Hparse, Hspam. cbn [fst snd].
  split; [done|].
  set (sub := {| id := randomUUID env; createdAt := now_created env; data := d;
                 metadata := _ |}).
  rewrite (GET_found (randomUUID env) renv _ sub Hid
             (read_after_persist _ _ _ _ _ _ Hrem Hup) Hcover).
  eexists. exists (texts (ops (lay_header (randomUUID env) (createdAt sub) first_page))
                   ++ ["GUEST INFORMATION"])%list.
  split; [reflexivity|]. rewrite render_texts. cbn [data sub].
  split; [reflexivity|].
  split; [apply wrap_lines_words|].
  destruct (consent_lines_drawn d (now_render renv)) as [Hpopia Hnonrefund].
  split; [|split; rewrite !in_app_iff; tauto].
  intros Hone.
  assert (wrap_lines Helvetica 10 (Some value_column) (fullName d) = [fullName d])
    as ->.
  { destruct Hone as [Hfree|Hfit].
    - by apply wrap_lines_single_word.
    - by apply wrap_lines_fits. }
  rewrite !in_app_iff. right. right. left. by left.
Qed.

End SubmitRender.

(** Whether some line of the document has [sub] in it. *)
Definition mentions (sub : string) (r : PdfResponse) : bool :=
  match r with
  | PdfDocument _ content => existsb (Js.somewhere (String.prefix sub)) (texts content)
  | _ => false
  end.

(** ** The check mark of the consent lines

    Both consent lines begin with the check mark U+2713 and are drawn in
    [StandardFonts.Helvetica]. pdf-lib encodes the text of a standard font
    in WinAnsi, which has no check mark, and throws on a character that the
    font cannot encode; the [catch] of the handler answers the 500. What
    follows is the handler with such a font. *)

Section ConsentLine.
Context `{Platform}.

Lemma consents_fail cv : encodes Helvetica popia_line = false → consents cv = None.
Proof.
  intros Hno. unfold consents, line, put, drawText, page_drawText.
  destruct (encodes HelveticaBold "CONSENTS & ACKNOWLEDGMENTS"); [|done].
  cbn [mbind option_bind fmap option_fmap option_map]. by rewrite Hno.
Qed.

(** C3: the code does not do what the claim says. A payload that passes the
    rate limiter, the schema and the spam check is answered 201 with the
    identifier that the platform drew, and the record is stored. With a
    regular font that cannot encode the first consent line, the render of
    that identifier, found in the store, is answered 500: no document, and
    so neither the name nor a consent line. *)
Theorem submit_then_render_fails req env renv st payload d :
  (checkRateLimit (client_ip req) (now_rate env) (up_rate_get env)
     (up_rate_set env) st).1 = true →
  body req = Some payload →
  parse (now_validate env) payload = inl d →
  detectSpamPatterns d = false →
  isValidUUID (randomUUID env) = true →
  remote st !! guest_key (randomUUID env) = None →
  (up_persist env = true → up_read renv = true) →
  encodes Helvetica popia_line = false →
  (POST req env st).1 = Created (randomUUID env)
  ∧ (∃ s, kvGet (up_read renv) (guest_key (randomUUID env)) (POST req env st).2
          = Some (VSubmission s) ∧ data s = d)
  ∧ GET (randomUUID env) renv (POST req env st).2 = PdfFailed
  ∧ pdf_status (GET (randomUUID env) renv (POST req env st).2) = 500
  ∧ mentions (fullName d) (GET (randomUUID env) renv (POST req env st).2) = false
  ∧ mentions popia_line (GET (randomUUID env) renv (POST req env st).2) = false
  ∧ mentions nonrefund_line (GET (randomUUID env) renv (POST req env st).2) = false.
Proof.
  intros Hok Hbody Hparse Hspam Hid Hfresh Hup Hno.
  pose proof (checkRateLimit_remote_guest (client_ip req) (now_rate env)
                (up_rate_get env) (up_rate_set env) (randomUUID env) st) as Hrem.
  rewrite Hfresh in Hrem.
  unfold POST.
  destruct (checkRateLimit _ _ _ _ st) as [ok st1]. simpl in Hok, Hrem. subst ok.
  cbn [negb]. cbv iota. rewrite Hbody, Hparse, Hspam. cbn [fst snd].
  split; [done|].
  set (sub := {| id := randomUUID env; createdAt := now_created env; data := d;
                 metadata := _ |}).
  pose proof (read_after_persist (up_persist env) (up_read renv)
                (guest_key (randomUUID env)) (VSubmission sub)
                (Some expirationSeconds) st1 Hrem Hup)
    as Hget.
  split; [by exists sub|].
  by rewrite (GET_needs_consent_line (randomUUID env) renv _ sub Hid Hget Hno).
Qed.

(** C9: the code does not do what the claim says. With a regular font that
    cannot encode the first consent line, the section of the consents fails
    on every page, so the renderer never comes to the images: for every
    stored record, whatever its three images are, there is no document, the
    answer is the 500, and no placeholder is drawn for any slot. *)
Theorem image_failure_aborts_document ident renv st s :
  isValidUUID ident = true →
  kvGet (up_read renv) (guest_key ident) st = Some (VSubmission s) →
  encodes Helvetica popia_line = false →
  (∀ cv, consents cv = None)
  ∧ render ident s (now_render renv) = None
  ∧ GET ident renv st = PdfFailed
  ∧ pdf_status (GET ident renv st) = 500
  ∧ ∀ label, mentions (failed_text label) (GET ident renv st) = false.
Proof.
  intros Hid Hget Hno.
  split; [intros cv; by apply consents_fail|].
  split; [by apply render_needs_consent_line|].
  by rewrite (GET_needs_consent_line ident renv st s Hid Hget Hno).
Qed.

End ConsentLine.

(** ** The handlers on the sample inputs *)

Section Samples.
Import Demo.

(** The fonts of the sample platform refuse no character. *)
Lemma sample_encodes f t : encodes f t = true.
Proof. unfold encodes. induction t as [|c t IH]; [done|]. simpl. exact IH. Qed.

Lemma sample_fonts_cover ident created d now : fonts_cover ident created d now.
Proof.
  split; [reflexivity|]. apply Forall_forall. intros [f t] _. apply sample_encodes.
Qed.

(** C1: the record of the sample submission is in the remote store with no
    expiry, while the handler asked for 220752000 seconds. *)
Lemma POST_persists_without_expiry_witness :
  (POST request env empty_store).1 = Created uuid
  ∧ expirationSeconds = 220752000
  ∧ ∃ s, remote (POST request env empty_store).2 !! guest_key uuid
         = Some {| entry_value := VSubmission s; entry_ex := None |}.
Proof.
  split; [vm_compute; reflexivity|]. split; [reflexivity|].
  apply (POST_persists_without_expiry request env empty_store uuid).
  vm_compute. reflexivity.
Defined.

(** C2 as stated fails: the write of the record fails and the answer is 201. *)
Lemma store_failure_answered_201 :
  up_persist env_down = false
  ∧ status (POST request env_down empty_store).1 = 201
  ∧ remote (POST request env_down empty_store).2 !! guest_key uuid = None.
Proof. vm_compute. auto. Qed.

Lemma POST_store_failure_absorbed_witness :
  up_persist env_down = false
  ∧ (POST request env_down empty_store).1 = Created uuid
  ∧ ∃ s, memory (POST request env_down empty_store).2 !! guest_key uuid
         = Some (VSubmission s)
         ∧ fullName (data s) = "Jane Doe".
Proof.
  split; [reflexivity|].
  pose proof (POST_store_failure_absorbed request env_down empty_store
                (Object fields)) as Hthm.
  destruct (parse (now_validate env_down) (Object fields)) as [d|found] eqn:Hparse;
    [|vm_compute in Hparse; discriminate].
  assert (fullName d = "Jane Doe") as Hname
    by (vm_compute in Hparse; by injection Hparse as <-).
  assert (detectSpamPatterns d = false) as Hspam
    by (vm_compute in Hparse; by injection Hparse as <-).
  destruct (Hthm d) as (Hresp & _ & s & Hmem & Hdata & _);
    [vm_compute; reflexivity | reflexivity | reflexivity | exact Hspam | reflexivity |].
  split; [exact Hresp|]. exists s. split; [exact Hmem|]. by rewrite Hdata.
Defined.

(** C10 as stated fails for the document endpoint: a malformed identifier
    is answered 400, not 404. *)
Lemma malformed_identifier_render_400 :
  isValidUUID "not-a-uuid" = false
  ∧ GET "not-a-uuid" read_env stored = InvalidId
  ∧ pdf_status (GET "not-a-uuid" read_env stored) = 400.
Proof. vm_compute. auto. Qed.

Lemma malformed_identifier_outcomes_witness :
  isValidUUID "not-a-uuid" = false
  ∧ SuccessPage "not-a-uuid" true stored = NotFoundView
  ∧ pdf_status (GET "not-a-uuid" read_env stored) = 400.
Proof.
  split; [reflexivity|].
  destruct (malformed_identifier_outcomes "not-a-uuid" eq_refl) as [Hpage Hget].
  split; [apply Hpage | apply Hget].
Defined.


(** C5 as stated fails: check-out before check-in, one consent missing, and
    the only issue is the one of the consent. *)
Lemma out_before_in_not_on_checkOut :
  Date_parse "2030-01-10T14:00:00.000Z" = Some 1894284000000
  ∧ Date_parse "2030-01-01T00:00:00.000Z" = Some 1893456000000
  ∧ fields_no_consent !! "checkIn" = Some (JString "2030-01-10T14:00:00.000Z")
  ∧ fields_no_consent !! "checkOut" = Some (JString "2030-01-01T00:00:00.000Z")
  ∧ parse 1893456000000 (Object fields_no_consent)
    = inr [ {| field := "nonRefundAck";
               message := "Non-refund policy acknowledgment is required" |} ].
Proof. vm_compute. auto. Qed.

Lemma stay_dates_validation_witness :
  no_field_aborts 1893456000000 fields_out_before_in
  ∧ ∃ found, parse 1893456000000 (Object fields_out_before_in) = inr found
             ∧ In {| field := "checkOut"; message := msg_after |} found.
Proof.
  assert (no_field_aborts 1893456000000 fields_out_before_in) as Hok
    by (vm_compute; eauto).
  split; [exact Hok|].
  destruct (stay_dates_validation 1893456000000 fields_out_before_in
              "2030-01-10T14:00:00.000Z" "2030-01-01T00:00:00.000Z"
              1894284000000 1893456000000)
    as (_ & Hafter & _); [vm_compute; reflexivity .. |].
  destruct Hafter as (found & Hparse & Hin); [vm_compute; discriminate|].
  exists found. split; [exact Hparse | exact (Hin Hok)].
Defined.

(** C6 as stated fails: a selfie whose payload is no base64 is accepted. *)
Lemma undecodable_selfie_accepted :
  Js.atob "@@@@" = None
  ∧ Js.split "," undecodable_url !! 1%nat = Some "@@@@"
  ∧ issues (p_selfie (<["selfie" := JString undecodable_url]> fields)) = []
  ∧ ∃ d, parse 1893456000000 (Object (<["selfie" := JString undecodable_url]> fields))
         = inl d ∧ selfie d = undecodable_url.
Proof.
  split; [reflexivity|]. split; [reflexivity|]. split; [vm_compute; reflexivity|].
  eexists. split; [vm_compute; reflexivity | reflexivity].
Qed.

Lemma document_field_validation_witness :
  issues (p_signature fields) = []
  ∧ ∀ bytes, Js.atob "iVBORw0KGgo=" = Some bytes → Z.of_nat (length bytes) ≤ 1 * MB.
Proof.
  destruct (document_field_validation p_signature "signature" (1 * MB) fields)
    as (Hacc & Hsize & _).
  { right. right. left. reflexivity. }
  assert (issues (p_signature fields) = []) as Hnone by (vm_compute; reflexivity).
  split; [exact Hnone|].
  intros bytes Hbytes.
  apply (Hsize Hnone png_url "iVBORw0KGgo=" bytes); [reflexivity | reflexivity | exact Hbytes].
Defined.

(** C7 as stated fails: check-out before check-in and a consent refused,
    and [details] has the consent only. *)
Lemma refused_consent_hides_date_rule :
  Date_parse "2030-01-10T14:00:00.000Z" = Some 1894284000000
  ∧ Date_parse "2030-01-01T00:00:00.000Z" = Some 1893456000000
  ∧ (POST request_refused env empty_store).1
    = ValidationFailed [ {| field := "popiaConsent";
                            message := "POPIA consent is required" |} ].
Proof. vm_compute. auto. Qed.

Lemma validation_failure_response_witness :
  (POST (request_with "guests" (JNumber 0)) env empty_store).1
  = ValidationFailed [ {| field := "guests"; message := "At least 1 guest is required" |} ]
  ∧ ∀ ident, kvGet true (guest_key ident)
               (POST (request_with "guests" (JNumber 0)) env empty_store).2 = None.
Proof.
  destruct (validation_failure_response (request_with "guests" (JNumber 0)) env
              empty_store (Object (<["guests" := JNumber 0]> fields))
              [ {| field := "guests"; message := "At least 1 guest is required" |} ])
    as (Hresp & _ & _ & Hkeep & _).
  - vm_compute. reflexivity.
  - reflexivity.
  - vm_compute. reflexivity.
  - split; [exact Hresp|]. intros ident. by rewrite Hkeep.
Defined.

(** C8 as stated fails: of two addresses that differ only in the character
    that is repeated eleven times, the one with the letter is rejected and
    the one with the line feed is accepted; and an address that has a
    keyword inside a longer word is accepted. *)
Lemma line_feed_run_not_rejected :
  (POST (request_with "homeAddress" (JString address_letters)) env empty_store).1
  = Rejected
  ∧ (POST (request_with "homeAddress" (JString address_line_feeds)) env empty_store).1
    = Created uuid
  ∧ (POST (request_with "homeAddress" (JString "12 Winners Circle")) env empty_store).1
    = Created uuid.
Proof. vm_compute. auto. Qed.

Lemma spam_rejection_witness :
  (POST (request_with "homeAddress" (JString address_letters)) env empty_store).1
  = Rejected
  ∧ ∃ d, parse (now_validate env)
           (Object (<["homeAddress" := JString address_letters]> fields)) = inl d
         ∧ spam_spec (spam_text d).
Proof.
  split; [vm_compute; reflexivity|].
  destruct (parse (now_validate env)
              (Object (<["homeAddress" := JString address_letters]> fields)))
    as [d|found] eqn:Hparse; [|vm_compute in Hparse; discriminate].
  destruct (spam_rejection (request_with "homeAddress" (JString address_letters))
              env empty_store
              (Object (<["homeAddress" := JString address_letters]> fields)) d)
    as [Hiff _];
    [vm_compute; reflexivity | reflexivity | exact Hparse |].
  exists d. split; [reflexivity|]. apply Hiff.
  vm_compute in Hparse. injection Hparse as <-. vm_compute. reflexivity.
Defined.

(** On the sample platform, whose fonts encode every character: a selfie of
    a type that is not embedded leaves no placeholder, and no other trace,
    in the document. *)
Lemma unsupported_image_no_placeholder :
  (POST (request_with "selfie" (JString gif_url)) env empty_store).1 = Created uuid
  ∧ pdf_status (GET uuid read_env
                  (POST (request_with "selfie" (JString gif_url)) env empty_store).2)
    = 200
  ∧ mentions "Selfie Photo"
      (GET uuid read_env
         (POST (request_with "selfie" (JString gif_url)) env empty_store).2)
    = false
  ∧ mentions end_line
      (GET uuid read_env
         (POST (request_with "selfie" (JString gif_url)) env empty_store).2)
    = true.
Proof. vm_compute. auto. Qed.

Lemma image_slots_isolated_witness :
  mentions (failed_text "Selfie Photo")
    (GET uuid read_env
       (POST (request_with "selfie" (JString undecodable_url)) env empty_store).2)
  = true.
Proof.
  destruct (POST (request_with "selfie" (JString undecodable_url)) env empty_store)
    as [resp st] eqn:Hpost. cbn [snd].
  assert (∃ s, kvGet (up_read read_env) (guest_key uuid) st = Some (VSubmission s)
               ∧ selfie (data s) = undecodable_url) as (s & Hget & Hselfie).
  { vm_compute in Hpost. injection Hpost as _ <-. eexists. split; [vm_compute|]; reflexivity. }
  destruct (image_slots_isolated uuid read_env st s eq_refl Hget
              (sample_fonts_cover _ _ _ _))
    as (title & content & -> & _ & Htexts).
  unfold mentions. rewrite Htexts, Hselfie. rewrite !existsb_app.
  assert (existsb (Js.somewhere (String.prefix (failed_text "Selfie Photo")))
            (slot_texts undecodable_url "Selfie Photo") = true) as ->
    by (vm_compute; reflexivity).
  by rewrite !orb_true_r.
Defined.

(** On the sample platform, whose fonts encode every character: a name that
    starts with a space is drawn without it, and no line of the document
    has the name as it was submitted. *)
Lemma leading_space_name_not_drawn :
  (POST (request_with "fullName" (JString " Jane Doe")) env empty_store).1 = Created uuid
  ∧ pdf_status (GET uuid read_env
                  (POST (request_with "fullName" (JString " Jane Doe")) env
                     empty_store).2) = 200
  ∧ mentions " Jane Doe"
      (GET uuid read_env
         (POST (request_with "fullName" (JString " Jane Doe")) env empty_store).2)
    = false
  ∧ mentions "Jane Doe"
      (GET uuid read_env
         (POST (request_with "fullName" (JString " Jane Doe")) env empty_store).2)
    = true.
Proof. vm_compute. auto. Qed.

Lemma submit_then_render_witness :
  (POST request env empty_store).1 = Created uuid
  ∧ mentions "Jane Doe" (GET uuid read_env (POST request env empty_store).2) = true.
Proof.
  destruct (parse (now_validate env) (Object fields)) as [d|found] eqn:Hparse;
    [|vm_compute in Hparse; discriminate].
  assert (fullName d = "Jane Doe" ∧ detectSpamPatterns d = false) as [Hname Hspam]
    by (vm_compute in Hparse; by injection Hparse as <-).
  destruct (submit_then_render request env read_env empty_store (Object fields) d)
    as (Hresp & content & pre & Hget & Htexts & _ & Hverbatim & _);
    [vm_compute; reflexivity | reflexivity | exact Hparse | exact Hspam
    | reflexivity | reflexivity | reflexivity | apply sample_fonts_cover |].
  split; [exact Hresp|].
  change (randomUUID env) with uuid in Hget. rewrite Hget.
  unfold mentions. apply existsb_exists. exists "Jane Doe".
  split; [|reflexivity]. rewrite <- Hname. apply Hverbatim. right.
  rewrite Hname. split; [discriminate|].
  intros p Hp. unfold Qltb, value_column. simpl widthOfTextAtSize. unfold sample_width.
  apply negb_false_iff, Qle_bool_iff.
  pose proof (prefix_length p _ Hp) as Hlen. simpl in Hlen.
  unfold Qle, Qmult, Qdiv, Qinv, inject_Z, pageWidth, margin, Qminus, Qplus, Qopp. simpl.
  lia.
Defined.

End Samples.

From Stdlib Require Import Qround Lqa.

(** * Further properties *)

(** ** The store wrapper: reading after writing *)

(** X1. What [kvGet] returns after [kvSet] under the same key, by whether the
    remote store took the write ([w]) and answers the read ([r]); and that
    the other keys are read as before. *)
Theorem kvSet_then_kvGet w r k v e st :
  kvGet r k (kvSet w k v e st)
  = match w, r with
    | true, true | false, false => Some v
    | true, false => memory st !! k
    | false, true =>
        match remote st !! k with
        | Some old => Some (entry_value old)
        | None => Some v
        end
    end
  ∧ ∀ k', k' ≠ k → kvGet r k' (kvSet w k v e st) = kvGet r k' st.
Proof.
  split.
  - unfold kvGet, kvSet, kv_get, kv_set. destruct w, r; simpl.
    + by rewrite lookup_insert_eq.
    + done.
    + destruct (remote st !! k); simpl; [done|]. by rewrite lookup_insert_eq.
    + by rewrite lookup_insert_eq.
  - intros k' Hne. unfold kvGet, kvSet, kv_get, kv_set.
    destruct w, r; simpl; rewrite ?lookup_insert_ne by done; done.
Qed.

(** ** The rate limiter *)

(** X2. [checkRateLimit] refuses exactly when it reads a counter at the ceiling
    whose reset time has not passed, and a refusal writes nothing. *)
Theorem checkRateLimit_refuses ident now g s st :
  ((checkRateLimit ident now g s st).1 = false
   ↔ ∃ c r, kvGet g (rate_key ident) st = Some (VRateLimit c r)
            ∧ now ≤ r ∧ maxRequests ≤ c)
  ∧ ((checkRateLimit ident now g s st).1 = false
     → (checkRateLimit ident now g s st).2 = st).
Proof.
  unfold checkRateLimit.
  destruct (kvGet g (rate_key ident) st) as [[rec|c r|]|]; simpl.
  - split; [|done]. split; [done|]. by intros (c & r & [=] & _).
  - destruct (r <? now) eqn:Er; simpl.
    + apply Z.ltb_lt in Er. split; [|done]. split; [done|].
      intros (c' & r' & [= <- <-] & Hle & _). lia.
    + apply Z.ltb_ge in Er. destruct (maxRequests <=? c) eqn:Ec; simpl.
      * apply Z.leb_le in Ec. split; [|done]. split; [|done]. intros _. by exists c, r.
      * apply Z.leb_gt in Ec. split; [|done]. split; [done|].
        intros (c' & r' & [= <- <-] & _ & Hle). lia.
  - split; [|done]. split; [done|]. by intros (c & r & [=] & _).
  - split; [|done]. split; [done|]. by intros (c & r & [=] & _).
Qed.

(** X3. The counter that the limiter writes reaches the remote store without
    an expiry, though the call passes one: a call leaves the store as it was
    or leaves such an entry, a counter where it read none or a counter, the
    record without a count where it read a value that has none. *)
Theorem rate_counter_without_expiry ident now g st :
  (checkRateLimit ident now g true st).2 = st
  ∨ (∃ c r, remote (checkRateLimit ident now g true st).2 !! rate_key ident
            = Some {| entry_value := VRateLimit c r; entry_ex := None |})
  ∨ ((∀ c r, kvGet g (rate_key ident) st ≠ Some (VRateLimit c r))
     ∧ kvGet g (rate_key ident) st ≠ None
     ∧ remote (checkRateLimit ident now g true st).2 !! rate_key ident
       = Some {| entry_value := VRateLimitNaN; entry_ex := None |}).
Proof.
  unfold checkRateLimit.
  destruct (kvGet g (rate_key ident) st) as [[rec|c r|]|]; simpl.
  - right. right. split; [done|]. split; [done|].
    unfold kvSet, kv_set. simpl. apply lookup_insert_eq.
  - destruct (r <? now); simpl.
    + right. left. eexists _, _. unfold kvSet, kv_set. simpl. apply lookup_insert_eq.
    + destruct (maxRequests <=? c); simpl; [by left|].
      right. left. eexists _, _. unfold kvSet, kv_set. simpl. apply lookup_insert_eq.
  - right. right. split; [done|]. split; [done|].
    unfold kvSet, kv_set. simpl. apply lookup_insert_eq.
  - right. left. eexists _, _. unfold kvSet, kv_set. simpl. apply lookup_insert_eq.
Qed.

(** A request whose limiter writes reach the remote store leaves the
    counters of the in-memory map as they were. *)
Lemma POST_memory_rate `{Platform} req env st ident :
  up_rate_set env = true →
  memory (POST req env st).2 !! rate_key ident = memory st !! rate_key ident.
Proof.
  intros Hs. unfold POST.
  assert (memory (checkRateLimit (client_ip req) (now_rate env) (up_rate_get env)
                    (up_rate_set env) st).2 = memory st) as Hm.
  { unfold checkRateLimit. rewrite Hs.
    destruct (kvGet _ _ st) as [[rec|c r|]|]; simpl; try done.
    destruct (r <? now_rate env); simpl; [done|].
    by destruct (maxRequests <=? c). }
  destruct (checkRateLimit _ _ _ _ st) as [ok st1]. simpl in Hm.
  destruct ok; simpl; [|by rewrite Hm].
  destruct (body req) as [payload|]; [|simpl; by rewrite Hm].
  destruct (parse _ payload) as [d|found]; [|simpl; by rewrite Hm].
  destruct (detectSpamPatterns d); [simpl; by rewrite Hm|]. simpl.
  unfold kvSet, kv_set. destruct (up_persist env); simpl; [by rewrite Hm|].
  rewrite lookup_insert_ne; [by rewrite Hm|].
  intros E. by apply (rate_key_not_guest_key ident (randomUUID env)).
Qed.

(** X4. While the limiter cannot read the remote store but can write to it, it
    finds no counter (the in-memory map has none) and lets every request
    through. *)
Theorem rate_limit_fails_open `{Platform} batch : ∀ st,
  (∀ ident, memory st !! rate_key ident = None) →
  Forall (λ re, up_rate_get re.2 = false ∧ up_rate_set re.2 = true) batch →
  Forall (λ resp, status resp ≠ 429) (serve batch st).1.
Proof.
  induction batch as [|[req env] batch IH]; intros st Hmem Hall; simpl.
  - constructor.
  - apply Forall_cons in Hall as [[Hg Hs] Hall]. simpl in Hg, Hs.
    pose proof (POST_limited req env st) as Hlim.
    pose proof (λ ident, POST_memory_rate req env st ident Hs) as Hkeep.
    destruct (POST req env st) as [resp st1]. simpl in Hlim, Hkeep.
    specialize (IH st1). destruct (serve batch st1) as [resps st2]. simpl in *.
    constructor.
    + rewrite status_429, Hlim, Hg. unfold checkRateLimit, kvGet, kv_get. simpl.
      by rewrite Hmem.
    + apply IH; [|done]. intros ident. by rewrite Hkeep.
Qed.

(** What is read under the rate-limit key of a client is nothing or a
    counter between 1 and the ceiling; no other value is there. *)
Definition counter_in_range (up : bool) (ident : string) (st : Store) : Prop :=
  match kvGet up (rate_key ident) st with
  | None => True
  | Some (VRateLimit c _) => 1 ≤ c ≤ maxRequests
  | Some (VSubmission _) | Some VRateLimitNaN => False
  end.

Lemma checkRateLimit_in_range up ident0 now ident st :
  counter_in_range up ident st → counter_in_range up ident0 st →
  counter_in_range up ident (checkRateLimit ident0 now up up st).2.
Proof.
  unfold counter_in_range at 1 3. intros Hin Hin0.
  assert (∀ c r, 1 ≤ c ≤ maxRequests →
            match kvGet up (rate_key ident)
                    (kvSet up (rate_key ident0) (VRateLimit c r) None st) with
            | None => True
            | Some (VRateLimit c' _) => 1 ≤ c' ≤ maxRequests
            | Some (VSubmission _) | Some VRateLimitNaN => False
            end) as Hset.
  { intros c r Hc. destruct (decide (rate_key ident = rate_key ident0)) as [->|Hne].
    - by rewrite kvGet_kvSet_eq.
    - by rewrite kvGet_kvSet_ne. }
  unfold checkRateLimit. unfold counter_in_range in Hin0.
  destruct (kvGet up (rate_key ident0) st) as [[rec|c r|]|]; simpl.
  - done.
  - destruct (r <? now); simpl; [apply (Hset 1); unfold maxRequests; lia|].
    destruct (maxRequests <=? c) eqn:Ec; simpl; [done|].
    apply Z.leb_gt in Ec. apply (Hset (c + 1)). lia.
  - done.
  - apply (Hset 1). unfold maxRequests. lia.
Qed.

(** X5. From a store whose rate-limit keys hold nothing but counters
    between 1 and the ceiling, and as long as the limiter finds the remote
    store in one state, whatever is served leaves every rate-limit key with
    no value or with a counter between 1 and the ceiling. *)
Theorem rate_counter_bounded `{Platform} up batch : ∀ st,
  (∀ ident, counter_in_range up ident st) →
  Forall (λ re, up_rate_get re.2 = up ∧ up_rate_set re.2 = up) batch →
  ∀ ident, counter_in_range up ident (serve batch st).2.
Proof.
  induction batch as [|[req env] batch IH]; intros st Hin Hall; simpl.
  - done.
  - apply Forall_cons in Hall as [[Hg Hs] Hall]. simpl in Hg, Hs.
    pose proof (λ ident, POST_counter req env st up ident) as Hcount.
    destruct (POST req env st) as [resp st1]. simpl in Hcount.
    specialize (IH st1). destruct (serve batch st1) as [resps st2]. simpl in *.
    apply IH; [|done]. intros ident. unfold counter_in_range.
    rewrite Hcount, Hg, Hs. by apply checkRateLimit_in_range.
Qed.

(** ** The client address *)

(** X6. With a non-empty [x-forwarded-for], the client is named by that header
    up to its first comma, as it stands; [x-real-ip] plays no part. *)
Theorem client_ip_forwarded req f :
  x_forwarded_for req = Some f → f ≠ "" →
  free_of "," (client_ip req) = true
  ∧ (f = client_ip req ∨ ∃ rest, f = client_ip req ++ String "," rest).
Proof.
  intros Hf Hne. unfold client_ip. rewrite Hf.
  destruct f as [|c f]; [done|]. change (Js.is_empty (String c f)) with false.
  cbv iota. pose proof (join_split "," (String c f)) as Hjoin.
  pose proof (split_pieces_free "," (String c f)) as Hfree.
  destruct (Js.split "," (String c f)) as [|w ws]; [done|].
  apply Forall_cons in Hfree as [Hw _]. simpl hd. split; [done|].
  destruct ws as [|w' ws]; simpl in Hjoin.
  - left. rewrite <- Hjoin. clear. induction w as [|a w IH]; simpl; congruence.
  - right. eexists. symmetry. exact Hjoin.
Qed.

(** ** What the schema accepts *)

Section Accepted.
Context `{Platform}.

Lemma z_string_value_inv f cks v s :
  value (z_string f cks v) = Some s →
  ∃ s0, v = Some (JString s0) ∧ s = (run_checks f cks s0).2.
Proof.
  unfold z_string. destruct v as [[| | |s0| |]|]; try discriminate.
  intros Hv. exists s0. split; [done|].
  destruct (run_checks f cks s0) as [found s']. simpl in *. by injection Hv as <-.
Qed.

(** A string key without [toLowerCase] yields the string it was given. *)
Lemma z_string_keeps f cks v s :
  (∀ ck, In ck cks → ck ≠ toLowerCase_check) →
  value (z_string f cks v) = Some s → v = Some (JString s).
Proof.
  intros Hcks Hv. apply z_string_value_inv in Hv as (s0 & -> & ->).
  by rewrite run_checks_same.
Qed.

Lemma z_literal_true_inv f msg v b :
  value (z_literal_true f msg v) = Some b → v = Some (JBool true) ∧ b = true.
Proof.
  unfold z_literal_true. destruct v as [[|[]| | | |]|]; try discriminate.
  by intros [= <-].
Qed.

Lemma z_number_inv f m1 lo m2 hi m3 v q :
  value (z_number_int_range f m1 lo m2 hi m3 v) = Some q → v = Some (JNumber q).
Proof.
  unfold z_number_int_range. destruct v as [[| |q0| | |]|]; try discriminate.
  by intros [= <-].
Qed.

(** An accepted body is an object with a value. *)
Lemma parse_inl_object now b d :
  parse now b = inl d →
  ∃ o, value (z_object now o) = Some d
       ∧ issues (RegistrationSchema now (Object o)) = []
       ∧ b = Object o.
Proof.
  intros Hp. apply parse_inl in Hp as [Hv Hi].
  destruct b as [v|o]; [by destruct v|].
  exists o. cbn [RegistrationSchema] in Hv. rewrite !refine_value in Hv. eauto.
Qed.

Ltac no_lower :=
  let ck := fresh in let Hin := fresh in
  intros ck Hin; cbn [In] in Hin;
  repeat (destruct Hin as [<-|Hin]; [discriminate|]); destruct Hin.

(** The values of the object under the keys of the shape, read off the
    record that the object parser yields. *)
Definition sent_as (o : gmap string JsValue) (d : RegistrationData) : Prop :=
  o !! "fullName" = Some (JString (fullName d))
  ∧ o !! "idOrPassport" = Some (JString (idOrPassport d))
  ∧ o !! "nationality" = Some (JString (nationality d))
  ∧ o !! "residenceStatus" = Some (JString (residenceStatus d))
  ∧ o !! "homeAddress" = Some (JString (homeAddress d))
  ∧ o !! "phone" = Some (JString (phone d))
  ∧ (∃ e, o !! "email" = Some (JString e) ∧ email d = Js.toLowerCase e)
  ∧ o !! "checkIn" = Some (JString (checkIn d))
  ∧ o !! "checkOut" = Some (JString (checkOut d))
  ∧ o !! "guests" = Some (JNumber (guests d))
  ∧ o !! "selfie" = Some (JString (selfie d))
  ∧ o !! "idImage" = Some (JString (idImage d))
  ∧ o !! "signature" = Some (JString (signature d))
  ∧ (o !! "popiaConsent" = Some (JBool true) ∧ popiaConsent d = true)
  ∧ (o !! "nonRefundAck" = Some (JBool true) ∧ nonRefundAck d = true).

Lemma z_object_fields now o d : value (z_object now o) = Some d → sent_as o d.
Proof.
  intros Hv. unfold z_object in Hv. cbn [value] in Hv.
  destruct (value (p_fullName o)) as [v1|] eqn:E1; [|discriminate].
  destruct (value (p_idOrPassport o)) as [v2|] eqn:E2; [|discriminate].
  destruct (value (p_nationality o)) as [v3|] eqn:E3; [|discriminate].
  destruct (value (p_residenceStatus o)) as [v4|] eqn:E4; [|discriminate].
  destruct (value (p_homeAddress o)) as [v5|] eqn:E5; [|discriminate].
  destruct (value (p_phone o)) as [v6|] eqn:E6; [|discriminate].
  destruct (value (p_email o)) as [v7|] eqn:E7; [|discriminate].
  destruct (value (p_checkIn now o)) as [v8|] eqn:E8; [|discriminate].
  destruct (value (p_checkOut o)) as [v9|] eqn:E9; [|discriminate].
  destruct (value (p_guests o)) as [v10|] eqn:E10; [|discriminate].
  destruct (value (p_selfie o)) as [v11|] eqn:E11; [|discriminate].
  destruct (value (p_idImage o)) as [v12|] eqn:E12; [|discriminate].
  destruct (value (p_signature o)) as [v13|] eqn:E13; [|discriminate].
  destruct (value (p_popiaConsent o)) as [v14|] eqn:E14; [|discriminate].
  destruct (value (p_nonRefundAck o)) as [v15|] eqn:E15; [|discriminate].
  cbn [mbind option_bind] in Hv. injection Hv as <-. unfold sent_as.
  cbn [fullName idOrPassport nationality residenceStatus homeAddress phone email
    checkIn checkOut guests selfie idImage signature popiaConsent nonRefundAck].
  unfold p_checkIn, p_selfie, p_idImage, p_signature in *.
  rewrite refine_value in E8, E11, E12, E13.
  apply z_string_keeps in E1, E2, E3, E4, E5, E6, E8, E9, E11, E12, E13;
    try no_lower.
  apply z_number_inv in E10. apply z_literal_true_inv in E14 as [E14 ->].
  apply z_literal_true_inv in E15 as [E15 ->].
  apply z_string_value_inv in E7 as (e & E7 & ->).
  repeat (split; [done|]). split.
  - exists e. split; [done|]. simpl. by destruct (zod_email e).
  - done.
Qed.

(** X7. The record that [parse] returns holds the values of the payload under
    the keys of the shape, as they were sent: no trimming, no conversion;
    only the e-mail address is lower-cased. Both consents are [true]. *)
Theorem parse_keeps_values now o d :
  parse now (Object o) = inl d →
  o !! "fullName" = Some (JString (fullName d))
  ∧ o !! "idOrPassport" = Some (JString (idOrPassport d))
  ∧ o !! "nationality" = Some (JString (nationality d))
  ∧ o !! "residenceStatus" = Some (JString (residenceStatus d))
  ∧ o !! "homeAddress" = Some (JString (homeAddress d))
  ∧ o !! "phone" = Some (JString (phone d))
  ∧ (∃ e, o !! "email" = Some (JString e) ∧ email d = Js.toLowerCase e)
  ∧ o !! "checkIn" = Some (JString (checkIn d))
  ∧ o !! "checkOut" = Some (JString (checkOut d))
  ∧ o !! "guests" = Some (JNumber (guests d))
  ∧ o !! "selfie" = Some (JString (selfie d))
  ∧ o !! "idImage" = Some (JString (idImage d))
  ∧ o !! "signature" = Some (JString (signature d))
  ∧ (o !! "popiaConsent" = Some (JBool true) ∧ popiaConsent d = true)
  ∧ (o !! "nonRefundAck" = Some (JBool true) ∧ nonRefundAck d = true).
Proof.
  intros Hp. apply parse_inl in Hp as [Hv _].
  cbn [RegistrationSchema] in Hv. rewrite !refine_value in Hv.
  exact (z_object_fields now o d Hv).
Qed.

(** X8. The stay of an accepted payload: both dates are read by the Date parser,
    check-in is after the time of validation, check-out after check-in, and
    at most 365 days after it. *)
Theorem accepted_stay now b d :
  parse now b = inl d →
  ∃ i t, Date_parse (checkIn d) = Some i ∧ Date_parse (checkOut d) = Some t
         ∧ now < i ∧ i < t ∧ t - i ≤ 365 * msPerDay.
Proof.
  intros Hp. apply parse_inl_object in Hp as (o & Hv & Hi & _).
  cbn [RegistrationSchema] in Hi.
  assert (checkOut_after_checkIn d = true ∧ stay_at_most_a_year d = true
          ∧ issues (z_object now o) = []) as (Hafter & Hyear & Hobj).
  { unfold refine in Hi at 1. rewrite refine_value, Hv in Hi.
    destruct (stay_at_most_a_year d); [|by destruct (issues (refine _ _ _ _))].
    unfold refine in Hi. rewrite Hv in Hi.
    destruct (checkOut_after_checkIn d); [done|]. by destruct (issues (z_object now o)). }
  assert (checkIn_in_future now (checkIn d) = true) as Hfuture.
  { apply z_object_value in Hv as (_ & _ & _ & Hci & _).
    unfold z_object in Hobj. cbn [issues] in Hobj.
    do 7 (apply app_eq_nil in Hobj as [_ Hobj]). apply app_eq_nil in Hobj as [Hobj _].
    unfold p_checkIn, refine in Hci, Hobj.
    destruct (value (z_string _ _ _)) as [ci|] eqn:E; [|by rewrite E in Hci].
    destruct (checkIn_in_future now ci) eqn:Ef.
    - rewrite E in Hci. by injection Hci as <-.
    - simpl in Hobj. by destruct (issues (z_string _ _ _)). }
  unfold checkOut_after_checkIn in Hafter. unfold stay_at_most_a_year in Hyear.
  unfold checkIn_in_future in Hfuture.
  destruct (Date_parse (checkIn d)) as [i|]; [|done].
  destruct (Date_parse (checkOut d)) as [t|]; [|done].
  exists i, t. apply Z.ltb_lt in Hfuture, Hafter. apply Z.leb_le in Hyear.
  apply ceil_div_le in Hyear; [|unfold msPerDay; lia].
  repeat (split; [done|]). lia.
Qed.

(** X9. The number of guests of an accepted payload is a whole number from 1
    to 20, and the document prints it in plain decimal digits. *)
Theorem accepted_guests now b d :
  parse now b = inl d →
  ∃ n : Z, 1 ≤ n ≤ 20 ∧ (guests d == inject_Z n)%Q
           ∧ Number_toString (guests d) = pretty n.
Proof.
  intros Hp. apply parse_inl_object in Hp as (o & Hv & Hi & _).
  cbn [RegistrationSchema] in Hi.
  assert (issues (z_object now o) = []) as Hobj.
  { destruct (issues (z_object now o)) as [|j l] eqn:E; [done|].
    assert (In j (issues (RegistrationSchema now (Object o)))) as Hin
      by (apply schema_keeps_object_issues; rewrite E; by left).
    cbn [RegistrationSchema] in Hin. by rewrite Hi in Hin. }
  assert (issues (p_guests o) = [] ∧ value (p_guests o) = Some (guests d))
    as [Hg Hgv].
  { split.
    - unfold z_object in Hobj. cbn [issues] in Hobj.
      do 9 (apply app_eq_nil in Hobj as [_ Hobj]). by apply app_eq_nil in Hobj as [Hobj _].
    - unfold z_object in Hv. cbn [value] in Hv.
      repeat match type of Hv with
      | context [value ?p] =>
          let E := fresh "E" in destruct (value p) eqn:E; [|discriminate];
          cbn [mbind option_bind] in Hv
      end.
      by injection Hv as <-. }
  unfold p_guests in Hg, Hgv. apply z_number_inv in Hgv as Hq. rewrite Hq in Hg.
  unfold z_number_int_range in Hg. cbn [issues] in Hg.
  set (q := guests d) in *.
  destruct (is_integer q) eqn:Eint; [|done]. simpl in Hg.
  destruct (Qltb q 1) eqn:Elo; [done|]. simpl in Hg.
  destruct (Qltb 20 q) eqn:Ehi; [done|]. clear Hg.
  unfold is_integer in Eint. apply Z.eqb_eq in Eint.
  unfold Qltb in Elo, Ehi. apply negb_false_iff, Qle_bool_iff in Elo, Ehi.
  assert (q == inject_Z (Qnum (Qred q)))%Q as Hn.
  { transitivity (Qred q); [symmetry; apply Qred_correct|].
    unfold Qeq, inject_Z. simpl. rewrite Eint. lia. }
  exists (Qnum (Qred q)).
  assert (1 ≤ Qnum (Qred q) ≤ 20) as Hrange.
  { rewrite Hn in Elo, Ehi. unfold Qle, inject_Z in Elo, Ehi.
    simpl in Elo, Ehi. lia. }
  split; [done|]. split; [done|].
  unfold Number_toString. fold q. rewrite Eint. simpl.
  assert ((Z.abs (Qnum (Qred q)) <? 10 ^ 21) = true) as -> by (apply Z.ltb_lt; lia).
  done.
Qed.

(** The keys of the shape and the message for a missing one. *)
Definition required_messages : list (string * string) :=
  [ ("fullName", "Required"); ("idOrPassport", "Required");
    ("nationality", "Required"); ("residenceStatus", "Required");
    ("homeAddress", "Required"); ("phone", "Required"); ("email", "Required");
    ("checkIn", "Required"); ("checkOut", "Required"); ("guests", "Required");
    ("selfie", "Required"); ("idImage", "Required"); ("signature", "Required");
    ("popiaConsent", "POPIA consent is required");
    ("nonRefundAck", "Non-refund policy acknowledgment is required") ].

(** X10. A payload that lacks a key of the shape is rejected, and the issues
    name that key with its message. *)
Theorem missing_key_reported now o k m :
  In (k, m) required_messages → o !! k = None →
  ∃ found, parse now (Object o) = inr found
           ∧ In {| field := k; message := m |} found.
Proof.
  intros Hin Hk.
  assert (In {| field := k; message := m |} (issues (z_object now o))) as Hobj.
  { unfold z_object. cbn [issues]. rewrite !in_app_iff.
    unfold required_messages in Hin. cbn [In] in Hin.
    unfold p_fullName, p_idOrPassport, p_nationality, p_residenceStatus,
      p_homeAddress, p_phone, p_email, p_checkIn, p_checkOut, p_guests, p_selfie,
      p_idImage, p_signature, p_popiaConsent, p_nonRefundAck.
    repeat (destruct Hin as [[= <- <-]|Hin];
            [rewrite Hk; cbn; tauto|]).
    destruct Hin. }
  apply schema_keeps_object_issues in Hobj.
  exists (issues (RegistrationSchema now (Object o))). split; [|done].
  by apply (parse_throws now (Object o) _ Hobj).
Qed.

End Accepted.

(** ** The registration form ([app/register/page.tsx])

    The page keeps the entries in [formData], validates them with its own
    [FormSchema], and posts the validated record to the submission
    endpoint. *)

Definition requiredFields : list string :=
  [ "fullName"; "idOrPassport"; "nationality"; "residenceStatus"; "homeAddress";
    "phone"; "email"; "checkIn"; "checkOut"; "guests"; "selfie"; "idImage";
    "signature"; "popiaConsent"; "nonRefundAck" ].

(** [value !== undefined && value !== '' && value !== false] *)
Definition is_completed (formData : gmap string JsValue) (f : string) : bool :=
  match formData !! f with
  | None => false
  | Some (JString s) => negb (Js.is_empty s)
  | Some (JBool b) => b
  | Some _ => true
  end.

Definition completedFields (formData : gmap string JsValue) : list string :=
  List.filter (is_completed formData) requiredFields.

(** [Math.round]: the nearest integer, a half upwards. *)
Definition Math_round (q : Q) : Z := Qfloor (q + (1 # 2)).

(** [Math.round((completedFields.length / requiredFields.length) * 100)].
    The quotients are taken exactly: the doubles of the source are within
    1e-13 of them, and none of the sixteen exact values is nearer than 1/6
    to a half. *)
Definition progressPercentage (formData : gmap string JsValue) : Z :=
  Math_round (inject_Z (Z.of_nat (length (completedFields formData)))
              / inject_Z (Z.of_nat (length requiredFields)) * 100).

(** The button that submits is disabled while a submission is under way or
    the progress is below 100. *)
Definition submit_disabled (isSubmitting : bool) (formData : gmap string JsValue) : bool :=
  isSubmitting || (progressPercentage formData <? 100).

(** The record as [JSON.stringify(validatedData)] sends it and
    [request.json()] reads it. *)
Definition to_payload (d : RegistrationData) : gmap string JsValue :=
  list_to_map
    [ ("fullName", JString (fullName d));
      ("idOrPassport", JString (idOrPassport d));
      ("nationality", JString (nationality d));
      ("residenceStatus", JString (residenceStatus d));
      ("homeAddress", JString (homeAddress d));
      ("phone", JString (phone d));
      ("email", JString (email d));
      ("checkIn", JString (checkIn d));
      ("checkOut", JString (checkOut d));
      ("guests", JNumber (guests d));
      ("selfie", JString (selfie d));
      ("idImage", JString (idImage d));
      ("signature", JString (signature d));
      ("popiaConsent", JBool (popiaConsent d));
      ("nonRefundAck", JBool (nonRefundAck d)) ].

(** The record with another e-mail address. *)
Definition with_email (e : string) (d : RegistrationData) : RegistrationData :=
  {| fullName := fullName d; idOrPassport := idOrPassport d;
     nationality := nationality d; residenceStatus := residenceStatus d;
     homeAddress := homeAddress d; phone := phone d; email := e;
     checkIn := checkIn d; checkOut := checkOut d; guests := guests d;
     selfie := selfie d; idImage := idImage d; signature := signature d;
     popiaConsent := popiaConsent d; nonRefundAck := nonRefundAck d |}.

(** What [handleSubmit] makes of the [details] of a 400: one message per
    field, a later entry replacing an earlier one. *)
Definition fieldErrors (details : list ZodIssue) : gmap string string :=
  fold_left (λ errs e, <[field e := message e]> errs) details ∅.

Section Form.
Context `{Platform}.

(** The keys of [FormSchema] that differ from the server's: no lower-casing
    of the address, no refinement of the three images. *)
Definition f_email (o : gmap string JsValue) : Parsed string :=
  z_string "email"
    [ email_check "Invalid email address";
      max_len 100 "Email must be less than 100 characters" ]
    (o !! "email").

Definition f_selfie (o : gmap string JsValue) : Parsed string :=
  z_string "selfie" [ min_len 10 "Selfie is required" ] (o !! "selfie").

Definition f_idImage (o : gmap string JsValue) : Parsed string :=
  z_string "idImage" [ min_len 10 "ID/Passport image is required" ] (o !! "idImage").

Definition f_signature (o : gmap string JsValue) : Parsed string :=
  z_string "signature" [ min_len 10 "Digital signature is required" ]
    (o !! "signature").

Definition form_object (now : Z) (o : gmap string JsValue) : Parsed RegistrationData :=
  {| issues :=
       issues (p_fullName o) ++ issues (p_idOrPassport o) ++ issues (p_nationality o)
       ++ issues (p_residenceStatus o) ++ issues (p_homeAddress o) ++ issues (p_phone o)
       ++ issues (f_email o) ++ issues (p_checkIn now o) ++ issues (p_checkOut o)
       ++ issues (p_guests o) ++ issues (f_selfie o) ++ issues (f_idImage o)
       ++ issues (f_signature o) ++ issues (p_popiaConsent o) ++ issues (p_nonRefundAck o);
     value :=
       v1 ← value (p_fullName o); v2 ← value (p_idOrPassport o);
       v3 ← value (p_nationality o); v4 ← value (p_residenceStatus o);
       v5 ← value (p_homeAddress o); v6 ← value (p_phone o);
       v7 ← value (f_email o); v8 ← value (p_checkIn now o);
       v9 ← value (p_checkOut o); v10 ← value (p_guests o);
       v11 ← value (f_selfie o); v12 ← value (f_idImage o);
       v13 ← value (f_signature o); v14 ← value (p_popiaConsent o);
       v15 ← value (p_nonRefundAck o);
       Some {| fullName := v1; idOrPassport := v2; nationality := v3;
               residenceStatus := v4; homeAddress := v5; phone := v6;
               email := v7; checkIn := v8; checkOut := v9; guests := v10;
               selfie := v11; idImage := v12; signature := v13;
               popiaConsent := v14; nonRefundAck := v15 |} |}.

(** [FormSchema] on the state of the form, with the same two cross-field
    refinements as the server. *)
Definition FormSchema (now : Z) (formData : gmap string JsValue)
    : Parsed RegistrationData :=
  refine "checkOut" stay_at_most_a_year msg_year
    (refine "checkOut" checkOut_after_checkIn msg_after (form_object now formData)).

(** [FormSchema.parse(formData)] *)
Definition form_parse (now : Z) (formData : gmap string JsValue)
    : RegistrationData + list ZodIssue :=
  let p := FormSchema now formData in
  match value p, issues p with
  | Some d, [] => inl d
  | _, found => inr found
  end.

End Form.

Lemma to_payload_sent d :
  to_payload d !! "fullName" = Some (JString (fullName d))
  ∧ to_payload d !! "idOrPassport" = Some (JString (idOrPassport d))
  ∧ to_payload d !! "nationality" = Some (JString (nationality d))
  ∧ to_payload d !! "residenceStatus" = Some (JString (residenceStatus d))
  ∧ to_payload d !! "homeAddress" = Some (JString (homeAddress d))
  ∧ to_payload d !! "phone" = Some (JString (phone d))
  ∧ to_payload d !! "email" = Some (JString (email d))
  ∧ to_payload d !! "checkIn" = Some (JString (checkIn d))
  ∧ to_payload d !! "checkOut" = Some (JString (checkOut d))
  ∧ to_payload d !! "guests" = Some (JNumber (guests d))
  ∧ to_payload d !! "selfie" = Some (JString (selfie d))
  ∧ to_payload d !! "idImage" = Some (JString (idImage d))
  ∧ to_payload d !! "signature" = Some (JString (signature d))
  ∧ to_payload d !! "popiaConsent" = Some (JBool (popiaConsent d))
  ∧ to_payload d !! "nonRefundAck" = Some (JBool (nonRefundAck d)).
Proof. repeat split; reflexivity. Qed.

(** ** The form's schema and the server's *)

Definition as_string (v : option JsValue) : option string :=
  match v with Some (JString s) => Some s | _ => None end.

(** The record as the form has it: the address as it was typed. *)
Definition raw_email (o : gmap string JsValue) (d : RegistrationData) : RegistrationData :=
  match o !! "email" with
  | Some (JString e) => with_email e d
  | _ => d
  end.


(** Two objects with the same values under the keys of the shape. *)
Definition same_entries (o o' : gmap string JsValue) : Prop :=
  Forall (λ k, o !! k = o' !! k) requiredFields.

Section FormFacts.
Context `{Platform}.


Lemma z_string_value f cks v :
  value (z_string f cks v) = (λ s, (run_checks f cks s).2) <$> as_string v.
Proof.
  unfold z_string. destruct v as [[| | |s| |]|]; try done.
  simpl. by destruct (run_checks f cks s).
Qed.

Lemma z_string_value_same f cks v :
  (∀ ck, In ck cks → ck ≠ toLowerCase_check) →
  value (z_string f cks v) = as_string v.
Proof.
  intros Hcks. rewrite z_string_value. destruct (as_string v) as [s|]; [|done].
  simpl. by rewrite run_checks_same.
Qed.

Lemma email_value o : value (p_email o) = Js.toLowerCase <$> value (f_email o).
Proof.
  unfold p_email, f_email. rewrite !z_string_value.
  destruct (as_string (o !! "email")) as [e|]; [|done]. simpl.
  by destruct (zod_email e).
Qed.


Ltac no_lower :=
  let ck := fresh in let Hin := fresh in
  intros ck Hin; cbn [In] in Hin;
  repeat (destruct Hin as [<-|Hin]; [discriminate|]); destruct Hin.

(** The form and the server read the same record off an object, the
    address apart. *)
Lemma form_value now_c now_s o :
  value (form_object now_c o) = raw_email o <$> value (z_object now_s o).
Proof.
  unfold form_object, z_object. cbn [value]. rewrite email_value.
  unfold raw_email, f_email, p_fullName, p_idOrPassport, p_nationality,
    p_residenceStatus, p_homeAddress, p_phone, p_checkIn, p_checkOut, p_guests,
    p_selfie, p_idImage, p_signature, f_selfie, f_idImage, f_signature.
  rewrite !refine_value. rewrite !z_string_value_same by no_lower.
  destruct (o !! "fullName") as [[| | |v1| |]|]; try done.
  destruct (o !! "idOrPassport") as [[| | |v2| |]|]; try done.
  destruct (o !! "nationality") as [[| | |v3| |]|]; try done.
  destruct (o !! "residenceStatus") as [[| | |v4| |]|]; try done.
  destruct (o !! "homeAddress") as [[| | |v5| |]|]; try done.
  destruct (o !! "phone") as [[| | |v6| |]|]; try done.
  destruct (o !! "email") as [[| | |v7| |]|]; try done.
  destruct (o !! "checkIn") as [[| | |v8| |]|]; try done.
  destruct (o !! "checkOut") as [[| | |v9| |]|]; try done.
  cbn [as_string fmap option_fmap option_map mbind option_bind].
  destruct (value (z_number_int_range _ _ _ _ _ _ _)) as [v10|]; [|done].
  destruct (as_string (o !! "selfie")) as [v11|]; [|done].
  destruct (as_string (o !! "idImage")) as [v12|]; [|done].
  destruct (as_string (o !! "signature")) as [v13|]; [|done].
  destruct (value (p_popiaConsent o)) as [v14|]; [|done].
  by destruct (value (p_nonRefundAck o)) as [v15|].
Qed.








Lemma form_parse_inl now o d :
  form_parse now o = inl d
  ↔ value (form_object now o) = Some d ∧ issues (FormSchema now o) = [].
Proof.
  unfold form_parse.
  assert (value (FormSchema now o) = value (form_object now o)) as ->
    by (unfold FormSchema; by rewrite !refine_value).
  destruct (value (form_object now o)) as [d'|], (issues (FormSchema now o)) as [|j l];
    split; try done; try (by intros [? ?]).
  - by intros [= ->].
  - by intros [[= ->] _].
Qed.



End FormFacts.

Section FormSubmits.
Context `{Platform}.


(** What the form posts has the entries of the form that its schema read. *)
Lemma form_payload_same now o d :
  value (form_object now o) = Some d → same_entries (to_payload d) o.
Proof.
  rewrite (form_value now now). intros Hv.
  destruct (value (z_object now o)) as [d0|] eqn:E; [|done]. injection Hv as <-.
  destruct (z_object_fields now o d0 E)
    as (H1 & H2 & H3 & H4 & H5 & H6 & (e & H7 & _) & H8 & H9 & H10 & H11 & H12
        & H13 & [H14 H14'] & [H15 H15']).
  unfold raw_email. rewrite H7. unfold same_entries, requiredFields.
  assert (o !! "popiaConsent" = Some (JBool (popiaConsent d0))) as H14''
    by (by rewrite H14').
  assert (o !! "nonRefundAck" = Some (JBool (nonRefundAck d0))) as H15''
    by (by rewrite H15').
  clear H14 H15.
  repeat (apply Forall_cons; split;
          [first [rewrite H1|rewrite H2|rewrite H3|rewrite H4|rewrite H5|rewrite H6
                 |rewrite H7|rewrite H8|rewrite H9|rewrite H10|rewrite H11
                 |rewrite H12|rewrite H13|rewrite H14''|rewrite H15'']; reflexivity|]).
  constructor.
Qed.


End FormSubmits.

(** ** The messages the form shows *)

(** X13. Of the [details] of a rejection the form keeps, for each field, the
    message of the last entry that names it. *)
Theorem fieldErrors_last details f :
  fieldErrors details !! f
  = last (message <$> filter (λ i, field i = f) details).
Proof.
  unfold fieldErrors. induction details as [|x l IH] using rev_ind; [done|].
  rewrite fold_left_app, filter_app, fmap_app. simpl.
  destruct (decide (field x = f)) as [<-|Hne].
  - rewrite lookup_insert_eq, filter_cons_True by done. simpl. by rewrite last_snoc.
  - rewrite lookup_insert_ne, filter_cons_False by done. simpl.
    by rewrite app_nil_r.
Qed.

(** ** The progress of the form *)

Lemma filter_length_all {A} (p : A → bool) (l : list A) :
  (length (List.filter p l) ≤ length l)%nat
  ∧ (length (List.filter p l) = length l ↔ Forall (λ x, p x = true) l).
Proof.
  induction l as [|a l [IHle IH]]; simpl.
  - split; [lia|]. split; [by constructor|done].
  - destruct (p a) eqn:E; simpl.
    + split; [lia|]. rewrite Forall_cons. split.
      * intros [= Hl]. split; [done|]. by apply IH.
      * intros [_ Hl]. f_equal. by apply IH.
    + split; [lia|]. rewrite Forall_cons. split; [lia|]. intros [? _]. congruence.
Qed.

Lemma progress_of (n : nat) :
  (n ≤ 15)%nat →
  0 ≤ Math_round (inject_Z (Z.of_nat n) / inject_Z (Z.of_nat 15) * 100) ≤ 100
  ∧ (Math_round (inject_Z (Z.of_nat n) / inject_Z (Z.of_nat 15) * 100) = 100
     ↔ n = 15%nat).
Proof.
  intros Hn.
  do 16 (destruct n as [|n];
         [vm_compute; split; [split; discriminate|]; split; congruence|]).
  lia.
Qed.

Lemma progress_full formData :
  0 ≤ progressPercentage formData ≤ 100
  ∧ (progressPercentage formData = 100
     ↔ Forall (λ f, is_completed formData f = true) requiredFields).
Proof.
  unfold progressPercentage, completedFields.
  destruct (filter_length_all (is_completed formData) requiredFields) as [Hle Hall].
  destruct (progress_of _ Hle) as [Hrange Hfull].
  split; [exact Hrange|]. etransitivity; [exact Hfull | exact Hall].
Qed.

(** X14. The progress is 100 exactly when each of the fifteen fields holds
    something other than the empty string and [false]; only then, and while
    no submission is under way, can the form be submitted. *)
Theorem progress_complete isSubmitting formData :
  0 ≤ progressPercentage formData ≤ 100
  ∧ (progressPercentage formData = 100
     ↔ Forall (λ f, is_completed formData f = true) requiredFields)
  ∧ (submit_disabled isSubmitting formData = false
     ↔ isSubmitting = false
       ∧ Forall (λ f, is_completed formData f = true) requiredFields).
Proof.
  destruct (progress_full formData) as [Hrange Hfull].
  split; [exact Hrange|]. split; [exact Hfull|].
  unfold submit_disabled. rewrite orb_false_iff, Z.ltb_ge.
  destruct Hfull as [Hf1 Hf2]. split.
  - intros [-> Hp]. split; [reflexivity|]. apply Hf1. lia.
  - intros [-> Hall]. split; [reflexivity|]. rewrite (Hf2 Hall). lia.
Qed.

Lemma min_len_nonempty `{Platform} f n msg cks s :
  (1 ≤ n)%nat →
  issues (z_string f (min_len n msg :: cks) (Some (JString s))) = [] →
  Js.is_empty s = false.
Proof.
  intros Hn. destruct s as [|c s]; [|done]. unfold z_string. cbn [run_checks run_check].
  destruct (run_checks f cks "") as [more s2]. destruct n as [|n]; [lia|]. done.
Qed.

(** X15. A state that the form's schema accepts is complete: validity implies
    that the form can be submitted. The e-mail grammar is taken to refuse
    the empty string. *)
Theorem valid_form_complete `{Platform} now formData d :
  zod_email "" = false →
  form_parse now formData = inl d →
  progressPercentage formData = 100 ∧ submit_disabled false formData = false.
Proof.
  intros Hmail Hform.
  enough (Forall (λ f, is_completed formData f = true) requiredFields) as Hall.
  { destruct (progress_full formData) as [_ Hp]. unfold submit_disabled.
    rewrite (proj2 Hp Hall). by split. }
  apply form_parse_inl in Hform as [Hv Hi].
  pose proof (form_payload_same _ _ _ Hv) as Hsame.
  unfold FormSchema in Hi. do 2 apply refine_issues_nil in Hi.
  unfold form_object in Hi. cbn [issues] in Hi.
  apply app_eq_nil in Hi as [K1 Hi]. apply app_eq_nil in Hi as [K2 Hi].
  apply app_eq_nil in Hi as [K3 Hi]. apply app_eq_nil in Hi as [K4 Hi].
  apply app_eq_nil in Hi as [K5 Hi]. apply app_eq_nil in Hi as [K6 Hi].
  apply app_eq_nil in Hi as [K7 Hi]. apply app_eq_nil in Hi as [K8 Hi].
  apply app_eq_nil in Hi as [K9 Hi]. apply app_eq_nil in Hi as [_ Hi].
  apply app_eq_nil in Hi as [K11 Hi]. apply app_eq_nil in Hi as [K12 Hi].
  apply app_eq_nil in Hi as [K13 _]. apply refine_issues_nil in K8.
  unfold same_entries, requiredFields in Hsame.
  destruct (to_payload_sent d) as (S1 & S2 & S3 & S4 & S5 & S6 & S7 & S8 & S9 & S10
                                   & S11 & S12 & S13 & S14 & S15).
  apply Forall_cons in Hsame as [E1 Hsame]. apply Forall_cons in Hsame as [E2 Hsame].
  apply Forall_cons in Hsame as [E3 Hsame]. apply Forall_cons in Hsame as [E4 Hsame].
  apply Forall_cons in Hsame as [E5 Hsame]. apply Forall_cons in Hsame as [E6 Hsame].
  apply Forall_cons in Hsame as [E7 Hsame]. apply Forall_cons in Hsame as [E8 Hsame].
  apply Forall_cons in Hsame as [E9 Hsame]. apply Forall_cons in Hsame as [E10 Hsame].
  apply Forall_cons in Hsame as [E11 Hsame]. apply Forall_cons in Hsame as [E12 Hsame].
  apply Forall_cons in Hsame as [E13 Hsame]. apply Forall_cons in Hsame as [E14 Hsame].
  apply Forall_cons in Hsame as [E15 _].
  rewrite S1 in E1. rewrite S2 in E2. rewrite S3 in E3. rewrite S4 in E4.
  rewrite S5 in E5. rewrite S6 in E6. rewrite S7 in E7. rewrite S8 in E8.
  rewrite S9 in E9. rewrite S10 in E10. rewrite S11 in E11. rewrite S12 in E12.
  rewrite S13 in E13. rewrite S14 in E14. rewrite S15 in E15.
  clear S1 S2 S3 S4 S5 S6 S7 S8 S9 S10 S11 S12 S13 S14 S15.
  unfold p_fullName in K1. unfold p_idOrPassport in K2. unfold p_nationality in K3.
  unfold p_residenceStatus in K4. unfold p_homeAddress in K5. unfold p_phone in K6.
  unfold f_email in K7. unfold p_checkOut in K9. unfold f_selfie in K11.
  unfold f_idImage in K12. unfold f_signature in K13.
  rewrite <- E1 in K1. rewrite <- E2 in K2. rewrite <- E3 in K3. rewrite <- E4 in K4.
  rewrite <- E5 in K5. rewrite <- E6 in K6. rewrite <- E7 in K7. rewrite <- E8 in K8.
  rewrite <- E9 in K9. rewrite <- E11 in K11. rewrite <- E12 in K12.
  rewrite <- E13 in K13.
  apply min_len_nonempty in K1, K2, K3, K4, K5, K6, K8, K9, K11, K12, K13; try lia.
  assert (Js.is_empty (email d) = false) as K7'.
  { destruct (email d) as [|c e]; [|done]. unfold z_string in K7.
    cbn [run_checks run_check] in K7. rewrite Hmail in K7. discriminate. }
  assert (popiaConsent d = true ∧ nonRefundAck d = true) as [C1 C2].
  { rewrite (form_value now now) in Hv.
    destruct (value (z_object now formData)) as [d0|] eqn:E0; [|done].
    injection Hv as <-.
    destruct (z_object_fields now formData d0 E0)
      as (_ & _ & _ & _ & _ & _ & _ & _ & _ & _ & _ & _ & _ & [_ ?] & [_ ?]).
    unfold raw_email. by destruct (formData !! "email") as [[| | |e| |]|]. }
  unfold is_completed.
  repeat (apply Forall_cons; split;
          [first [rewrite <- E1, K1|rewrite <- E2, K2|rewrite <- E3, K3
                 |rewrite <- E4, K4|rewrite <- E5, K5|rewrite <- E6, K6
                 |rewrite <- E7, K7'|rewrite <- E8, K8|rewrite <- E9, K9
                 |rewrite <- E10|rewrite <- E11, K11|rewrite <- E12, K12
                 |rewrite <- E13, K13|rewrite <- E14, C1|rewrite <- E15, C2];
           reflexivity|]).
  constructor.
Qed.

(** ** The shape of an identifier *)

(** A block of [n] hexadecimal digits, in either case. *)
Definition hex_block (n : nat) (s : string) : Prop :=
  String.length s = n ∧ Js.all_chars Js.is_hex s = true.

Lemma hex_run_spec n : ∀ s rest,
  hex_run n s = Some rest ↔ ∃ pre, s = pre ++ rest ∧ hex_block n pre.
Proof.
  unfold hex_block. induction n as [|n IH]; intros s rest; simpl.
  - split.
    + intros [= ->]. by exists "".
    + intros (pre & -> & Hlen & _). by destruct pre.
  - destruct s as [|c s].
    + split; [done|]. intros ([|c pre] & Hs & Hlen & _); [done|]. discriminate.
    + destruct (Js.is_hex c) eqn:Ec.
      * rewrite IH. split.
        -- intros (pre & -> & Hlen & Hall). exists (String c pre). simpl.
           rewrite Ec. auto.
        -- intros ([|c' pre] & Hs & Hlen & Hall); [done|]. simpl in *.
           injection Hs as <- ->. rewrite Ec in Hall. exists pre. auto.
      * split; [done|]. intros ([|c' pre] & Hs & Hlen & Hall); [done|].
        simpl in *. injection Hs as <- ->. by rewrite Ec in Hall.
Qed.

Lemma dash_spec s rest : dash s = Some rest ↔ s = String "-" rest.
Proof.
  unfold dash. destruct s as [|c s]; [done|].
  destruct (Js.charCode c =? 45) eqn:E.
  - apply (charCode_eqb c "-") in E as ->. split; congruence.
  - split; [done|]. intros [= -> ->]. done.
Qed.

(** X16. [isValidUUID] accepts exactly five blocks of 8, 4, 4, 4 and 12
    hexadecimal digits, upper or lower case, joined by hyphens; the version
    and variant digits are not looked at. *)
Theorem isValidUUID_shape s :
  isValidUUID s = true
  ↔ ∃ a b c d e,
      s = a ++ "-" ++ b ++ "-" ++ c ++ "-" ++ d ++ "-" ++ e
      ∧ hex_block 8 a ∧ hex_block 4 b ∧ hex_block 4 c ∧ hex_block 4 d
      ∧ hex_block 12 e.
Proof.
  unfold isValidUUID. split.
  - destruct (hex_run 8 s) as [s1|] eqn:E1; [|done]. cbn [mbind option_bind].
    destruct (dash s1) as [s2|] eqn:E2; [|done]. cbn [mbind option_bind].
    destruct (hex_run 4 s2) as [s3|] eqn:E3; [|done]. cbn [mbind option_bind].
    destruct (dash s3) as [s4|] eqn:E4; [|done]. cbn [mbind option_bind].
    destruct (hex_run 4 s4) as [s5|] eqn:E5; [|done]. cbn [mbind option_bind].
    destruct (dash s5) as [s6|] eqn:E6; [|done]. cbn [mbind option_bind].
    destruct (hex_run 4 s6) as [s7|] eqn:E7; [|done]. cbn [mbind option_bind].
    destruct (dash s7) as [s8|] eqn:E8; [|done]. cbn [mbind option_bind].
    destruct (hex_run 12 s8) as [rest|] eqn:E9; [|done].
    destruct rest as [|? ?]; [|done]. intros _.
    apply hex_run_spec in E1 as (a & -> & Ha). apply dash_spec in E2 as ->.
    apply hex_run_spec in E3 as (b & -> & Hb). apply dash_spec in E4 as ->.
    apply hex_run_spec in E5 as (c & -> & Hc). apply dash_spec in E6 as ->.
    apply hex_run_spec in E7 as (d & -> & Hd). apply dash_spec in E8 as ->.
    apply hex_run_spec in E9 as (e & -> & He).
    exists a, b, c, d, e. split; [|done].
    assert (e ++ "" = e) as -> by (clear; induction e; simpl; congruence). done.
  - intros (a & b & c & d & e & -> & Ha & Hb & Hc & Hd & He).
    assert (∀ n pre rest, hex_block n pre → hex_run n (pre ++ rest) = Some rest) as Hrun
      by (intros n pre rest Hp; apply hex_run_spec; eauto).
    assert (∀ rest, dash ("-" ++ rest) = Some rest) as Hdash
      by (intros rest; by apply dash_spec).
    rewrite (Hrun 8%nat a _ Ha). cbn [mbind option_bind]. rewrite Hdash.
    cbn [mbind option_bind].
    rewrite (Hrun 4%nat b _ Hb). cbn [mbind option_bind]. rewrite Hdash.
    cbn [mbind option_bind].
    rewrite (Hrun 4%nat c _ Hc). cbn [mbind option_bind]. rewrite Hdash.
    cbn [mbind option_bind].
    rewrite (Hrun 4%nat d _ Hd). cbn [mbind option_bind]. rewrite Hdash.
    cbn [mbind option_bind].
    assert (e = e ++ "") as Hee by (clear; induction e; simpl; congruence).
    rewrite Hee at 1. by rewrite (Hrun 12%nat e "" He).
Qed.

(** ** From submission to the success page *)

Section SubmitPage.
Context `{Platform}.

(** X17. The success page finds the record of a submission that was answered
    201, with the data as validated, the time of creation and the address of
    the client, provided the identifier has the canonical shape and was not
    in the remote store, and the remote store answers the page if it took
    the write. *)
Theorem submit_then_success_page req env up st payload d :
  (checkRateLimit (client_ip req) (now_rate env) (up_rate_get env)
     (up_rate_set env) st).1 = true →
  body req = Some payload →
  parse (now_validate env) payload = inl d →
  detectSpamPatterns d = false →
  isValidUUID (randomUUID env) = true →
  remote st !! guest_key (randomUUID env) = None →
  (up_persist env = true → up = true) →
  ∃ s, SuccessPage (randomUUID env) up (POST req env st).2 = SuccessView s
       ∧ id s = randomUUID env ∧ data s = d ∧ createdAt s = now_created env
       ∧ ip (metadata s) = client_ip req.
Proof.
  intros Hok Hbody Hparse Hspam Hid Hfresh Hup.
  pose proof (checkRateLimit_remote_guest (client_ip req) (now_rate env)
                (up_rate_get env) (up_rate_set env) (randomUUID env) st) as Hrem.
  rewrite Hfresh in Hrem. unfold POST.
  destruct (checkRateLimit _ _ _ _ st) as [ok st1]. simpl in Hok, Hrem. subst ok.
  cbn [negb]. cbv iota. rewrite Hbody, Hparse, Hspam. cbn [snd].
  unfold SuccessPage.
  rewrite (isValidUUID_not_empty _ Hid), Hid. cbn [negb orb].
  rewrite (read_after_persist _ _ _ _ _ _ Hrem Hup). by eexists.
Qed.

End SubmitPage.

(** ** Where the records of the store come from *)

(** The store holds nothing under the key of a guest record. *)
Definition no_guest_records (st : Store) : Prop :=
  ∀ ident, remote st !! guest_key ident = None ∧ memory st !! guest_key ident = None.

Lemma guest_key_inj a b : guest_key a = guest_key b → a = b.
Proof. unfold guest_key. simpl. by intros [= ->]. Qed.

Lemma checkRateLimit_memory_guest ident0 now g s ident st :
  memory (checkRateLimit ident0 now g s st).2 !! guest_key ident
  = memory st !! guest_key ident.
Proof.
  assert (∀ v e, memory (kvSet s (rate_key ident0) v e st) !! guest_key ident
                 = memory st !! guest_key ident) as Hset.
  { intros v e. unfold kvSet, kv_set. destruct s; simpl; [done|].
    apply lookup_insert_ne, rate_key_not_guest_key. }
  unfold checkRateLimit.
  destruct (kvGet g (rate_key ident0) st) as [[rec|c r|]|]; simpl; auto.
  destruct (r <? now); simpl; auto.
  destruct (maxRequests <=? c); simpl; auto.
Qed.

Section Provenance.
Context `{Platform}.

(** The record [s] is the one that [POST] writes for the request [re]:
    the body of the request passed the schema and the spam check, and the
    record has the validated data, the identifier drawn for the request,
    its time of creation and the address of its client. *)
Definition written_for (re : Request * Env) (s : SubmissionRecord) : Prop :=
  ∃ payload, body re.1 = Some payload
    ∧ parse (now_validate re.2) payload = inl (data s)
    ∧ detectSpamPatterns (data s) = false
    ∧ id s = randomUUID re.2
    ∧ createdAt s = now_created re.2
    ∧ ip (metadata s) = client_ip re.1.

(** Whatever the store holds under the key of a guest record was written
    for a request of [batch] that drew the identifier of the key. *)
Definition guest_records_from (batch : list (Request * Env)) (st : Store) : Prop :=
  ∀ ident v,
    entry_value <$> remote st !! guest_key ident = Some v
    ∨ memory st !! guest_key ident = Some v →
    ∃ s re, v = VSubmission s ∧ In re batch ∧ randomUUID re.2 = ident
            ∧ written_for re s.

Lemma POST_guest_records served req env st :
  guest_records_from served st →
  guest_records_from (served ++ [(req, env)]) (POST req env st).2.
Proof.
  intros Hinv.
  assert (∀ st', (∀ ident, remote st' !! guest_key ident = remote st !! guest_key ident)
                 → (∀ ident, memory st' !! guest_key ident = memory st !! guest_key ident)
                 → guest_records_from (served ++ [(req, env)]) st') as Hsame.
  { intros st' Hr Hm ident v. rewrite Hr, Hm. intros Hv.
    destruct (Hinv ident v Hv) as (s & re & -> & Hin & Hid & Hw).
    exists s, re. rewrite in_app_iff. auto. }
  pose proof (λ ident, checkRateLimit_remote_guest (client_ip req) (now_rate env)
                (up_rate_get env) (up_rate_set env) ident st) as Hr.
  pose proof (λ ident, checkRateLimit_memory_guest (client_ip req) (now_rate env)
                (up_rate_get env) (up_rate_set env) ident st) as Hm.
  unfold POST.
  destruct (checkRateLimit _ _ _ _ st) as [ok st1]. simpl in Hr, Hm.
  destruct ok; cbn [negb]; cbv iota; [|by apply Hsame].
  destruct (body req) as [payload|] eqn:Hbody; [|by apply Hsame].
  destruct (parse _ payload) as [d|found] eqn:Hparse; [|by apply Hsame].
  destruct (detectSpamPatterns d) eqn:Hspam; [by apply Hsame|]. cbn [snd].
  set (sub := {| id := randomUUID env; createdAt := now_created env; data := d;
                 metadata := _ |}).
  assert (written_for (req, env) sub) as Hw by (exists payload; by repeat split).
  intros ident v Hv.
  destruct (decide (ident = randomUUID env)) as [->|Hne].
  - assert (v = VSubmission sub
            ∨ (entry_value <$> remote st !! guest_key (randomUUID env) = Some v
               ∨ memory st !! guest_key (randomUUID env) = Some v)) as [->|Hold].
    { unfold kvSet, kv_set in Hv. destruct (up_persist env); simpl in Hv;
        rewrite lookup_insert_eq in Hv; simpl in Hv.
      - destruct Hv as [[= <-]|Hv]; [by left|]. right. right. by rewrite <- Hm.
      - destruct Hv as [Hv|[= <-]]; [|by left]. right. left. by rewrite <- Hr. }
    + exists sub, (req, env). rewrite in_app_iff. simpl. auto.
    + destruct (Hinv _ v Hold) as (s & re & -> & Hin & Hid & Hws).
      exists s, re. rewrite in_app_iff. auto.
  - assert (guest_key (randomUUID env) ≠ guest_key ident) as Hk
      by (intros E; by apply guest_key_inj in E).
    assert (entry_value <$> remote st !! guest_key ident = Some v
            ∨ memory st !! guest_key ident = Some v) as Hv'.
    { unfold kvSet, kv_set in Hv. destruct (up_persist env); simpl in Hv;
        rewrite lookup_insert_ne in Hv by done; by rewrite Hr, Hm in Hv. }
    destruct (Hinv ident v Hv') as (s & re & -> & Hin & Hid & Hws).
    exists s, re. rewrite in_app_iff. auto.
Qed.

Lemma serve_guest_records batch : ∀ served st,
  guest_records_from served st →
  guest_records_from (served ++ batch) (serve batch st).2.
Proof.
  induction batch as [|[req env] batch IH]; intros served st Hinv; simpl.
  - by rewrite app_nil_r.
  - pose proof (POST_guest_records served req env st Hinv) as Hstep.
    destruct (POST req env st) as [resp st1]. simpl in Hstep.
    specialize (IH _ _ Hstep). destruct (serve batch st1) as [resps st2].
    simpl in *. by rewrite <- app_assoc in IH.
Qed.

Lemma kvGet_found up k st v :
  kvGet up k st = Some v →
  entry_value <$> remote st !! k = Some v ∨ memory st !! k = Some v.
Proof.
  unfold kvGet, kv_get. destruct up; simpl; [|by right].
  destruct (remote st !! k) as [e|]; simpl; [left|right]; congruence.
Qed.

Lemma no_guest_records_from st : no_guest_records st → guest_records_from [] st.
Proof.
  intros Hno ident v. destruct (Hno ident) as [-> ->]. by intros [?|?].
Qed.

(** X18. After any sequence of requests, served from a store without guest
    records, a record read under the key of an identifier was written for
    one of the requests, which drew that identifier: its data passed the
    schema and the spam check. *)
Theorem stored_records_provenance batch st up ident s :
  no_guest_records st →
  kvGet up (guest_key ident) (serve batch st).2 = Some (VSubmission s) →
  ∃ re, In re batch ∧ randomUUID re.2 = ident ∧ written_for re s.
Proof.
  intros Hno Hget. apply kvGet_found in Hget.
  destruct (serve_guest_records batch [] st (no_guest_records_from st Hno) ident _ Hget)
    as (s' & re & [= <-] & Hin & Hid & Hw).
  by exists re.
Qed.

(** X19. And an identifier of the canonical shape that no request drew is not
    found, by the success page and by the document endpoint alike. *)
Theorem unissued_identifier_not_found batch st up renv ident :
  no_guest_records st →
  (∀ re, In re batch → randomUUID re.2 ≠ ident) →
  isValidUUID ident = true →
  SuccessPage ident up (serve batch st).2 = NotFoundView
  ∧ GET ident renv (serve batch st).2 = RegistrationNotFound.
Proof.
  intros Hno Hnew Hid.
  assert (∀ up', kvGet up' (guest_key ident) (serve batch st).2 = None) as Hnone.
  { intros up'. destruct (kvGet up' _ _) as [v|] eqn:E; [|done].
    apply kvGet_found in E.
    destruct (serve_guest_records batch [] st (no_guest_records_from st Hno) ident _ E)
      as (s' & re & _ & Hin & Hre & _).
    by destruct (Hnew re Hin). }
  unfold SuccessPage, GET.
  rewrite (isValidUUID_not_empty _ Hid), Hid, !Hnone. done.
Qed.

End Provenance.

(** ** The renderer: what it returns when it returns *)

Section Sound.
Context `{Platform}.

Lemma page_drawText_sound t x yPos size f page out :
  page_drawText t x yPos size f page = Some out →
  out = (page ++ [DrawText t x yPos size f])%list.
Proof. unfold page_drawText. destruct (encodes f t); by intros [= <-]. Qed.

Lemma wrap_loop_sound f size mw x ws : ∀ acc r,
  wrap_loop f size mw x ws acc = Some r →
  r = fold_left (lay_wrap_step f size mw x) ws acc.
Proof.
  induction ws as [|w ws IH]; intros acc r; simpl.
  - by intros [= <-].
  - destruct (wrap_step f size mw x acc w) as [acc'|] eqn:E; [|done].
    cbn [mbind option_bind]. intros Hr. rewrite (IH _ _ Hr). f_equal.
    destruct acc as [[line cy] out]. unfold wrap_step, lay_wrap_step, measure in *.
    destruct (encodes f _); [|done]. cbn [mbind option_bind] in E.
    destruct (Qltb mw _ && negb (Js.is_empty line)).
    + destruct (page_drawText line x cy size f out) as [out'|] eqn:Ed; [|done].
      apply page_drawText_sound in Ed as ->. by injection E as <-.
    + by injection E as <-.
Qed.

Lemma drawText_sound t x yPos size f mw page r :
  drawText t x yPos size f mw page = Some r → r = lay_text t x yPos size f mw page.
Proof.
  unfold drawText, lay_text. cbv zeta.
  assert (∀ r', (out ← page_drawText t x yPos size f page; Some (yPos, out)) = Some r'
                → r' = (yPos, page ++ [DrawText t x yPos size f])%list) as Hplain.
  { intros r'. destruct (page_drawText _ _ _ _ _ _) as [out|] eqn:E; [|done].
    apply page_drawText_sound in E as ->. by intros [= <-]. }
  destruct mw as [mw|]; [|apply Hplain].
  destruct (Qeq_bool mw 0); [apply Hplain|].
  destruct (wrap_loop _ _ _ _ _ _) as [acc|] eqn:E; cbn [mbind option_bind]; [|done].
  apply wrap_loop_sound in E as ->.
  destruct (fold_left _ _ _) as [[line cy] out].
  destruct (Js.is_empty line); [by intros [= <-]|].
  clear Hplain.
  destruct (page_drawText _ _ _ _ _ _) as [out'|] eqn:E; cbn [mbind option_bind];
    [|done].
  apply page_drawText_sound in E as ->. by intros [= <-].
Qed.

Lemma put_sound t x size f cv cv' :
  put t x size f cv = Some cv' → cv' = lay_put t x size f cv.
Proof.
  unfold put, lay_put. destruct (drawText _ _ _ _ _ _ _) as [r|] eqn:E; [|done].
  apply drawText_sound in E as ->. by intros [= <-].
Qed.

Lemma addField_sound label v cv cv' :
  addField label v cv = Some cv' → cv' = lay_field label v cv.
Proof.
  unfold addField, lay_field. cbv zeta.
  destruct (put _ _ _ _ _) as [cv2|] eqn:E; [|done]. apply put_sound in E as ->.
  cbn [mbind option_bind].
  destruct (drawText _ _ _ _ _ _ _) as [r|] eqn:E; [|done].
  apply drawText_sound in E as ->. by intros [= <-].
Qed.

Lemma image_embedded_sound img label cv cv' :
  image_embedded img label cv = Completed cv' → cv' = lay_embedded img label cv.
Proof.
  unfold image_embedded, lay_embedded. cbv zeta.
  destruct (Qltb _ _);
    (destruct (put _ _ _ _ _) as [cv2|] eqn:E; [|done]; apply put_sound in E as ->;
     by intros [= <-]).
Qed.

End Sound.

(** ** The place of an image *)

(** The width and height at which [placeImage] draws an image of the given
    pixel width and height. *)
Definition image_box (img : positive * positive) : Q * Q :=
  let maxWidth := 200%Q in
  let maxHeight := 150%Q in
  let imgAspect := (inject_Z (Zpos (fst img)) / inject_Z (Zpos (snd img)))%Q in
  let imgHeight0 := (maxWidth / imgAspect)%Q in
  if Qltb maxHeight imgHeight0 then ((maxHeight * imgAspect)%Q, maxHeight)
  else (maxWidth, imgHeight0).

Lemma image_box_fits img :
  (0 < (image_box img).1 ∧ (image_box img).1 <= 200
   ∧ 0 < (image_box img).2 ∧ (image_box img).2 <= 150)%Q
  ∧ ((image_box img).1 * inject_Z (Zpos img.2)
     == (image_box img).2 * inject_Z (Zpos img.1))%Q
  ∧ ((image_box img).1 == 200 ∨ (image_box img).2 == 150)%Q.
Proof.
  destruct img as [W Hh]. unfold image_box. cbv zeta. cbn [fst snd].
  destruct (Qltb 150 _) eqn:E; cbn [fst snd].
  - unfold Qltb in E. apply negb_true_iff in E.
    assert (¬ (200 / (inject_Z (Z.pos W) / inject_Z (Z.pos Hh)) <= 150)%Q) as Hgt
      by (rewrite <- Qle_bool_iff; by rewrite E).
    apply Qnot_le_lt in Hgt.
    unfold Qlt, Qle, Qeq, Qdiv, Qmult, Qinv, inject_Z in *. simpl in *.
    repeat split; lia.
  - unfold Qltb in E. apply negb_false_iff, Qle_bool_iff in E.
    unfold Qlt, Qle, Qeq, Qdiv, Qmult, Qinv, inject_Z in *. simpl in *.
    repeat split; lia.
Qed.

(** After [checkPageSpace(requiredSpace)] there is that much room above
    the bottom margin, for any requirement that a page can meet. *)
Lemma checkPageSpace_room r cv :
  (r <= pageHeight - 2 * margin)%Q → (margin + r <= y (checkPageSpace r cv))%Q.
Proof.
  intros Hr. unfold checkPageSpace. destruct (Qltb _ _) eqn:E; cbn [y].
  - unfold pageHeight, margin in *. lra.
  - unfold Qltb in E. apply negb_false_iff, Qle_bool_iff in E. lra.
Qed.

(** X20. An image that [placeImage] embeds is drawn under its label, at the left
    margin, scaled to fit a box of 200 by 150 with its proportions kept and
    one side of the box filled; a page is added first when fewer than its
    height and 40 are left, so that its lower edge stays at least 25 above
    the bottom margin. *)
Theorem embedded_image_fits `{Platform} img label cv cv' :
  image_embedded img label cv = Completed cv' →
  ops cv'
  = (ops (checkPageSpace ((image_box img).2 + 40) cv)
     ++ [ DrawText (label ++ ":") margin
            (y (checkPageSpace ((image_box img).2 + 40) cv)) 10 HelveticaBold;
          DrawImage margin
            (y (checkPageSpace ((image_box img).2 + 40) cv) - 15 - (image_box img).2)
            (image_box img).1 (image_box img).2 ])%list
  ∧ (0 < (image_box img).1 ∧ (image_box img).1 <= 200
     ∧ 0 < (image_box img).2 ∧ (image_box img).2 <= 150)%Q
  ∧ ((image_box img).1 * inject_Z (Zpos img.2)
     == (image_box img).2 * inject_Z (Zpos img.1))%Q
  ∧ ((image_box img).1 == 200 ∨ (image_box img).2 == 150)%Q
  ∧ (margin + 25
     <= y (checkPageSpace ((image_box img).2 + 40) cv) - 15 - (image_box img).2)%Q
  ∧ (y cv' == y (checkPageSpace ((image_box img).2 + 40) cv) - 15
              - (image_box img).2 - 20)%Q.
Proof.
  intros Hdone. apply image_embedded_sound in Hdone as ->.
  destruct (image_box_fits img) as (Hbox & Haspect & Hside).
  split; [|split; [exact Hbox|split; [exact Haspect|split; [exact Hside|]]]].
  - unfold lay_embedded, image_box. cbv zeta.
    destruct (Qltb 150 _); cbn [fst snd]; unfold down, lay_put, lay_text;
      cbn [ops y snd]; by rewrite <- app_assoc.
  - assert ((image_box img).2 + 40 <= pageHeight - 2 * margin)%Q as Hr
      by (unfold pageHeight, margin; lra).
    pose proof (checkPageSpace_room _ cv Hr) as Hroom.
    split; [lra|].
    unfold lay_embedded, image_box. cbv zeta.
    destruct (Qltb 150 _); cbn [fst snd]; unfold down, lay_put; cbn [ops y]; lra.
Qed.

(** ** The lines of a field *)

(** The vertical position of the [i]-th line of a wrapped text: each line
    break moves down by the font size and 2. *)
Definition line_y (yPos size : Q) (i : nat) : Q :=
  Nat.iter i (λ y, (y - (size + 2))%Q) yPos.

Section Lines.
Context `{Platform}.

Lemma lay_text_fold f size mw x yPos page ws : ∀ line cy out drawn,
  out = (page ++ imap (λ i l, DrawText l x (line_y yPos size i) size f) drawn)%list →
  cy = line_y yPos size (length drawn) →
  let r := fold_left (lay_wrap_step f size mw x) ws (line, cy, out) in
  let r' := fold_left (wrap_lines_step f size mw) ws (line, drawn) in
  r.1.1 = r'.1
  ∧ r.2 = (page ++ imap (λ i l, DrawText l x (line_y yPos size i) size f) r'.2)%list
  ∧ r.1.2 = line_y yPos size (length r'.2).
Proof.
  induction ws as [|w ws IH]; intros line cy out drawn Hout Hcy; simpl.
  - done.
  - destruct (Qltb mw _ && negb (Js.is_empty line)).
    + apply IH.
      * rewrite Hout, imap_app, <- app_assoc. simpl. rewrite Nat.add_0_r.
        by rewrite Hcy.
      * rewrite length_app. simpl. rewrite Nat.add_1_r. simpl. by rewrite Hcy.
    + by apply IH.
Qed.

(** [drawText] with a width draws the lines of [wrap_lines], the first at
    the position it is given and each next one a line further down. *)
Lemma lay_text_lines text x yPos size f mw page :
  Qeq_bool mw 0 = false →
  (lay_text text x yPos size f (Some mw) page).2
  = (page ++ imap (λ i l, DrawText l x (line_y yPos size i) size f)
               (wrap_lines f size (Some mw) text))%list.
Proof.
  intros Hmw. unfold lay_text, wrap_lines. rewrite Hmw.
  pose proof (lay_text_fold f size mw x yPos page (Js.split " " text)
                EmptyString yPos page []) as Hf.
  simpl in Hf. rewrite app_nil_r in Hf. specialize (Hf eq_refl eq_refl).
  destruct (fold_left (lay_wrap_step _ _ _ _) _ _) as [[line cy] out].
  destruct (fold_left (wrap_lines_step _ _ _) _ _) as [line' drawn].
  simpl in Hf. destruct Hf as (<- & -> & ->). cbn [snd].
  destruct (Js.is_empty line); [done|].
  rewrite imap_app, <- app_assoc. simpl. by rewrite Nat.add_0_r.
Qed.

(** X21. A field is drawn with at least 30 above the bottom margin: its label,
    and at the same height the first line of its value; the lines that the
    value wraps into follow 12 apart, and the next field starts 16 below,
    however many lines there were. *)
Theorem addField_layout label v cv cv' :
  addField label v cv = Some cv' →
  ops cv'
  = (ops (checkPageSpace 30 cv)
     ++ DrawText (label ++ ":") margin (y (checkPageSpace 30 cv)) 10 HelveticaBold
        :: imap (λ i l, DrawText l (margin + 120)%Q
                          (line_y (y (checkPageSpace 30 cv)) 10 i) 10 Helvetica)
             (wrap_lines Helvetica 10 (Some value_column) v))%list
  ∧ y cv' = (y (checkPageSpace 30 cv) - 16)%Q
  ∧ (margin + 30 <= y (checkPageSpace 30 cv))%Q.
Proof.
  intros Hdone. apply addField_sound in Hdone as ->.
  split; [|split; [done|]].
  - unfold lay_field. cbv zeta. unfold down. cbn [ops y].
    unfold value_column.
    rewrite (lay_text_lines _ _ _ _ _ (pageWidth - margin - 120 - margin)%Q _ eq_refl).
    unfold lay_put, lay_text. cbn [ops y snd]. by rewrite <- app_assoc.
  - apply checkPageSpace_room. unfold pageHeight, margin. lra.
Qed.

(** A line that [drawText] draws is no wider than the width it was given,
    unless it is a single piece without a space. *)
Lemma wrap_lines_fold_fit f size mw ws : ∀ line drawn,
  let fit l := Qltb mw (widthOfTextAtSize f l size) = false ∨ free_of " " l = true in
  Forall (λ w, free_of " " w = true) ws →
  fit line → Forall fit drawn →
  let r := fold_left (wrap_lines_step f size mw) ws (line, drawn) in
  fit r.1 ∧ Forall fit r.2.
Proof.
  induction ws as [|w ws IH]; intros line drawn fit Hws Hline Hdrawn; simpl.
  - done.
  - apply Forall_cons in Hws as [Hw Hws].
    destruct (Qltb mw _) eqn:Ewide; simpl.
    + destruct (Js.is_empty line) eqn:Eline; simpl.
      * apply IH; [done| |done]. right. by destruct line.
      * apply IH; [done|by right|]. apply Forall_app. split; [done|]. by constructor.
    + apply IH; [done| |done]. by left.
Qed.

(** ** The images of an accepted payload *)

(** X23. Every image of a record that passed the schema names a payload after
    its first comma: [placeImage] does not skip its slot as empty, and the
    slot is embedded, or left blank for a type that is neither PNG nor
    JPEG, or marked as failed because the payload does not decode or does
    not embed. *)
Theorem accepted_images_have_payload now b d url :
  parse now b = inl d →
  In url [selfie d; idImage d; signature d] →
  Js.startsWith url "data:image/" = true
  ∧ (∃ base64, Js.split "," url !! 1%nat = Some base64 ∧ Js.is_empty base64 = false)
  ∧ slot_outcome url ≠ SlotAbsent.
Proof.
  intros Hp Hin. apply parse_inl in Hp as [Hv Hi].
  destruct b as [v|o]; [by destruct v|].
  cbn [RegistrationSchema] in Hv, Hi. rewrite !refine_value in Hv.
  do 2 apply refine_issues_nil in Hi.
  apply z_object_value in Hv as (_ & _ & _ & _ & _ & V1 & V2 & V3).
  unfold z_object in Hi. cbn [issues] in Hi.
  do 10 (apply app_eq_nil in Hi as [_ Hi]).
  apply app_eq_nil in Hi as [I1 Hi]. apply app_eq_nil in Hi as [I2 Hi].
  apply app_eq_nil in Hi as [I3 _].
  assert (∀ f m cks v s,
            issues (refine f (image_ok m) cks v) = [] → value (refine f (image_ok m) cks v) = Some s →
            image_ok m s = true) as Hok.
  { intros f m cks v s. unfold refine. destruct (value v) as [a|] eqn:E.
    - destruct (image_ok m a) eqn:Eok.
      + intros _. rewrite E. by intros [= <-].
      + cbn [issues]. intros Hnil. by apply app_eq_nil in Hnil as [_ ?].
    - intros _ Hs. congruence. }
  assert (image_ok (5 * MB) url = true ∨ image_ok (1 * MB) url = true) as Himg.
  { cbn [In] in Hin. destruct Hin as [<-|[<-|[<-|[]]]].
    - left. exact (Hok _ _ _ _ _ I1 V1).
    - left. exact (Hok _ _ _ _ _ I2 V2).
    - right. exact (Hok _ _ _ _ _ I3 V3). }
  assert (∃ m, image_ok m url = true) as [m Hm] by (destruct Himg; eauto).
  apply image_ok_spec in Hm as [Hpre (b64 & Hsplit & Hne & _)].
  split; [done|]. split.
  - exists b64. split; [done|]. by destruct b64.
  - unfold slot_outcome. destruct url as [|c url]; [done|].
    change (Js.is_empty (String c url)) with false. cbv iota.
    rewrite Hsplit. destruct b64 as [|c' b64]; [done|].
    change (Js.is_empty (String c' b64)) with false. cbv iota.
    destruct (Js.atob _); [|done].
    destruct (Js.startsWith _ "data:image/png"); [by destruct (embedPng _)|].
    destruct (_ || _); [by destruct (embedJpg _)|done].
Qed.

End Lines.

(** ** What [drawText] draws *)

Section Wraps.
Context `{Platform}.

(** X22. [drawText] with a width other than zero, when it returns: the lines it
    adds to the page are at the given [x], the first at the given height
    and each next one the font size and 2 lower; together they hold the
    words of the text in their order; and a line is wider than the width
    only if it is a single piece without a space. *)
Theorem drawText_wraps text x yPos size f mw page r :
  drawText text x yPos size f (Some mw) page = Some r →
  Qeq_bool mw 0 = false →
  ∃ lines,
    r.2 = (page ++ imap (λ i l, DrawText l x (line_y yPos size i) size f) lines)%list
    ∧ concat (map words lines) = words text
    ∧ Forall (λ l, Qltb mw (widthOfTextAtSize f l size) = false
                   ∨ free_of " " l = true) lines.
Proof.
  intros Hdone Hmw. apply drawText_sound in Hdone as ->.
  exists (wrap_lines f size (Some mw) text).
  split; [by apply lay_text_lines|]. split; [apply wrap_lines_words|].
  unfold wrap_lines. rewrite Hmw.
  pose proof (wrap_lines_fold_fit f size mw (Js.split " " text) EmptyString []
                (split_pieces_free " " text)) as Hf.
  simpl in Hf. specialize (Hf (or_intror eq_refl)).
  destruct (fold_left _ _ _) as [line drawn]. simpl in Hf.
  destruct Hf as [Hline Hdrawn]; [by constructor|].
  destruct (Js.is_empty line); [done|]. apply Forall_app. split; [done|].
  by constructor.
Qed.

End Wraps.

(** ** Texts that a font cannot encode *)

(** The values of a record that the document shows as they are. *)
Definition record_values (d : RegistrationData) : list string :=
  [ fullName d; idOrPassport d; nationality d; residenceStatus d; homeAddress d;
    phone d; email d ].

Section Unencodable.
Context `{Platform}.

Lemma split_unencodable f text :
  encodable f " " = true → encodes f text = false →
  ∃ w, In w (Js.split " " text) ∧ encodes f w = false.
Proof.
  intros Hsp. unfold encodes. induction text as [|c t IH]; simpl; [done|].
  intros Hbad. destruct (Ascii.eqb c " ") eqn:Ec.
  - apply Ascii.eqb_eq in Ec as ->. rewrite Hsp in Hbad. simpl in Hbad.
    destruct (IH Hbad) as (w & Hin & Hw). exists w. split; [by right|done].
  - pose proof (split_not_nil " " t) as Hne.
    destruct (Js.split " " t) as [|w0 ws]; [done|].
    destruct (encodable f c) eqn:Eenc; simpl in Hbad.
    + destruct (IH Hbad) as (w & [<-|Hin] & Hw).
      * exists (String c w0). split; [by left|]. simpl. by rewrite Eenc.
      * exists w. split; [by right|done].
    + exists (String c w0). split; [by left|]. simpl. by rewrite Eenc.
Qed.

Lemma wrap_loop_fails f size mw x ws : ∀ acc,
  (∃ w, In w ws ∧ encodes f w = false) → wrap_loop f size mw x ws acc = None.
Proof.
  induction ws as [|w0 ws IH]; intros acc (w & Hin & Hbad); [done|].
  simpl. destruct Hin as [->|Hin].
  - destruct acc as [[line cy] out]. unfold wrap_step, measure.
    assert (encodes f (line ++ (if Js.is_empty line then "" else " ") ++ w) = false)
      as -> by (unfold encodes in *; by rewrite !all_chars_app, Hbad, !andb_false_r).
    done.
  - destruct (wrap_step f size mw x acc w0) as [acc'|]; [|done].
    cbn [mbind option_bind]. apply IH. eauto.
Qed.

Lemma addField_value_fails label v cv :
  encodable Helvetica " " = true → encodes Helvetica v = false →
  addField label v cv = None.
Proof.
  intros Hsp Hbad. unfold addField. cbv zeta.
  destruct (put _ _ _ _ _) as [cv2|]; [|done]. cbn [mbind option_bind].
  unfold drawText. cbv zeta.
  change (Qeq_bool (pageWidth - margin - 120 - margin) 0) with false. cbv iota.
  by rewrite (wrap_loop_fails _ _ _ _ _ _ (split_unencodable _ _ Hsp Hbad)).
Qed.

Lemma guest_information_fails d v cv :
  encodable Helvetica " " = true →
  In v (record_values d) → encodes Helvetica v = false →
  guest_information d cv = None.
Proof.
  intros Hsp Hin Hbad. unfold guest_information.
  destruct (line _ _ _ _ _) as [cv0|]; [|done]. cbn [mbind option_bind].
  unfold record_values in Hin. cbn [In] in Hin.
  repeat (destruct Hin as [<-|Hin];
          [repeat first
             [ by rewrite (addField_value_fails _ _ _ Hsp Hbad)
             | match goal with
               | |- (addField ?l ?t ?c ≫= _) = None =>
                   destruct (addField l t c) as [?|]; [|done];
                   cbn [mbind option_bind]
               end ] |]).
  destruct Hin.
Qed.

(** X24. A record with a value that the regular font cannot encode has no
    document: the endpoint answers 500 for it. *)
Theorem unencodable_value_fails ident renv st s v :
  isValidUUID ident = true →
  kvGet (up_read renv) (guest_key ident) st = Some (VSubmission s) →
  encodable Helvetica " " = true →
  In v (record_values (data s)) → encodes Helvetica v = false →
  GET ident renv st = PdfFailed ∧ pdf_status (GET ident renv st) = 500.
Proof.
  intros Hid Hget Hsp Hin Hbad.
  assert (render ident s (now_render renv) = None) as Hnone.
  { unfold render. cbv zeta.
    destruct (header _ _ _) as [cv1|]; [|done]. cbn [mbind option_bind].
    by rewrite (guest_information_fails _ _ _ Hsp Hin Hbad). }
  unfold GET. by rewrite (isValidUUID_not_empty _ Hid), Hid, Hget, Hnone.
Qed.

(** X25. The same for the check mark that opens the consent lines: a regular
    font without it leaves no record with a document. *)
Theorem consent_line_fails ident renv st s :
  isValidUUID ident = true →
  kvGet (up_read renv) (guest_key ident) st = Some (VSubmission s) →
  encodes Helvetica popia_line = false →
  GET ident renv st = PdfFailed ∧ pdf_status (GET ident renv st) = 500.
Proof.
  intros Hid Hget Hno. unfold GET.
  by rewrite (isValidUUID_not_empty _ Hid), Hid, Hget,
       (render_needs_consent_line _ _ _ Hno).
Qed.

End Unencodable.

(** ** The further properties on the sample inputs *)

Section MoreSamples.
Import Demo.

(** The sample request while the limiter cannot read the remote store. *)
Definition env_blind : Env :=
  {| now_rate := now_rate env; up_rate_get := false; up_rate_set := true;
     now_validate := now_validate env; randomUUID := uuid;
     now_created := now_created env; now_iso := now_iso env;
     up_persist := true |}.

Definition other_uuid : string := "00000000-0000-4000-8000-000000000000".

(** The sample platform with fonts that have the ASCII characters only. *)
Definition ascii_fonts : Platform :=
  {| zod_email := sample_email;
     Date_parse := sample_Date_parse;
     encodable := fun _ c => Js.charCode c <? 128;
     widthOfTextAtSize := sample_width;
     dayjs_ms_format := fun ms _ => pretty ms;
     dayjs_text_format := fun s _ => s;
     embedPng := sample_embedPng;
     embedJpg := sample_embedJpg;
     number_toString_other := fun _ => "NaN" |}.

(** An address in another script, and the store after its submission. *)
Definition address_cyrillic : string := "Москва, ул. Ленина 5".

Definition stored_cyrillic : Store :=
  (POST (request_with "homeAddress" (JString address_cyrillic)) env empty_store).2.

Definition long_text : string :=
  "12 Long Street, Gardens, Cape Town, Western Cape, 8001, Republic of South Africa, third floor, second door on the left".

Lemma rate_limit_fails_open_witness :
  Forall (λ resp, status resp ≠ 429)
    (serve [ (request, env_blind); (request, env_blind); (request, env_blind);
             (request, env_blind); (request, env_blind) ] empty_store).1.
Proof.
  apply rate_limit_fails_open.
  - intros ident. apply lookup_empty.
  - repeat constructor.
Defined.

Lemma rate_counter_bounded_witness :
  counter_in_range true "203.0.113.7"
    (serve [ (request, env); (request, env_after 60000); (request, env_after 120000);
             (request, env_after 180000) ] empty_store).2.
Proof.
  apply rate_counter_bounded.
  - intros ident. unfold counter_in_range, kvGet, kv_get. simpl.
    rewrite !lookup_empty. exact I.
  - repeat constructor.
Defined.

Lemma client_ip_forwarded_witness :
  x_forwarded_for request = Some "203.0.113.7, 10.0.0.1"
  ∧ free_of "," (client_ip request) = true
  ∧ ("203.0.113.7, 10.0.0.1" = client_ip request
     ∨ ∃ rest, "203.0.113.7, 10.0.0.1" = client_ip request ++ String "," rest).
Proof.
  split; [reflexivity|].
  apply (client_ip_forwarded request "203.0.113.7, 10.0.0.1"); [reflexivity|discriminate].
Defined.

Lemma parse_keeps_values_witness :
  ∃ d, parse (now_validate env) (Object fields) = inl d
       ∧ fields !! "fullName" = Some (JString (fullName d))
       ∧ ∃ e, fields !! "email" = Some (JString e) ∧ email d = Js.toLowerCase e.
Proof.
  destruct (parse (now_validate env) (Object fields)) as [d|found] eqn:Hp;
    [|vm_compute in Hp; discriminate].
  exists d. split; [reflexivity|].
  destruct (parse_keeps_values _ _ _ Hp) as (Hname & _ & _ & _ & _ & _ & Hmail & _).
  split; [exact Hname | exact Hmail].
Defined.

Lemma accepted_stay_witness :
  ∃ d i t, parse (now_validate env) (Object fields) = inl d
           ∧ Date_parse (checkIn d) = Some i ∧ Date_parse (checkOut d) = Some t
           ∧ now_validate env < i ∧ i < t ∧ t - i ≤ 365 * msPerDay.
Proof.
  destruct (parse (now_validate env) (Object fields)) as [d|found] eqn:Hp;
    [|vm_compute in Hp; discriminate].
  destruct (accepted_stay _ _ _ Hp) as (i & t & Hrest).
  exists d, i, t. split; [reflexivity | exact Hrest].
Defined.

Lemma accepted_guests_witness :
  ∃ d n, parse (now_validate env) (Object fields) = inl d
         ∧ 1 ≤ n ≤ 20 ∧ (guests d == inject_Z n)%Q
         ∧ Number_toString (guests d) = pretty n.
Proof.
  destruct (parse (now_validate env) (Object fields)) as [d|found] eqn:Hp;
    [|vm_compute in Hp; discriminate].
  destruct (accepted_guests _ _ _ Hp) as (n & Hrest).
  exists d, n. split; [reflexivity | exact Hrest].
Defined.

Lemma missing_key_reported_witness :
  delete "phone" fields !! "phone" = None
  ∧ ∃ found, parse (now_validate env) (Object (delete "phone" fields)) = inr found
             ∧ In {| field := "phone"; message := "Required" |} found.
Proof.
  split; [reflexivity|].
  apply (missing_key_reported (now_validate env) (delete "phone" fields) "phone" "Required");
    [|reflexivity].
  unfold required_messages. cbn [In]. tauto.
Defined.



Lemma valid_form_complete_witness :
  zod_email "" = false
  ∧ progressPercentage fields = 100 ∧ submit_disabled false fields = false.
Proof.
  split; [reflexivity|].
  destruct (form_parse (now_validate env) fields) as [d|found] eqn:Hf;
    [|vm_compute in Hf; discriminate].
  exact (valid_form_complete (now_validate env) fields d eq_refl Hf).
Defined.

Lemma submit_then_success_page_witness :
  ∃ s, SuccessPage uuid true (POST request env empty_store).2 = SuccessView s
       ∧ id s = uuid ∧ createdAt s = now_created env
       ∧ ip (metadata s) = client_ip request.
Proof.
  destruct (parse (now_validate env) (Object fields)) as [d|found] eqn:Hp;
    [|vm_compute in Hp; discriminate].
  assert (detectSpamPatterns d = false) as Hspam
    by (vm_compute in Hp; by injection Hp as <-).
  destruct (submit_then_success_page request env true empty_store (Object fields) d)
    as (s & Hpage & Hid & _ & Hat & Hip);
    [vm_compute; reflexivity | reflexivity | exact Hp | exact Hspam
    | reflexivity | reflexivity | reflexivity |].
  exists s. split; [exact Hpage|]. split; [exact Hid|]. split; [exact Hat | exact Hip].
Defined.

Lemma stored_records_provenance_witness :
  ∃ s re, kvGet true (guest_key uuid) (serve [(request, env)] empty_store).2
          = Some (VSubmission s)
          ∧ In re [(request, env)] ∧ randomUUID re.2 = uuid ∧ written_for re s.
Proof.
  destruct (kvGet true (guest_key uuid) (serve [(request, env)] empty_store).2)
    as [[s|c r|]|] eqn:Hget; [|vm_compute in Hget; discriminate ..].
  destruct (stored_records_provenance [(request, env)] empty_store true uuid s)
    as (re & Hrest); [|exact Hget|].
  - intros ident. split; apply lookup_empty.
  - exists s, re. split; [reflexivity | exact Hrest].
Defined.

Lemma unissued_identifier_not_found_witness :
  isValidUUID other_uuid = true
  ∧ SuccessPage other_uuid true (serve [(request, env)] empty_store).2 = NotFoundView
  ∧ GET other_uuid read_env (serve [(request, env)] empty_store).2
    = RegistrationNotFound.
Proof.
  split; [reflexivity|].
  apply (unissued_identifier_not_found [(request, env)] empty_store true read_env
           other_uuid).
  - intros ident. split; apply lookup_empty.
  - intros re [<-|[]]. vm_compute. discriminate.
  - reflexivity.
Defined.

Lemma embedded_image_fits_witness :
  ∃ cv', image_embedded (400%positive, 300%positive) "Selfie Photo" first_page
         = Completed cv'
         ∧ ((image_box (400%positive, 300%positive)).1 <= 200)%Q
         ∧ ((image_box (400%positive, 300%positive)).2 <= 150)%Q.
Proof.
  destruct (image_embedded (400%positive, 300%positive) "Selfie Photo" first_page)
    as [cv'|cv'] eqn:E; [|vm_compute in E; discriminate].
  exists cv'. split; [reflexivity|].
  destruct (embedded_image_fits _ _ _ _ E) as (_ & (_ & Hw & _ & Hh) & _).
  split; [exact Hw | exact Hh].
Defined.

Lemma addField_layout_witness :
  ∃ cv', addField "Full Name" "Jane Doe" first_page = Some cv'
         ∧ y cv' = (y (checkPageSpace 30 first_page) - 16)%Q.
Proof.
  destruct (addField "Full Name" "Jane Doe" first_page) as [cv'|] eqn:E;
    [|vm_compute in E; discriminate].
  exists cv'. split; [reflexivity|].
  destruct (addField_layout _ _ _ _ E) as (_ & Hy & _). exact Hy.
Defined.

Lemma accepted_images_have_payload_witness :
  ∃ d, parse (now_validate env) (Object fields) = inl d
       ∧ Js.startsWith (selfie d) "data:image/" = true
       ∧ slot_outcome (selfie d) ≠ SlotAbsent.
Proof.
  destruct (parse (now_validate env) (Object fields)) as [d|found] eqn:Hp;
    [|vm_compute in Hp; discriminate].
  exists d. split; [reflexivity|].
  destruct (accepted_images_have_payload _ _ _ (selfie d) Hp) as (Hpre & _ & Hslot);
    [by left|].
  split; [exact Hpre | exact Hslot].
Defined.

Lemma drawText_wraps_witness :
  ∃ r lines,
    drawText long_text (margin + 120)%Q 700 10 Helvetica (Some value_column) [] = Some r
    ∧ r.2 = imap (λ i l, DrawText l (margin + 120)%Q (line_y 700 10 i) 10 Helvetica) lines
    ∧ concat (map words lines) = words long_text
    ∧ Forall (λ l, Qltb value_column (widthOfTextAtSize Helvetica l 10) = false
                   ∨ free_of " " l = true) lines.
Proof.
  destruct (drawText long_text (margin + 120)%Q 700 10 Helvetica (Some value_column) [])
    as [r|] eqn:E; [|vm_compute in E; discriminate].
  destruct (drawText_wraps _ _ _ _ _ _ _ _ E eq_refl) as (lines & Hrest).
  exists r, lines. split; [reflexivity | exact Hrest].
Defined.

Lemma unencodable_value_fails_witness :
  (POST (request_with "homeAddress" (JString address_cyrillic)) env empty_store).1
  = Created uuid
  ∧ @encodes ascii_fonts Helvetica address_cyrillic = false
  ∧ @GET ascii_fonts uuid read_env stored_cyrillic = PdfFailed.
Proof.
  split; [vm_compute; reflexivity|]. split; [vm_compute; reflexivity|].
  destruct (kvGet (up_read read_env) (guest_key uuid) stored_cyrillic)
    as [[s|c r|]|] eqn:Hget; [|vm_compute in Hget; discriminate ..].
  assert (homeAddress (data s) = address_cyrillic) as Haddr
    by (vm_compute in Hget; by injection Hget as <-).
  destruct (@unencodable_value_fails ascii_fonts uuid read_env stored_cyrillic s
              (homeAddress (data s)) eq_refl Hget eq_refl) as [Hfail _].
  - unfold record_values. cbn [In]. tauto.
  - rewrite Haddr. vm_compute. reflexivity.
  - exact Hfail.
Defined.

Lemma consent_line_fails_witness :
  @encodes ascii_fonts Helvetica popia_line = false
  ∧ @GET ascii_fonts uuid read_env stored = PdfFailed
  ∧ pdf_status (@GET ascii_fonts uuid read_env stored) = 500.
Proof.
  split; [vm_compute; reflexivity|].
  destruct (kvGet (up_read read_env) (guest_key uuid) stored)
    as [[s|c r|]|] eqn:Hget; [|vm_compute in Hget; discriminate ..].
  apply (@consent_line_fails ascii_fonts uuid read_env stored s eq_refl Hget).
  vm_compute. reflexivity.
Defined.

(** The store after the submission of a selfie that does not decode. *)
Definition stored_undecodable : Store :=
  (@POST ascii_fonts (request_with "selfie" (JString undecodable_url)) env
     empty_store).2.

Lemma submit_then_render_fails_witness :
  @encodes ascii_fonts Helvetica popia_line = false
  ∧ (@POST ascii_fonts request env empty_store).1 = Created uuid
  ∧ @GET ascii_fonts uuid read_env (@POST ascii_fonts request env empty_store).2
    = PdfFailed
  ∧ mentions "Jane Doe"
      (@GET ascii_fonts uuid read_env (@POST ascii_fonts request env empty_store).2)
    = false.
Proof.
  split; [reflexivity|].
  destruct (@parse ascii_fonts (now_validate env) (Object fields)) as [d|found]
    eqn:Hparse; [|vm_compute in Hparse; discriminate].
  assert (fullName d = "Jane Doe" ∧ detectSpamPatterns d = false) as [Hname Hspam]
    by (vm_compute in Hparse; by injection Hparse as <-).
  destruct (@submit_then_render_fails ascii_fonts request env read_env empty_store
              (Object fields) d)
    as (Hresp & _ & Hget & _ & Hnone & _);
    [vm_compute; reflexivity | reflexivity | exact Hparse | exact Hspam
    | reflexivity | reflexivity | reflexivity | reflexivity |].
  rewrite Hname in Hnone. by repeat split.
Defined.

Lemma image_failure_aborts_document_witness :
  (∃ s, kvGet true (guest_key uuid) stored_undecodable = Some (VSubmission s)
        ∧ selfie (data s) = undecodable_url)
  ∧ @GET ascii_fonts uuid read_env stored_undecodable = PdfFailed
  ∧ mentions (failed_text "Selfie Photo")
      (@GET ascii_fonts uuid read_env stored_undecodable) = false.
Proof.
  assert (∃ s, kvGet (up_read read_env) (guest_key uuid) stored_undecodable
               = Some (VSubmission s)
               ∧ selfie (data s) = undecodable_url) as (s & Hget & Hselfie).
  { eexists. split; [vm_compute|]; reflexivity. }
  split; [by exists s|].
  destruct (@image_failure_aborts_document ascii_fonts uuid read_env
              stored_undecodable s eq_refl Hget eq_refl)
    as (_ & _ & Hfailed & _ & Hnone).
  split; [exact Hfailed | apply Hnone].
Defined.

End MoreSamples.
